(** * stLearn cell-cell interaction (CCI) core: a shallow embedding

    Embeds [stlearn/tools/microenv/cci/het.py] and
    [stlearn/tools/microenv/cci/analysis.py].

    Conventions of the embedding:
    - numpy float arrays hold rationals ([Q]), each the exact value of a
      finite double; comparisons are exact on them, and the product of two of
      them is rounded to the nearest double ([float_mul]);
    - numpy/pandas positional indices are naturals (the indices come from
      [np.where], [range] and the neighbour tables, which are non-negative);
    - a Python exception is a [Raise] in the [result] monad;
    - [adata.uns] and [adata.obsm] are finite maps keyed by strings. *)

From Stdlib Require Import QArith Qabs ZArith Lia List String Ascii Bool.
From Stdlib Require Floats.
From stdpp Require Import base option list gmap strings fin_maps pretty.

Local Open Scope string_scope.
Local Open Scope list_scope.

(** ** Exceptions and the error monad *)

Inductive exn : Type :=
| KeyError (key : string)
| IndexError
| TypeError
| ValueError
| ZeroDivisionError
| TypingError
| Exception (msg : string).

Inductive result (A : Type) : Type :=
| Ok (a : A)
| Raise (e : exn).
Arguments Ok {A} a.
Arguments Raise {A} e.

#[global] Instance result_ret : MRet result := fun A a => Ok a.
#[global] Instance result_bind : MBind result := fun A B f m =>
  match m with
  | Ok a => f a
  | Raise e => Raise e
  end.

#[global] Instance result_fmap : FMap result := fun A B f m =>
  match m with
  | Ok a => Ok (f a)
  | Raise e => Raise e
  end.

(** [for x in xs: s = body x s], stopping at the first exception. *)
Fixpoint for_each {X S : Type} (xs : list X) (body : X -> S -> result S) (s : S)
  : result S :=
  match xs with
  | [] => Ok s
  | x :: rest => s' ← body x s; for_each rest body s'
  end.

(** [range(a, b)] *)
Definition range (a b : nat) : list nat := seq a (b - a).

(** ** Arrays *)

(** A spot is named by its barcode. *)
Abbreviation barcode := string (only parsing).

(** A two-dimensional numpy array: [shape1] is [a.shape[1]], the rows are
    [a[i, :]]; [a.shape[0]] is the number of rows. *)
Record ndarray (A : Type) : Type := mk_ndarray {
  shape1 : nat;
  rows : list (list A)
}.
Arguments mk_ndarray {A} shape1 rows.
Arguments shape1 {A} _.
Arguments rows {A} _.

Definition shape0 {A : Type} (a : ndarray A) : nat := length (rows a).

(** Every row has [shape1] entries: the invariant of a numpy array. *)
Definition rectangular {A : Type} (a : ndarray A) : Prop :=
  Forall (fun r => length r = shape1 a) (rows a).

(** [l[i]] for a position [i]; out of range raises [IndexError]. *)
Definition getitem {A : Type} (l : list A) (i : nat) : result A :=
  match l !! i with
  | Some x => Ok x
  | None => Raise IndexError
  end.

(** [a[idx]] for an integer index array [idx] (numpy fancy indexing). *)
Fixpoint take_indices {A : Type} (l : list A) (idx : list nat) : result (list A) :=
  match idx with
  | [] => Ok []
  | i :: rest => x ← getitem l i; xs ← take_indices l rest; Ok (x :: xs)
  end.

(** The selection of a boolean mask, lengths already checked. *)
Fixpoint compress {A : Type} (l : list A) (mask : list bool) : list A :=
  match l, mask with
  | x :: l', b :: mask' => if b then x :: compress l' mask' else compress l' mask'
  | _, _ => []
  end.

(** [a[mask]] for a boolean mask; numpy raises when the lengths differ. *)
Definition mask_select {A : Type} (l : list A) (mask : list bool) : result (list A) :=
  if Nat.eqb (length l) (length mask) then Ok (compress l mask)
  else Raise IndexError.

(** [np.where(mask)[0]] *)
Definition np_where (mask : list bool) : list nat :=
  compress (seq 0 (length mask)) mask.

(** [x > y] on array entries. *)
Definition Qgtb (x y : Q) : bool := negb (Qle_bool x y).

(** [mask.sum()] of a boolean vector. *)
Definition count_true (mask : list bool) : nat :=
  length (filter (fun b => b = true) mask).

(** ** het.py: [get_between_spot_edge_array] *)

(** The three accumulators of the enumeration loop. *)
Record edge_buffer : Type := mk_edge_buffer {
  edge_starts : list barcode;
  edge_ends : list barcode;
  n_edges : nat
}.

Definition append_edge (spot_bc : barcode) (buf : edge_buffer) (neigh_bc : barcode)
  : edge_buffer :=
  {| edge_starts := edge_starts buf ++ [spot_bc];
     edge_ends := edge_ends buf ++ [neigh_bc];
     n_edges := S (n_edges buf) |}.

(** [interact_neigh_bool] when [count_cell_types] is set: the row of
    [cell_data] of each neighbour is compared with [cutoff], the hits of the
    row are summed and the sum is compared with [cell_data.shape[1]]. *)
Definition interact_rows (cell_data : ndarray Q) (cutoff : Q)
  (neigh_indices : list nat) : result (list bool) :=
  sel ← take_indices (rows cell_data) neigh_indices;
  let interact_bool := map (map (fun x => Qgtb x cutoff)) sel in
  let interact_neigh_bool := map count_true interact_bool in
  Ok (map (fun s => Nat.eqb s (shape1 cell_data)) interact_neigh_bool).

(** The body of the loop over neighbourhoods (lines 147-174). *)
Definition enumerate_neighbourhood
  (neighbourhood_bcs : list (barcode * list barcode))
  (neighbourhood_indices : list (nat * list nat))
  (neigh_bool : list bool) (count_cell_types : bool)
  (cell_data : option (ndarray Q)) (cutoff : Q)
  (i : nat) (buf : edge_buffer) : result edge_buffer :=
  bcs ← getitem neighbourhood_bcs i;
  indices ← getitem neighbourhood_indices i;
  let spot_bc := bcs.1 in
  let neigh_bcs := bcs.2 in
  let neigh_indices := indices.2 in
  keep ← take_indices neigh_bool neigh_indices;
  neigh_bcs ← mask_select neigh_bcs keep;
  neigh_indices ← mask_select neigh_indices keep;
  if Nat.eqb (length neigh_indices) 0 then Ok buf
  else
    interact_neigh_bool ←
      (if count_cell_types then
         match cell_data with
         | Some cd => interact_rows cd cutoff neigh_indices
         | None => Raise TypeError
         end
       else Ok (repeat true (length neigh_indices)));
    interact_neigh_bcs ← mask_select neigh_bcs interact_neigh_bool;
    Ok (fold_left (append_edge spot_bc) interact_neigh_bcs buf).

(** The comparison of edge [i] with edge [j] in the de-duplication loop. *)
Definition same_edge (undirected : bool)
  (edge_start edge_end edge_startj edge_endj : barcode) : bool :=
  if undirected then
    (String.eqb edge_start edge_startj && String.eqb edge_end edge_endj)
    || (String.eqb edge_end edge_startj && String.eqb edge_start edge_endj)
  else
    String.eqb edge_start edge_startj && String.eqb edge_end edge_endj.

(** The inner loop [for j in range(i, n_edges)] (lines 183-191). *)
Definition mark_duplicates (undirected : bool) (buf : edge_buffer)
  (edge_start edge_end : barcode) (i : nat) (edge_added : list bool)
  : result (list bool) :=
  for_each (range i (n_edges buf))
    (fun j edge_added =>
       edge_startj ← getitem (edge_starts buf) j;
       edge_endj ← getitem (edge_ends buf) j;
       if same_edge undirected edge_start edge_end edge_startj edge_endj
       then Ok (<[j:=true]> edge_added)
       else Ok edge_added)
    edge_added.

(** The outer loop [for i in range(n_edges)] (lines 177-191); the state is
    [edge_added] and [edge_list_unique]. *)
Definition unique_edges (undirected : bool) (buf : edge_buffer)
  : result (list (barcode * barcode)) :=
  let edge_added := repeat false (length (edge_starts buf)) in
  st ← for_each (range 0 (n_edges buf))
    (fun i (st : list bool * list (barcode * barcode)) =>
       let '(edge_added, edge_list_unique) := st in
       added ← getitem edge_added i;
       if negb added then
         edge_start ← getitem (edge_starts buf) i;
         edge_end ← getitem (edge_ends buf) i;
         let edge_list_unique := edge_list_unique ++ [(edge_start, edge_end)] in
         edge_added ← mark_duplicates undirected buf edge_start edge_end i edge_added;
         Ok (edge_added, edge_list_unique)
       else Ok (edge_added, edge_list_unique))
    (edge_added, []);
  Ok st.2.

(** The candidate edges in enumeration order (lines 142-174). *)
Definition enumerate_edges
  (neighbourhood_bcs : list (barcode * list barcode))
  (neighbourhood_indices : list (nat * list nat))
  (neigh_bool : list bool) (count_cell_types : bool)
  (cell_data : option (ndarray Q)) (cutoff : Q) : result edge_buffer :=
  match cell_data with
  | None =>
      (* numba compiles the function for the types of its arguments, and
         [cell_data[neigh_indices, :]] has no type for [None] *)
      Raise TypingError
  | Some _ =>
      for_each (range 0 (length neighbourhood_bcs))
        (enumerate_neighbourhood neighbourhood_bcs neighbourhood_indices
           neigh_bool count_cell_types cell_data cutoff)
        {| edge_starts := []; edge_ends := []; n_edges := 0 |}
  end.

Definition get_between_spot_edge_array
  (neighbourhood_bcs : list (barcode * list barcode))
  (neighbourhood_indices : list (nat * list nat))
  (neigh_bool : list bool) (count_cell_types : bool)
  (cell_data : option (ndarray Q)) (cutoff : Q) (undirected : bool)
  : result (list (barcode * barcode)) :=
  buf ← enumerate_edges neighbourhood_bcs neighbourhood_indices neigh_bool
           count_cell_types cell_data cutoff;
  unique_edges undirected buf.

(** ** het.py: the de-duplication at the end of [get_edges] *)

(** Lines 122-128: [if edge not in all_edges_unique: append]. The call of
    [get_between_spot_edge_array] above these lines passes two positional
    arguments where the signature asks for four; only the loop is embedded. *)
Definition get_edges_unique (all_edges : list (barcode * barcode))
  : list (barcode * barcode) :=
  fold_left
    (fun all_edges_unique edge =>
       if bool_decide (edge ∈ all_edges_unique) then all_edges_unique
       else all_edges_unique ++ [edge])
    all_edges [].

(** ** The dataset *)

(** A pandas DataFrame: row labels, column labels, and the rows of values. *)
Record DataFrame (A : Type) : Type := mk_DataFrame {
  df_index : list string;
  df_columns : list string;
  df_rows : list (list A)
}.
Arguments mk_DataFrame {A} df_index df_columns df_rows.
Arguments df_index {A} _.
Arguments df_columns {A} _.
Arguments df_rows {A} _.

(** One entry of [adata.uns["spatial"]]; only these two keys are read. The
    scale factors are floats. *)
Record spatial_entry : Type := mk_spatial_entry {
  scalefactors : gmap string Q;
  use_quality : string
}.

Inductive uns_value : Type :=
| UnsSpatial (libraries : list (string * spatial_entry))
| UnsFrame (df : DataFrame Q)
| UnsCounts (df : DataFrame Z)
| UnsFrameDict (d : gmap string (DataFrame Q))
| UnsCountsDict (d : gmap string (DataFrame Z)).

Inductive obsm_value : Type :=
| ObsmVector (v : list Z)
| ObsmArray (a : ndarray Q)
| ObsmTable (df : DataFrame string).

(** The AnnData object, restricted to the slots the CCI code touches.
    [obs] holds the categorical columns of [adata.obs], [obs_num] its numeric
    columns ([imagerow], [imagecol]); [X] has one row per spot and one column
    per entry of [var_names]. *)
Record AnnData : Type := mk_AnnData {
  obs_names : list barcode;
  var_names : list string;
  X : list (list Q);
  obs : gmap string (list string);
  obs_num : gmap string (list Q);
  uns : gmap string uns_value;
  obsm : gmap string obsm_value
}.

Definition set_obsm (adata : AnnData) (key : string) (v : obsm_value) : AnnData :=
  {| obs_names := obs_names adata; var_names := var_names adata; X := X adata;
     obs := obs adata; obs_num := obs_num adata; uns := uns adata;
     obsm := <[key:=v]> (obsm adata) |}.

Definition set_uns (adata : AnnData) (key : string) (v : uns_value) : AnnData :=
  {| obs_names := obs_names adata; var_names := var_names adata; X := X adata;
     obs := obs adata; obs_num := obs_num adata; uns := <[key:=v]> (uns adata);
     obsm := obsm adata |}.

(** [d[key]] on a dict. *)
Definition dict_get {V : Type} (d : gmap string V) (key : string) : result V :=
  match d !! key with
  | Some v => Ok v
  | None => Raise (KeyError key)
  end.

(** [key in d] *)
Definition dict_has {V : Type} (d : gmap string V) (key : string) : bool :=
  bool_decide (is_Some (d !! key)).

(** [f] on every element, stopping at the first exception. *)
Fixpoint map_result {A B : Type} (f : A -> result B) (l : list A) : result (list B) :=
  match l with
  | [] => Ok []
  | x :: rest => y ← f x; ys ← map_result f rest; Ok (y :: ys)
  end.

(** The position of a label in an index (the first one). *)
Fixpoint index_of (key : string) (labels : list string) : option nat :=
  match labels with
  | [] => None
  | l :: rest => if String.eqb key l then Some 0 else S <$> index_of key rest
  end.

Definition get_loc (labels : list string) (key : string) : result nat :=
  match index_of key labels with
  | Some i => Ok i
  | None => Raise (KeyError key)
  end.

(** [df.loc[:, labels].values] *)
Definition loc_columns {A : Type} (df : DataFrame A) (labels : list string)
  : result (ndarray A) :=
  cols ← map_result (get_loc (df_columns df)) labels;
  sel ← map_result (fun row => take_indices row cols) (df_rows df);
  Ok (mk_ndarray (length labels) sel).

(** [df.loc[labels]]: the rows with the given row labels. *)
Definition loc_rows {A : Type} (df : DataFrame A) (labels : list string)
  : result (list (list A)) :=
  pos ← map_result (get_loc (df_index df)) labels;
  take_indices (df_rows df) pos.

(** [np.unique] on strings: sorted, without repetitions. *)
Fixpoint insert_sorted (x : string) (l : list string) : list string :=
  match l with
  | [] => [x]
  | y :: rest =>
      if String.eqb x y then l
      else if String.leb x y then x :: l
      else y :: insert_sorted x rest
  end.

Definition np_unique (l : list string) : list string :=
  fold_right insert_sorted [] l.

(** ** het.py: [count_core] *)

(** An element of the list [count_core] builds: the short-circuit puts bare
    barcodes into it, the edge enumerator puts pairs. *)
Inductive edge : Type :=
| SpotEdge (bc : barcode)
| PairEdge (edge_start edge_end : barcode).

Inductive count_result : Type :=
| Edges (edge_list : list edge)
| Count (n : nat).

Definition pair_edges (l : list (barcode * barcode)) : list edge :=
  map (fun e => PairEdge e.1 e.2) l.

(** Lines 215-218. *)
Definition label_keys (use_label : string) : string * string :=
  if String.eqb use_label "label_transfer" || String.eqb use_label "predictions"
  then ("predictions", "label_transfer")
  else (use_label, use_label).

(** Lines 236-243: the neighbourhood lists. *)
Definition neighbourhoods (all_bcs : list barcode) (neighbours : list (list nat))
  (spot_indices : list nat)
  : result (list (nat * list nat) * list (barcode * list barcode)) :=
  for_each spot_indices
    (fun spot_i (acc : list (nat * list nat) * list (barcode * list barcode)) =>
       neighs ← getitem neighbours spot_i;
       bc ← getitem all_bcs spot_i;
       neigh_bcs ← take_indices all_bcs neighs;
       Ok (acc.1 ++ [(spot_i, neighs)], acc.2 ++ [(bc, neigh_bcs)]))
    ([], []).

(** Line 256: [spot_i in neighs] for every enumerated spot. *)
Definition all_self_neighbours (neighbourhood_indices : list (nat * list nat)) : bool :=
  forallb (fun p => existsb (Nat.eqb p.1) p.2) neighbourhood_indices.

(** [mask[idx] = True] for an index array. *)
Definition set_true_at (mask : list bool) (idx : list nat) : result (list bool) :=
  for_each idx
    (fun i mask => if Nat.ltb i (length mask) then Ok (<[i:=true]> mask)
                   else Raise IndexError)
    mask.

Definition uns_frame (adata : AnnData) (key : string) : result (DataFrame Q) :=
  v ← dict_get (uns adata) key;
  match v with
  | UnsFrame df => Ok df
  | _ => Raise TypeError
  end.

(** Lines 262-270: the within-spot short-circuit. *)
Definition within_spot_edges (adata : AnnData) (uns_key : string)
  (spot_indices : list nat) (neigh_bool : list bool) (label_set : list string)
  (cutoff : Q) : result (list edge) :=
  let sig_spot_bool := repeat false (length neigh_bool) in
  sig_spot_bool ← set_true_at sig_spot_bool spot_indices;
  let spots := zip_with andb sig_spot_bool neigh_bool in
  df ← uns_frame adata uns_key;
  vals ← loc_columns df label_set;
  sel ← mask_select (rows vals) spots;
  let counts := map (fun row => count_true (map (fun x => Qgtb x cutoff) row)) sel in
  let interact_indices := np_where (map (fun c => Nat.ltb 0 c) counts) in
  map_result (fun index => bc ← getitem (obs_names adata) index; Ok (SpotEdge bc))
    interact_indices.

(** Lines 286-289: one 0/1 column per label. *)
Definition one_hot (cell_types label_set : list string) : ndarray Q :=
  mk_ndarray (length label_set)
    (map (fun ct => map (fun cell_type => if String.eqb ct cell_type then 1%Q else 0%Q)
                      label_set)
       cell_types).

(** Lines 224-226: [label_set], or the labels of the column. *)
Definition label_set_or_default (adata : AnnData) (obs_key : string)
  (label_set : option (list string)) : result (list string) :=
  match label_set with
  | Some ls => Ok ls
  | None => col ← dict_get (obs adata) obs_key; Ok (np_unique col)
  end.

(** Lines 228-230: [neigh_bool], or all spots. *)
Definition neigh_bool_or_default (adata : AnnData) (neigh_bool : option (list bool))
  : list bool :=
  match neigh_bool with
  | Some nb => nb
  | None => repeat true (length (obs_names adata))
  end.

(** Lines 294-297. *)
Definition edges_or_count (return_edges : bool) (edge_list : list edge)
  : count_result :=
  if return_edges then Edges edge_list else Count (length edge_list).

Definition count_core (adata : AnnData) (use_label : string)
  (neighbours : list (list nat)) (spot_indices : option (list nat))
  (neigh_bool : option (list bool)) (label_set : option (list string))
  (spot_mixtures : bool) (cutoff : Q) (return_edges : bool) : result count_result :=
  let '(obs_key, uns_key) := label_keys use_label in
  match spot_indices with
  | None => Raise TypeError (* len(None) *)
  | Some spot_indices =>
    if Nat.eqb (length spot_indices) 0
    then Ok (if return_edges then Edges [] else Count 0)
    else
      label_set ← label_set_or_default adata obs_key label_set;
      let neigh_bool := neigh_bool_or_default adata neigh_bool in
      nb ← neighbourhoods (obs_names adata) neighbours spot_indices;
      let neighbourhood_indices := nb.1 in
      let neighbourhood_bcs := nb.2 in
      edge_list ←
        (if spot_mixtures && dict_has (uns adata) uns_key then
           if all_self_neighbours neighbourhood_indices then
             within_spot_edges adata uns_key spot_indices neigh_bool label_set cutoff
           else
             df ← uns_frame adata uns_key;
             prop_vals ← loc_columns df label_set;
             pair_edges <$>
               get_between_spot_edge_array neighbourhood_bcs neighbourhood_indices
                 neigh_bool true (Some prop_vals) cutoff true
         else
           cell_types ← dict_get (obs adata) obs_key;
           let prop_vals := one_hot cell_types label_set in
           pair_edges <$>
             get_between_spot_edge_array neighbourhood_bcs neighbourhood_indices
               neigh_bool true (Some prop_vals) 0 true);
      Ok (edges_or_count return_edges edge_list)
  end.

(** *** The two counting rules of mixture mode, as the specification words them *)

(** The per-spot rule of the within-spot configuration. *)
Definition short_circuit_count (adata : AnnData) (uns_key : string)
  (spot_indices : list nat) (neigh_bool : list bool) (label_set : list string)
  (cutoff : Q) (return_edges : bool) : result count_result :=
  edge_list ← within_spot_edges adata uns_key spot_indices neigh_bool label_set cutoff;
  Ok (edges_or_count return_edges edge_list).

(** The pairwise edge construction by [get_between_spot_edge_array]. *)
Definition pairwise_count (adata : AnnData) (uns_key : string)
  (nb : list (nat * list nat) * list (barcode * list barcode))
  (neigh_bool : list bool) (label_set : list string)
  (cutoff : Q) (return_edges : bool) : result count_result :=
  df ← uns_frame adata uns_key;
  prop_vals ← loc_columns df label_set;
  edge_list ← pair_edges <$>
    get_between_spot_edge_array nb.2 nb.1 neigh_bool true (Some prop_vals) cutoff true;
  Ok (edges_or_count return_edges edge_list).

(** The invariant of the neighbour sets, as the specification words it: the
    neighbour set of a spot never includes the spot itself, unless the spot is
    its own sole neighbour (the within-spot configuration). *)
Definition neighbour_set_invariant (neighbours : list (list nat)) : Prop :=
  forall i neighs, neighbours !! i = Some neighs -> i ∈ neighs -> neighs = [i].

(** Spot [x] qualifies: it is enumerated, it passes [neigh_bool], and its
    proportion exceeds the cut-off in some label. *)
Definition qualifying (spot_indices : list nat) (neigh_bool : list bool)
  (vals : ndarray Q) (cutoff : Q) (x : nat) : bool :=
  bool_decide (x ∈ spot_indices)
  && default false (neigh_bool !! x)
  && existsb (fun v => Qgtb v cutoff) (default [] (rows vals !! x)).

(** ** het.py: [count] *)

(** The square of the Euclidean distance. *)
Definition sq_dist (p q : Q * Q) : Q :=
  ((p.1 - q.1) * (p.1 - q.1) + (p.2 - q.2) * (p.2 - q.2))%Q.

(** Is [p] within distance [r] of [x]? The tree compares the squared distance
    with [r * r], so that a negative [r] selects what [-r] does. *)
Definition within_ball (x : Q * Q) (r : Q) (p : Q * Q) : bool :=
  Qle_bool (sq_dist p x) (r * r).

(** scipy's [cKDTree.query_ball_point(x, r)]: the positions of the points of
    the tree within distance [r] of [x]. *)

Definition query_ball_point (points : list (Q * Q)) (x : Q * Q) (r : Q) : list nat :=
  np_where (map (within_ball x r) points).

Definition spatial_libraries (adata : AnnData) : result (list (string * spatial_entry)) :=
  v ← dict_get (uns adata) "spatial";
  match v with
  | UnsSpatial libs => Ok libs
  | _ => Raise TypeError
  end.

(** [d[key]] on a dict kept in insertion order. *)
Fixpoint assoc_get {V : Type} (d : list (string * V)) (key : string) : result V :=
  match d with
  | [] => Raise (KeyError key)
  | (k, v) :: rest => if String.eqb key k then Ok v else assoc_get rest key
  end.

(** *** Products of doubles *)

(** The integer nearest to [n / d], ties to the even one ([0 <= n], [0 < d]). *)
Definition round_half_even (n d : Z) : Z :=
  let q := (n / d)%Z in
  let twice := (2 * (n mod d))%Z in
  if (twice <? d)%Z then q
  else if (d <? twice)%Z then (q + 1)%Z
  else if Z.even q then q else (q + 1)%Z.

(** [2 ^ e] for an integer [e]. *)
Definition pow2 (e : Z) : Q :=
  if (0 <=? e)%Z then inject_Z (2 ^ e) else 1 # Z.to_pos (2 ^ (- e)).

(** The exponent [e] with [2 ^ e <= a / d < 2 ^ (e + 1)] ([0 < a], [0 < d]). *)
Definition binade (a d : Z) : Z :=
  let e := (Z.log2 a - Z.log2 d)%Z in
  if (d * 2 ^ Z.max e 0 <=? a * 2 ^ Z.max (- e) 0)%Z then e else (e - 1)%Z.

(** IEEE 754 binary64 rounding of the exact result [x] of an operation: to
    the nearest multiple of the unit in the last place of its binade (53
    significant bits, the least exponent -1074), ties to even. A result beyond
    the largest double is infinite in the program; there is no infinite value
    here, and the statements on such products exclude that case. *)
Definition round64 (x : Q) : Q :=
  let a := Z.abs (Qnum x) in
  let d := Zpos (Qden x) in
  if (a =? 0)%Z then 0
  else
    let e := binade a d in
    let q := Z.max (e - 52) (-1074) in
    let m := round_half_even (a * 2 ^ Z.max (- q) 0) (d * 2 ^ Z.max q 0) in
    Qred (inject_Z (Z.sgn (Qnum x) * m) * pow2 q).

(** [x * y] on doubles. *)
Definition float_mul (x y : Q) : Q := round64 (x * y).



(** Lines 34-43: the default neighbour distance, the two products taken from
    the left on doubles. *)
Definition default_distance (adata : AnnData) (library_id : string) : result Q :=
  libs ← spatial_libraries adata;
  first ← getitem libs 0;
  let scalefactors := scalefactors first.2 in
  diameter ← dict_get scalefactors "spot_diameter_fullres";
  lib ← assoc_get libs library_id;
  scalef ← dict_get scalefactors ("tissue_" +:+ use_quality lib +:+ "_scalef");
  Ok (float_mul (float_mul diameter scalef) 2).

(** Lines 30-43: the distance the between-spot branch works with; [None] is
    returned when [distance == 0] selects the within-spot branch. *)
Definition count_distance (adata : AnnData) (library_id : string)
  (distance : option Q) : result (option Q) :=
  let distance_ne_0 := match distance with
                       | Some d => negb (Qeq_bool d 0)
                       | None => true
                       end in
  if distance_ne_0 then
    let not_distance := match distance with
                        | Some d => Qeq_bool d 0
                        | None => true
                        end in
    if not_distance then d ← default_distance adata library_id; Ok (Some d)
    else Ok distance
  else Ok None.

Definition coordinates (adata : AnnData) : result (list (Q * Q)) :=
  imagerow ← dict_get (obs_num adata) "imagerow";
  imagecol ← dict_get (obs_num adata) "imagecol";
  Ok (zip imagerow imagecol).

(** Lines 52-58: the neighbours of [spot]. *)
Definition count_neighbours (adata : AnnData) (coor : list (Q * Q))
  (distance : Q) (spot : barcode) : result (list barcode) :=
  imagerow ← dict_get (obs_num adata) "imagerow";
  imagecol ← dict_get (obs_num adata) "imagecol";
  pos ← get_loc (obs_names adata) spot;
  r ← getitem imagerow pos;
  c ← getitem imagecol pos;
  let n_index := query_ball_point coor (r, c) distance in
  take_indices (obs_names adata) n_index.

(** The cut-off 0.2 of [count]. *)
Definition het_cutoff : Q := 2 # 10.

Definition use_label_frame (adata : AnnData) (use_label : option string)
  : result (DataFrame Q) :=
  match use_label with
  | Some key => uns_frame adata key
  | None => Raise (KeyError "None")
  end.

(** Lines 59-61: the number of columns in which some neighbour exceeds 0.2. *)
Definition count_cell_types_near (df : DataFrame Q) (neighbours : list barcode)
  : result Z :=
  sel ← loc_rows df neighbours;
  let over := map (map (fun x => Qgtb x het_cutoff)) sel in
  let hits := map (fun j => Nat.ltb 0 (count_true (omap (fun row => row !! j) over)))
                  (seq 0 (length (df_columns df))) in
  Ok (Z.of_nat (count_true hits)).

Definition count_message (use_het : string) : string :=
  "Counts for cluster (cell type) diversity stored into adata.uns['"
  +:+ use_het +:+ "']".

(** [count] returns the dataset and the lines it printed. *)
Definition count (adata : AnnData) (use_label : option string) (use_het : string)
  (verbose : bool) (distance : option Q) : result (AnnData * list string) :=
  libs ← spatial_libraries adata;
  first ← getitem libs 0;
  let library_id := first.1 in
  distance ← count_distance adata library_id distance;
  adata ←
    match distance with
    | Some distance =>
        coor ← coordinates adata;
        counts_ct ← map_result
          (fun spot =>
             neighbours ← count_neighbours adata coor distance spot;
             df ← use_label_frame adata use_label;
             count_cell_types_near df neighbours)
          (obs_names adata);
        Ok (set_obsm adata use_het (ObsmVector counts_ct))
    | None =>
        df ← use_label_frame adata use_label;
        let per_spot := map (fun row => Z.of_nat (count_true
                               (map (fun x => Qgtb x het_cutoff) row)))
                            (df_rows df) in
        Ok (set_obsm adata use_het (ObsmVector per_spot))
    end;
  Ok (adata, if verbose then [count_message use_het] else []).

(** ** het.py: [create_grids] *)

(** [range(a, b)] on integers. *)
Definition zrange (a b : Z) : list Z :=
  map (fun k => (a + Z.of_nat k)%Z) (seq 0 (Z.to_nat (b - a))).

(** Lines 397-422: the neighbouring grids of grid [n]. The matrix [a] is
    [np.arange(num_row * num_col).reshape(num_col, num_row).T], so that
    [a[i][j] = j * num_row + i] and [a.shape = (num_row, num_col)]; the set of
    line 415 is listed without repetitions (its order is not specified). *)
Definition grid_neighbours (num_row num_col radius n : Z) : list Z :=
  let row := (n mod num_row)%Z in
  let col := (n / num_row)%Z in
  let a := fun i j => (j * num_row + i)%Z in
  let nb_matrix :=
    map (fun i =>
           map (fun j =>
                  if (0 <=? i)%Z && (i <? num_row)%Z && (0 <=? j)%Z && (j <? num_col)%Z
                  then a i j else (-1)%Z)
               (zrange (col - radius) (col + 1 + radius)))
        (zrange (row - radius) (row + 1 + radius)) in
  let neighbour := remove_dups (concat nb_matrix) in
  filter (fun grid => negb ((grid =? n)%Z && (0 <? radius)%Z) && negb (grid =? -1)%Z)
         neighbour.

(** The [neighbours] component of the result of [create_grids]; of the grid
    corners, [width] and [height], which the neighbours do not depend on, only
    the exceptions are kept: the largest of no coordinate, and the division by
    a number of columns or rows that is zero. *)
Definition create_grids (adata : AnnData) (num_row num_col radius : Z)
  : result (list (list Z)) :=
  imagerow ← dict_get (obs_num adata) "imagerow";
  imagecol ← dict_get (obs_num adata) "imagecol";
  if Nat.eqb (length imagecol) 0 || Nat.eqb (length imagerow) 0
  then Raise ValueError (* max() of an empty sequence *)
  else if (num_col =? 0)%Z || (num_row =? 0)%Z
  then Raise ZeroDivisionError (* width, height *)
  else
    for_each (zrange 0 (num_row * num_col))
      (fun n neighbours =>
         if (num_row <? 0)%Z then Raise ValueError (* reshape *)
         else Ok (neighbours ++ [grid_neighbours num_row num_col radius n]))
      [].

(** ** Integer matrices of analysis.py *)

(** The value an int64 cell holds after an addition. *)
Definition wrap64 (z : Z) : Z := ((z + 2 ^ 63) mod 2 ^ 64 - 2 ^ 63)%Z.

(** [np.zeros((n, m), dtype=int)] *)
Definition zeros (n m : nat) : ndarray Z := mk_ndarray m (repeat (repeat 0%Z m) n).

Definition rectangularb {A : Type} (a : ndarray A) : bool :=
  forallb (fun r => Nat.eqb (length r) (shape1 a)) (rows a).

(** [a.shape == b.shape] *)
Definition shape_eq {A B : Type} (a : ndarray A) (b : ndarray B) : bool :=
  rectangularb a && rectangularb b
  && Nat.eqb (shape0 a) (shape0 b) && Nat.eqb (shape1 a) (shape1 b).

(** [a += b] on int64 matrices of one shape. A [b] of another shape makes
    the run raise: either here, or when the frame of [b] is built. *)
Definition iadd (a b : ndarray Z) : result (ndarray Z) :=
  if shape_eq a b
  then Ok (mk_ndarray (shape1 a)
             (zip_with (zip_with (fun x y => wrap64 (x + y))) (rows a) (rows b)))
  else Raise ValueError.

(** [a[mask] = 0] on a copy of [a], for a boolean matrix [mask]. *)
Definition zero_where (a : ndarray Z) (mask : ndarray bool) : result (ndarray Z) :=
  if shape_eq a mask
  then Ok (mk_ndarray (shape1 a)
             (zip_with (zip_with (fun x (m : bool) => if m then 0%Z else x))
                (rows a) (rows mask)))
  else Raise IndexError.

(** [a > c] elementwise. *)
Definition gt_scalar (a : ndarray Q) (c : Q) : ndarray bool :=
  mk_ndarray (shape1 a) (map (map (fun x => Qgtb x c)) (rows a)).

(** [a.astype(int)]: truncation towards zero. *)
Definition astype_int (a : ndarray Q) : ndarray Z :=
  mk_ndarray (shape1 a)
    (map (map (fun q => Z.quot (Qnum q) (Zpos (Qden q)))) (rows a)).

(** [pd.DataFrame(a, index=index, columns=columns)] *)
Definition make_frame {A : Type} (a : ndarray A) (index columns : list string)
  : result (DataFrame A) :=
  if rectangularb a && Nat.eqb (shape0 a) (length index)
     && Nat.eqb (shape1 a) (length columns)
  then Ok (mk_DataFrame index columns (rows a))
  else Raise ValueError.

(** [a[:, j]] *)
Definition column {A : Type} (rws : list (list A)) (j : nat) : result (list A) :=
  map_result (fun row => getitem row j) rws.

(** [(a > 0).sum(axis=0)] *)
Definition column_hits (a : ndarray Q) : list nat :=
  map (fun j => count_true (omap (fun row => (fun x => Qgtb x 0) <$> row !! j) (rows a)))
      (seq 0 (shape1 a)).

(** [a[:, mask]] *)
Definition select_columns {A : Type} (a : ndarray A) (mask : list bool)
  : result (ndarray A) :=
  if Nat.eqb (length mask) (shape1 a)
  then Ok (mk_ndarray (count_true mask) (map (fun row => compress row mask) (rows a)))
  else Raise IndexError.

(** [s.split(sep)] for a one-character separator. *)
Fixpoint split_on (sep : ascii) (s : string) : list string :=
  match s with
  | EmptyString => [EmptyString]
  | String c rest =>
      if Ascii.eqb c sep then EmptyString :: split_on sep rest
      else match split_on sep rest with
           | [] => [String c EmptyString]
           | h :: t => String c h :: t
           end
  end.

(** ** analysis.py: [run] *)

(** Lines 72-74: the filter on the scored pairs. *)
Definition lr_bool (lr_scores : ndarray Q) (min_spots : Z) : list bool :=
  map (fun hits => (min_spots <? Z.of_nat hits)%Z) (column_hits lr_scores).

Definition filter_lrs (lr_scores : ndarray Q) (lrs : list string) (min_spots : Z)
  : result (ndarray Q * list string) :=
  let lr_bool := lr_bool lr_scores min_spots in
  lrs ← mask_select lrs lr_bool;
  lr_scores ← select_columns lr_scores lr_bool;
  Ok (lr_scores, lrs).

(** Lines 50-52: the table stored in [adata.obsm['spot_neighbours']]. *)
Definition spot_neighbours_frame (adata : AnnData) (neighbours : list (list nat))
  : result (DataFrame string) :=
  let joined := map (fun x => [String.concat "," (map pretty x)]) neighbours in
  if Nat.eqb (length joined) (length (obs_names adata))
  then Ok (mk_DataFrame (obs_names adata) ["neighbour_indices"] joined)
  else Raise ValueError.

Definition exit_message : string := "Exiting due to lack of valid LR pairs.".

Definition valid_pairs_message (n : nat) : string :=
  "Altogether " +:+ pretty n +:+ " valid L-R pairs".

(** Line 57: is the cell heterogeneity counted? *)
Definition cell_het (adata : AnnData) (use_label : option string) : bool :=
  match use_label with
  | Some key => dict_has (uns adata) key
  | None => false
  end.

Section Run.

(** The functions [run] imports from numba, [.base] and [.permutation];
    their sources are not part of the embedded files. They read the
    dataset; only [perform_spot_testing] returns a new one. What they print
    is not part of the output modelled here. *)
Variable set_num_threads : Z -> result unit.
Variable calc_distance : AnnData -> option Q -> result (option Q).
Variable calc_neighbours : AnnData -> option Q -> bool -> result (list (list nat)).
Variable get_lrs_scores :
  AnnData -> list string -> list (list nat) -> obsm_value -> Q ->
  result (ndarray Q * list string).
Variable perform_spot_testing :
  AnnData -> ndarray Q -> list string -> Z -> list (list nat) -> obsm_value ->
  Q -> string -> Q -> bool -> bool -> result AnnData.

(** What lines 45-71 leave behind: the dataset, the lines printed, the
neighbours, the heterogeneity weights, and the scores with their pairs. *)
Record scoring : Type := mk_scoring {
  sc_adata : AnnData;
  sc_out : list string;
  sc_neighbours : list (list nat);
  sc_het_vals : obsm_value;
  sc_scores : ndarray Q;
  sc_lrs : list string
}.

(** Lines 45-71: neighbours, heterogeneity and scores. *)
Definition run_scoring (adata : AnnData) (lrs : list string)
  (use_label : option string) (use_het : string) (distance : option Q)
  (min_expr : Q) (n_cpus : option Z) (verbose : bool) : result scoring :=
  _ ← match n_cpus with
       | Some n => set_num_threads n
       | None => Ok tt
       end;
  distance ← calc_distance adata distance;
  neighbours ← calc_neighbours adata distance verbose;
  frame ← spot_neighbours_frame adata neighbours;
  let adata := set_obsm adata "spot_neighbours" (ObsmTable frame) in
  let out := if verbose
             then ["Spot neighbour indices stored in adata.obsm['spot_neighbours']"]
             else [] in
  let cell_het := cell_het adata use_label in
  st ← (if cell_het then
          let out := out ++ (if verbose then ["Calculating cell hetereogeneity..."]
                             else []) in
          r ← count adata use_label use_het true distance;
          Ok (r.1, out ++ r.2)
        else Ok (adata, out));
  let adata := st.1 in
  let out := st.2 in
  let het_vals := match obsm adata !! use_het with
                  | Some v => v
                  | None => ObsmVector (repeat 1%Z (length (obs_names adata)))
                  end in
  scored ← get_lrs_scores adata lrs neighbours het_vals min_expr;
  Ok {| sc_adata := adata; sc_out := out; sc_neighbours := neighbours;
        sc_het_vals := het_vals; sc_scores := scored.1; sc_lrs := scored.2 |}.

(** [run] returns nothing; the embedding returns the dataset as the call
leaves it and the lines printed. *)
Definition run (adata : AnnData) (lrs : list string) (use_label : option string)
  (use_het : string) (distance : option Q) (n_pairs : Z) (adj_method : string)
  (pval_adj_cutoff : Q) (min_spots : Z) (min_expr : Q) (save_bg : bool)
  (n_cpus : option Z) (verbose : bool) : result (AnnData * list string) :=
  sc ← run_scoring adata lrs use_label use_het distance min_expr n_cpus verbose;
  kept ← filter_lrs (sc_scores sc) (sc_lrs sc) min_spots;
  let lr_scores := kept.1 in
  let lrs := kept.2 in
  let out := sc_out sc
             ++ (if verbose then [valid_pairs_message (length lrs)] else []) in
  if Nat.eqb (length lrs) 0 then Ok (sc_adata sc, out ++ [exit_message])
  else
    adata ← perform_spot_testing (sc_adata sc) lr_scores lrs n_pairs
               (sc_neighbours sc) (sc_het_vals sc) min_expr adj_method
               pval_adj_cutoff verbose save_bg;
    Ok (adata, out).

End Run.

(** ** analysis.py: [run_cci] *)

Definition no_lr_results : exn :=
  Exception "No LR results testing results found, please run st.tl.cci.run first".

(** [adata.uns['lr_summary']], a table of integer counts. *)
Definition lr_summary_of (adata : AnnData) : result (DataFrame Z) :=
  v ← dict_get (uns adata) "lr_summary";
  match v with
  | UnsCounts df => Ok df
  | _ => Raise TypeError
  end.

(** Lines 137-141. *)
Definition check_prior_results (adata : AnnData) : result unit :=
  let ran_lr := dict_has (uns adata) "lr_summary" in
  ran_sig ← (if negb ran_lr then Ok false
             else df ← lr_summary_of adata;
                  Ok (bool_decide ("n_spots_sig" ∈ df_columns df)));
  if negb ran_lr && negb ran_sig then Raise no_lr_results else Ok tt.

(** Line 167. *)
Definition best_lrs_of (lr_summary : DataFrame Z) (col_i : nat) (min_spots : Z)
  : result (list string) :=
  col ← column (df_rows lr_summary) col_i;
  mask_select (df_index lr_summary) (map (fun v => (min_spots <? v)%Z) col).

(** Line 168: [np.unique] of the split names; rows of unequal length do not
    form an array. *)
Definition lr_genes_of (best_lrs : list string) : result (list string) :=
  let parts := map (split_on "_"%char) best_lrs in
  match parts with
  | [] => Ok []
  | p :: _ =>
      if forallb (fun q => Nat.eqb (length q) (length p)) parts
      then Ok (np_unique (concat parts))
      else Raise ValueError
  end.

(** Line 169: [adata[:, lr_genes].to_df()]. With no pair to test,
    [np.unique([])] is an empty array of floats, which cannot index the
    variables. *)
Definition expression_frame (adata : AnnData) (genes : list string)
  : result (DataFrame Q) :=
  match genes with
  | [] => Raise IndexError
  | _ =>
      cols ← map_result (get_loc (var_names adata)) genes;
      sel ← map_result (fun row => take_indices row cols) (X adata);
      Ok (mk_DataFrame (obs_names adata) genes sel)
  end.

(** [df.loc[:, label].values > 0] *)
Definition expressed (df : DataFrame Q) (label : string) : result (list bool) :=
  pos ← get_loc (df_columns df) label;
  col ← column (df_rows df) pos;
  Ok (map (fun x => Qgtb x 0) col).

Definition obsm_array (adata : AnnData) (key : string) : result (ndarray Q) :=
  v ← dict_get (obsm adata) key;
  match v with
  | ObsmArray a => Ok a
  | _ => Raise TypeError
  end.

Definition fallback_warning (uns_key : string) : string :=
  "Warning: specified spot_mixtures but no deconvolution data in adata.uns['"
  +:+ uns_key +:+ "']." +:+ String (ascii_of_nat 10) "Falling back to discrete mode.".

Section RunCci.

(** The state of numpy's global random generator. *)
Variable rng : Type.

(** The functions [run_cci] imports from [.het] that are not defined in the
    embedded het.py. *)
Variable get_data_for_counting :
  AnnData -> string -> bool -> list string ->
  result (list barcode * ndarray Q * list (barcode * list barcode)
          * list (nat * list nat)).
Variable get_interaction_matrix :
  ndarray Q -> list (barcode * list barcode) -> list (nat * list nat) ->
  list string -> list bool -> list bool -> list bool -> Q -> result (ndarray Q).
Variable get_interaction_pvals :
  ndarray Z -> Z -> ndarray Q -> list (barcode * list barcode) ->
  list (nat * list nat) -> list string -> list bool -> list bool -> list bool ->
  Q -> rng -> result (ndarray Q * rng).

(** The variables the loop of lines 178-205 updates. *)
Record cci_state : Type := mk_cci_state {
  all_matrix : ndarray Z;
  raw_matrix : ndarray Z;
  per_lr_cci : gmap string (DataFrame Z);
  per_lr_cci_pvals : gmap string (DataFrame Q);
  per_lr_cci_raw : gmap string (DataFrame Z);
  generator : rng
}.

(** Lines 179-193: the count matrix and the p-values of one LR pair. *)
Definition lr_matrices (adata : AnnData) (lr_expr : DataFrame Q) (col : string)
  (cell_data : ndarray Q) (neighbourhood_bcs : list (barcode * list barcode))
  (neighbourhood_indices : list (nat * list nat)) (all_set : list string)
  (cell_prop_cutoff : Q) (n_perms : Z) (best_lr : string) (g : rng)
  : result (ndarray Z * ndarray Q * rng) :=
  match split_on "_"%char best_lr with
  | [l; r] =>
      L_bool ← expressed lr_expr l;
      R_bool ← expressed lr_expr r;
      lr_summary ← lr_summary_of adata;
      lr_index ← match index_of best_lr (df_index lr_summary) with
                  | Some i => Ok i
                  | None => Raise IndexError
                  end;
      scores ← obsm_array adata col;
      sig_col ← column (rows scores) lr_index;
      let sig_bool := map (fun x => Qgtb x 0) sig_col in
      m ← get_interaction_matrix cell_data neighbourhood_bcs neighbourhood_indices
             all_set sig_bool L_bool R_bool cell_prop_cutoff;
      let int_matrix := astype_int m in
      pv ← get_interaction_pvals int_matrix n_perms cell_data neighbourhood_bcs
              neighbourhood_indices all_set sig_bool L_bool R_bool
              cell_prop_cutoff g;
      Ok (int_matrix, pv.1, pv.2)
  | _ => Raise ValueError
  end.

(** Lines 179-205: one turn of the loop. *)
Definition cci_step (adata : AnnData) (lr_expr : DataFrame Q) (col : string)
  (cell_data : ndarray Q) (neighbourhood_bcs : list (barcode * list barcode))
  (neighbourhood_indices : list (nat * list nat)) (all_set : list string)
  (cell_prop_cutoff p_cutoff : Q) (n_perms : Z)
  (best_lr : string) (st : cci_state) : result cci_state :=
  ms ← lr_matrices adata lr_expr col cell_data neighbourhood_bcs
          neighbourhood_indices all_set cell_prop_cutoff n_perms best_lr
          (generator st);
  let int_matrix := ms.1.1 in
  let int_pvals := ms.1.2 in
  sig_int_matrix ← zero_where int_matrix (gt_scalar int_pvals p_cutoff);
  raw_matrix ← iadd (raw_matrix st) int_matrix;
  all_matrix ← iadd (all_matrix st) sig_int_matrix;
  int_df ← make_frame int_matrix all_set all_set;
  sig_int_df ← make_frame sig_int_matrix all_set all_set;
  pval_df ← make_frame int_pvals all_set all_set;
  Ok {| all_matrix := all_matrix;
        raw_matrix := raw_matrix;
        per_lr_cci := <[best_lr:=sig_int_df]> (per_lr_cci st);
        per_lr_cci_pvals := <[best_lr:=pval_df]> (per_lr_cci_pvals st);
        per_lr_cci_raw := <[best_lr:=int_df]> (per_lr_cci_raw st);
        generator := ms.2 |}.

(** [run_cci] returns nothing; the embedding returns the dataset as the
    call leaves it, the generator state and the lines printed. *)
Definition run_cci (adata : AnnData) (use_label : string) (spot_mixtures : bool)
  (min_spots : Z) (sig_spots : bool) (cell_prop_cutoff p_cutoff : Q)
  (n_perms : Z) (verbose : bool) (g : rng)
  : result (AnnData * rng * list string) :=
  _ ← check_prior_results adata;
  let '(obs_key, uns_key) := label_keys use_label in
  tissue_types ← dict_get (obs adata) obs_key;
  let all_set := np_unique tissue_types in
  let mix_mode := spot_mixtures && dict_has (uns adata) uns_key in
  let out := if negb mix_mode && spot_mixtures then [fallback_warning uns_key]
             else [] in
  data ← get_data_for_counting adata use_label mix_mode all_set;
  let cell_data := data.1.1.2 in
  let neighbourhood_bcs := data.1.2 in
  let neighbourhood_indices := data.2 in
  lr_summary ← lr_summary_of adata;
  let col_i := if sig_spots then 1 else 0 in
  let col := if sig_spots then "lr_sig_scores" else "lr_scores" in
  best_lrs ← best_lrs_of lr_summary col_i min_spots;
  lr_genes ← lr_genes_of best_lrs;
  lr_expr ← expression_frame adata lr_genes;
  let n := length all_set in
  st ← for_each best_lrs
          (cci_step adata lr_expr col cell_data neighbourhood_bcs
             neighbourhood_indices all_set cell_prop_cutoff p_cutoff n_perms)
          {| all_matrix := zeros n n; raw_matrix := zeros n n;
             per_lr_cci := ∅; per_lr_cci_pvals := ∅; per_lr_cci_raw := ∅;
             generator := g |};
  all_df ← make_frame (all_matrix st) all_set all_set;
  raw_df ← make_frame (raw_matrix st) all_set all_set;
  let adata := set_uns adata ("lr_cci_" +:+ use_label) (UnsCounts all_df) in
  let adata := set_uns adata ("lr_cci_raw_" +:+ use_label) (UnsCounts raw_df) in
  let adata := set_uns adata ("per_lr_cci_" +:+ use_label)
                 (UnsCountsDict (per_lr_cci st)) in
  let adata := set_uns adata ("per_lr_cci_pvals_" +:+ use_label)
                 (UnsFrameDict (per_lr_cci_pvals st)) in
  let adata := set_uns adata ("per_lr_cci_raw_" +:+ use_label)
                 (UnsCountsDict (per_lr_cci_raw st)) in
  let out := out ++
    (if verbose then
       ["Significant counts of cci interactions for all LR pairs in lr_cci_"
        +:+ use_label;
        "Significant counts of cci interactions for each LR pair stored in dictionary per_lr_cci_"
        +:+ use_label]
     else []) in
  Ok (adata, generator st, out).

(** *** The per-pair matrices and their sums, as the specification words them *)

(** The matrices of the tested pairs, in the order they are tested in: the
raw count matrix and the p-values of each pair. *)
Fixpoint cci_tables (adata : AnnData) (lr_expr : DataFrame Q) (col : string)
  (cell_data : ndarray Q) (neighbourhood_bcs : list (barcode * list barcode))
  (neighbourhood_indices : list (nat * list nat)) (all_set : list string)
  (cell_prop_cutoff : Q) (n_perms : Z) (best_lrs : list string) (g : rng)
  : result (list (string * ndarray Z * ndarray Q)) :=
  match best_lrs with
  | [] => Ok []
  | best_lr :: rest =>
      ms ← lr_matrices adata lr_expr col cell_data neighbourhood_bcs
              neighbourhood_indices all_set cell_prop_cutoff n_perms best_lr g;
      tl ← cci_tables adata lr_expr col cell_data neighbourhood_bcs
              neighbourhood_indices all_set cell_prop_cutoff n_perms rest ms.2;
      Ok ((best_lr, ms.1.1, ms.1.2) :: tl)
  end.

(** The label set and the per-pair matrices of a call of [run_cci]. *)
Definition run_cci_tables (adata : AnnData) (use_label : string)
  (spot_mixtures : bool) (min_spots : Z) (sig_spots : bool)
  (cell_prop_cutoff : Q) (n_perms : Z) (g : rng)
  : result (list string * list (string * ndarray Z * ndarray Q)) :=
  let '(obs_key, uns_key) := label_keys use_label in
  tissue_types ← dict_get (obs adata) obs_key;
  let all_set := np_unique tissue_types in
  let mix_mode := spot_mixtures && dict_has (uns adata) uns_key in
  data ← get_data_for_counting adata use_label mix_mode all_set;
  lr_summary ← lr_summary_of adata;
  best_lrs ← best_lrs_of lr_summary (if sig_spots then 1 else 0) min_spots;
  lr_genes ← lr_genes_of best_lrs;
  lr_expr ← expression_frame adata lr_genes;
  tables ← cci_tables adata lr_expr
              (if sig_spots then "lr_sig_scores" else "lr_scores")
              data.1.1.2 data.1.2 data.2 all_set cell_prop_cutoff n_perms best_lrs g;
  Ok (all_set, tables).

End RunCci.

(** The entry [(i, j)], 0 outside the matrix. *)
Definition cell (i j : nat) (m : ndarray Z) : Z :=
  default 0%Z (row ← rows m !! i; row !! j).

(** The elementwise sum of [n] by [n] matrices, in int64 cells. *)
Definition elementwise_sum (n : nat) (ms : list (ndarray Z)) : ndarray Z :=
  mk_ndarray n
    (map (fun i => map (fun j => wrap64 (foldr Z.add 0%Z (map (cell i j) ms)))
                     (seq 0 n))
       (seq 0 n)).

(** The significant matrix of a pair: the raw matrix with the cells whose
    p-value exceeds [p_cutoff] set to zero. *)
Definition significant_matrix (p_cutoff : Q) (int_matrix : ndarray Z)
  (int_pvals : ndarray Q) : ndarray Z :=
  mk_ndarray (shape1 int_matrix)
    (zip_with (zip_with (fun x p => if Qgtb p p_cutoff then 0%Z else x))
       (rows int_matrix) (rows int_pvals)).

(** The dict that assigning the frames pair by pair leaves. *)
Definition frames_by_pair {A : Type} (all_set : list string)
  (ms : list (string * ndarray A)) : gmap string (DataFrame A) :=
  fold_left (fun d m => <[m.1:=mk_DataFrame all_set all_set (rows m.2)]> d) ms ∅.

(** *** The destinations of a neighbourhood, as the specification words them *)

(** Does spot [k] exceed [cutoff] in every column of [cell_data]? *)
Definition exceeds_in_all (cell_data : ndarray Q) (cutoff : Q) (k : nat) : bool :=
  match rows cell_data !! k with
  | Some row => forallb (fun x => Qgtb x cutoff) row
  | None => false
  end.

(** The neighbours that satisfy the neighbour predicate and exceed the
    cut-off in all categories jointly, in the order of the neighbour list. *)
Definition retained_destinations (neigh_bool : list bool) (cell_data : ndarray Q)
  (cutoff : Q) (neigh_bcs : list barcode) (neigh_indices : list nat)
  : list barcode :=
  omap (fun p : barcode * nat =>
          if default false (neigh_bool !! p.2) && exceeds_in_all cell_data cutoff p.2
          then Some p.1 else None)
       (zip neigh_bcs neigh_indices).

(** *** The unique edges, as the specification words them *)

(** Are two candidate edges the same edge under the direction semantics? *)
Definition same_pair (undirected : bool) (e1 e2 : barcode * barcode) : bool :=
  same_edge undirected e1.1 e1.2 e2.1 e2.2.

(** The candidates that are the first occurrence of their duplicate class:
    candidate [k] stays when no earlier candidate is the same edge. *)
Definition first_occurrences (undirected : bool) (cands : list (barcode * barcode))
  : list (barcode * barcode) :=
  omap (fun k =>
          e ← cands !! k;
          if existsb (fun e' => same_pair undirected e' e) (take k cands)
          then None else Some e)
       (seq 0 (length cands)).

(** Candidate [i] of the buffer; the empty pair outside the buffer. *)
Definition candidate (buf : edge_buffer) (i : nat) : barcode * barcode :=
  (default "" (edge_starts buf !! i), default "" (edge_ends buf !! i)).
Arguments candidate : simpl never.

(** Is candidate [j] the same edge as one of the candidates [i < k], [i <= j]?
    This is the value of [edge_added[j]] after [k] turns of the outer loop. *)
Fixpoint dup_before (undirected : bool) (buf : edge_buffer) (k j : nat) : bool :=
  match k with
  | 0 => false
  | S k' =>
      dup_before undirected buf k' j
      || (Nat.leb k' j && same_pair undirected (candidate buf k') (candidate buf j))
  end.

(** The two lists of the buffer grow together with the counter. *)
Definition buffer_ok (buf : edge_buffer) : Prop :=
  length (edge_starts buf) = n_edges buf /\ length (edge_ends buf) = n_edges buf.

(** An [n] by [n] array. *)
Definition square {A : Type} (n : nat) (a : ndarray A) : Prop :=
  rectangularb a = true /\ shape0 a = n /\ shape1 a = n.

(** The values an int64 cell can hold. *)
Definition int64_range (z : Z) : Prop := (- 2 ^ 63 <= z < 2 ^ 63)%Z.


(** ** Further definitions: edges as a buffer *)

(** The buffer that holds the edges of an edge list, in order. *)
Definition buffer_of_edges (edges : list (barcode * barcode)) : edge_buffer :=
  {| edge_starts := map fst edges;
     edge_ends := map snd edges;
     n_edges := length edges |}.

(** A candidate edge links a spot of the neighbourhood list to one of its
    listed neighbours, at a position whose spot passes [neigh_bool]. *)
Definition links_neighbour (neighbourhood_bcs : list (barcode * list barcode))
  (neighbourhood_indices : list (nat * list nat)) (neigh_bool : list bool)
  (e : barcode * barcode) : Prop :=
  exists (i : nat) (neigh_bcs : list barcode) (indices : nat * list nat) (p k : nat),
    neighbourhood_bcs !! i = Some (e.1, neigh_bcs)
    /\ neighbourhood_indices !! i = Some indices
    /\ neigh_bcs !! p = Some e.2
    /\ indices.2 !! p = Some k
    /\ neigh_bool !! k = Some true.

(** ** Further definitions: the pairs [run_cci] tests *)

(** Lines 165-167: the LR pair [name] is a row label of [lr_summary] whose
    count in column [col_i] is greater than [min_spots]. *)
Definition tested_pair (lr_summary : DataFrame Z) (col_i : nat) (min_spots : Z)
  (name : string) : Prop :=
  exists (j : nat) (row : list Z) (v : Z),
    df_index lr_summary !! j = Some name
    /\ df_rows lr_summary !! j = Some row
    /\ row !! col_i = Some v
    /\ (min_spots < v)%Z.

(** The dict [d'] is [d] with the keys [names] assigned, every assigned value
    satisfying [P]. *)
Definition extended_by {V : Type} (P : V -> Prop) (names : list string)
  (d d' : gmap string V) : Prop :=
  forall name,
    (is_Some (d' !! name) <-> is_Some (d !! name) \/ name ∈ names)
    /\ (forall v, d' !! name = Some v -> d !! name = Some v \/ P v).

(** A frame with the labels [labels] on both axes and a row of cells for
    each. *)
Definition labelled_by {A : Type} (labels : list string) (df : DataFrame A) : Prop :=
  df_index df = labels /\ df_columns df = labels
  /\ length (df_rows df) = length labels
  /\ Forall (fun row => length row = length labels) (df_rows df).

(** ** analysis.py: [load_lrs] *)

(** The argument [names]: [None], one name, or a list of names. *)
Inductive names_arg : Type :=
| NoNames
| OneName (name : string)
| NameList (names : list string).

(** Lines 99-102. *)
Definition database_names (names : names_arg) : list string :=
  match names with
  | NoNames => ["connectomeDB2020_lit"]
  | OneName name => [name]
  | NameList names => names
  end.

(** Line 105: the file of a database, below the directory of the module. *)
Definition database_file (path name : string) : string :=
  path +:+ "/databases/" +:+ name +:+ ".txt".

(** Line 109: the name of a pair. *)
Definition lr_name (l r : string) : string := l +:+ "_" +:+ r.

(** Line 109: the names of the pairs of one table. *)
Definition table_lrs (db : list (list string)) : result (list string) :=
  map_result (fun i => row ← getitem db i;
                       l ← getitem row 0;
                       r ← getitem row 1;
                       Ok (lr_name l r))
    (range 0 (length db)).

Section LoadLrs.

(** The directory of the module, and [pd.read_csv(file, sep='\t').values] with
    the cells as they are formatted into a string. *)
Variable path : string.
Variable read_csv : string -> result (list (list string)).

Definition load_lrs (names : names_arg) : result (list string) :=
  let names := database_names names in
  dbs ← map_result (fun name => read_csv (database_file path name)) names;
  lrs_full ← for_each dbs
                (fun db lrs_full => lrs ← table_lrs db; Ok (lrs_full ++ lrs))
                [];
  Ok (np_unique lrs_full).

End LoadLrs.

(** Strictly increasing in the order of [String.compare]. *)
Fixpoint strictly_sorted (l : list string) : Prop :=
  match l with
  | [] => True
  | x :: rest => Forall (fun y => String.compare x y = Lt) rest /\ strictly_sorted rest
  end.

(** Does the character occur in the string? *)
Fixpoint contains_char (c : ascii) (s : string) : bool :=
  match s with
  | EmptyString => false
  | String c' rest => Ascii.eqb c' c || contains_char c rest
  end.

(** ** Further definitions: the destinations of a neighbourhood *)

(** The barcode [bc] is listed among [neigh_bcs] at a position whose spot
    passes [neigh_bool] and exceeds [cutoff] in every column of [cell_data]
    (lines 152-170: the sum of the hits of the row equals the number of
    columns). *)
Definition interacting (neigh_bool : list bool) (cell_data : ndarray Q) (cutoff : Q)
  (neigh_bcs : list barcode) (neigh_indices : list nat) (bc : barcode) : Prop :=
  exists (p k : nat) (row : list Q),
    neigh_bcs !! p = Some bc
    /\ neigh_indices !! p = Some k
    /\ neigh_bool !! k = Some true
    /\ rows cell_data !! k = Some row
    /\ count_true (map (fun x => Qgtb x cutoff) row) = shape1 cell_data.

(** The candidate edges of a neighbourhood list: from the spot of a
    neighbourhood to each of its interacting neighbours. *)
Definition candidate_edge (neighbourhood_bcs : list (barcode * list barcode))
  (neighbourhood_indices : list (nat * list nat)) (neigh_bool : list bool)
  (cell_data : ndarray Q) (cutoff : Q) (bound : nat) (e : barcode * barcode) : Prop :=
  exists (i : nat) (neigh_bcs : list barcode) (indices : nat * list nat),
    i < bound
    /\ neighbourhood_bcs !! i = Some (e.1, neigh_bcs)
    /\ neighbourhood_indices !! i = Some indices
    /\ interacting neigh_bool cell_data cutoff neigh_bcs indices.2 e.2.

(** ** Further definitions: what an edge of [count_core] stands for *)

(** Spot [s] is one of the spots counted from, spot [d] is listed among its
    neighbours, passes [neigh_bool] and carries the label. *)
Definition labelled_link (adata : AnnData) (neighbours : list (list nat))
  (spot_indices : list nat) (neigh_bool : list bool) (cell_types : list string)
  (label : string) (s d : barcode) : Prop :=
  exists (i k : nat) (neighs : list nat),
    i ∈ spot_indices
    /\ obs_names adata !! i = Some s
    /\ neighbours !! i = Some neighs
    /\ k ∈ neighs
    /\ obs_names adata !! k = Some d
    /\ neigh_bool !! k = Some true
    /\ cell_types !! k = Some label.

(** ** het.py: [count_interactions] and [get_interactions] *)

(** [enumerate(l)] *)
Definition enumerate {A : Type} (l : list A) : list (nat * A) :=
  zip (seq 0 (length l)) l.

(** [sub in s] on strings. *)
Fixpoint is_substring (sub s : string) : bool :=
  String.prefix sub s
  || match s with
     | EmptyString => false
     | String _ rest => is_substring sub rest
     end.

(** A boolean array, or the plain [False] that comparing [None] with a label
    gives. *)
Inductive mask_value : Type :=
| ScalarMask (b : bool)
| ArrayMask (m : list bool).

(** [np.logical_and(a, b)]: a scalar and a one-element array are broadcast,
    other arrays of different lengths raise. *)
Definition logical_and (a : mask_value) (b : list bool) : result (list bool) :=
  match a with
  | ScalarMask x => Ok (map (andb x) b)
  | ArrayMask a =>
      if Nat.eqb (length a) (length b) then Ok (zip_with andb a b)
      else if Nat.eqb (length a) 1 then Ok (map (andb (default false (head a))) b)
      else if Nat.eqb (length b) 1
           then Ok (map (fun x => x && default false (head b)) a)
           else Raise ValueError
  end.

(** Lines 308-313 and 342-347: the spots that have cell type [cell_A].
    [cell_type_props] and [cell_prop_cutoff] are read in mixture mode only and
    are taken as given. *)
Definition source_mask (mix_mode : bool) (tissue_types : option (list string))
  (cell_type_props : DataFrame Q) (cell_prop_cutoff : Q) (cell_A : string)
  : result mask_value :=
  if negb mix_mode then
    Ok (match tissue_types with
        | Some tissue_types =>
            ArrayMask (map (fun t => String.eqb t cell_A) tissue_types)
        | None => ScalarMask false
        end)
  else
    col_A ← getitem (List.filter (fun col => is_substring cell_A col)
                       (df_columns cell_type_props)) 0;
    pos ← get_loc (df_columns cell_type_props) col_A;
    vals ← column (df_rows cell_type_props) pos;
    Ok (ArrayMask (map (fun x => Qgtb x cell_prop_cutoff) vals)).

(** Lines 315-317 and 349-351: [A_gene1_sig_indices]. *)
Definition source_indices (mix_mode : bool) (tissue_types : option (list string))
  (cell_type_props : DataFrame Q) (cell_prop_cutoff : Q)
  (sig_bool gene1_bool : list bool) (cell_A : string) : result (list nat) :=
  A_bool ← source_mask mix_mode tissue_types cell_type_props cell_prop_cutoff cell_A;
  A_gene1_bool ← logical_and A_bool gene1_bool;
  A_gene1_sig_bool ← logical_and (ArrayMask A_gene1_bool) sig_bool;
  Ok (np_where A_gene1_sig_bool).

(** [m[i, j] = v] *)
Definition set_cell (i j : nat) (v : Z) (m : ndarray Z) : ndarray Z :=
  mk_ndarray (shape1 m) (alter (fun row => <[j:=v]> row) i (rows m)).

(** [m.transpose()] *)
Definition transpose (m : ndarray Z) : ndarray Z :=
  mk_ndarray (shape0 m)
    (map (fun j => map (fun row => default 0%Z (row !! j)) (rows m))
       (seq 0 (shape1 m))).

(** The [cutoff] of [count_core] when the caller passes none. *)
Definition default_cutoff : Q := 2 # 10.

Definition count_interactions (adata : AnnData) (all_set : list string)
  (mix_mode : bool) (neighbours : list (list nat)) (obs_key : string)
  (sig_bool gene1_bool gene2_bool : list bool)
  (tissue_types : option (list string)) (cell_type_props : DataFrame Q)
  (cell_prop_cutoff : Q) (trans_dir : bool) : result (ndarray Z) :=
  int_matrix ←
    for_each (enumerate all_set)
      (fun '(i, cell_A) int_matrix =>
         A_gene1_sig_indices ←
           source_indices mix_mode tissue_types cell_type_props cell_prop_cutoff
             sig_bool gene1_bool cell_A;
         for_each (enumerate all_set)
           (fun '(j, cell_B) int_matrix =>
              cellA_cellB_counts ←
                count_core adata obs_key neighbours (Some A_gene1_sig_indices)
                  (Some gene2_bool) (Some [cell_B]) mix_mode default_cutoff false;
              match cellA_cellB_counts with
              | Count c => Ok (set_cell i j (Z.of_nat c) int_matrix)
              | Edges _ => Raise TypeError (* not reached: a count is asked for *)
              end)
           int_matrix)
      (zeros (length all_set) (length all_set));
  Ok (if trans_dir then int_matrix else transpose int_matrix).

Definition get_interactions (adata : AnnData) (all_set : list string)
  (mix_mode : bool) (neighbours : list (list nat)) (obs_key : string)
  (sig_bool gene1_bool gene2_bool : list bool) (spot_mixtures : bool)
  (tissue_types : option (list string)) (cell_type_props : DataFrame Q)
  (cell_prop_cutoff : Q) (trans_dir : bool)
  : result (gmap string (gmap string (list edge))) :=
  for_each (enumerate all_set)
    (fun '(i, cell_A) (interaction_edges : gmap string (gmap string (list edge))) =>
       A_gene1_sig_indices ←
         source_indices mix_mode tissue_types cell_type_props cell_prop_cutoff
           sig_bool gene1_bool cell_A;
       let interaction_edges :=
         if trans_dir then <[cell_A:=∅]> interaction_edges else interaction_edges in
       for_each (enumerate all_set)
         (fun '(j, cell_B) (interaction_edges : gmap string (gmap string (list edge))) =>
            edges_list ←
              count_core adata obs_key neighbours (Some A_gene1_sig_indices)
                (Some gene2_bool) (Some [cell_B]) spot_mixtures default_cutoff true;
            match edges_list with
            | Edges edges_list =>
                if trans_dir then
                  inner ← dict_get interaction_edges cell_A;
                  Ok (<[cell_A:=<[cell_B:=edges_list]> inner]> interaction_edges)
                else
                  let interaction_edges :=
                    if dict_has interaction_edges cell_B then interaction_edges
                    else <[cell_B:=∅]> interaction_edges in
                  inner ← dict_get interaction_edges cell_B;
                  Ok (<[cell_B:=<[cell_A:=edges_list]> inner]> interaction_edges)
            | Count _ => Raise TypeError (* not reached: the edges are asked for *)
            end)
         interaction_edges)
    ∅.

(** The entry of the nested dict under [outer] and then [inner]. *)
Definition edges_under (d : gmap string (gmap string (list edge)))
  (outer inner : string) : option (list edge) :=
  row ← d !! outer; row !! inner.
(** * Datasets of the examples *)

(** The scores of three spots for the pairs [A_B] and [C_D]. *)
Definition scores_at_threshold : ndarray Q :=
  mk_ndarray 2 [[1; 1]; [1; 1]; [0; 1]]%Q.

(** A dataset with two spots whose LR summary has the column [n_spots]
    only: the scores are stored, the significance test has not been run. *)
Definition adata_unsigned : AnnData :=
  {| obs_names := ["s0"; "s1"];
     var_names := ["A"; "B"];
     X := [[1; 0]; [0; 1]]%Q;
     obs := {[ "cell_type" := ["t1"; "t2"] ]};
     obs_num := ∅;
     uns := {[ "lr_summary" :=
                 UnsCounts (mk_DataFrame ["A_B"] ["n_spots"] [[2%Z]]) ]};
     obsm := {[ "lr_scores" := ObsmArray (mk_ndarray 1 [[1]; [1]]%Q) ]} |}.


(** The metadata of one library. *)
Definition lib_entry : spatial_entry :=
  {| scalefactors := <["spot_diameter_fullres" := 3%Q]>
                       (<["tissue_hires_scalef" := (1 # 2)%Q]> ∅);
     use_quality := "hires" |}.

(** Two spots one pixel apart, with the metadata of one library. *)
Definition adata_pair : AnnData :=
  {| obs_names := ["s0"; "s1"];
     var_names := [];
     X := [[]; []];
     obs := ∅;
     obs_num := <["imagerow" := [0; 0]%Q]> (<["imagecol" := [0; 1]%Q]> ∅);
     uns := {[ "spatial" :=
                 UnsSpatial [("lib", lib_entry)] ]};
     obsm := ∅ |}.

(** Three spots [a], [b], [c]; the neighbourhoods of [a] and [b]. *)
Definition bcs_ab : list (barcode * list barcode) :=
  [("a", ["b"; "c"]); ("b", ["a"; "c"])].

Definition indices_ab : list (nat * list nat) := [(0, [1; 2]); (1, [0; 2])].

(** The candidate edges of these neighbourhoods when every neighbour counts. *)
Definition buffer_ab : edge_buffer :=
  {| edge_starts := ["a"; "a"; "b"; "b"];
     edge_ends := ["b"; "c"; "a"; "c"];
     n_edges := 4 |}.

(** Proportions of two cell types in the three spots. *)
Definition props_abc : ndarray Q :=
  mk_ndarray 2 [[1; 1]; [5 # 10; 1 # 10]; [5 # 10; 5 # 10]]%Q.

(** Two spots with the proportion of one cell type [T], stored under the
    key [deconv]. *)
Definition adata_mix : AnnData :=
  {| obs_names := ["s0"; "s1"];
     var_names := [];
     X := [[]; []];
     obs := ∅;
     obs_num := ∅;
     uns := {[ "deconv" :=
                 UnsFrame (mk_DataFrame ["s0"; "s1"] ["T"]
                             [[5 # 10]; [5 # 10]]%Q) ]};
     obsm := ∅ |}.

(** Stand-ins for the functions [run] imports, for the examples: one thread
    setting that succeeds, the distance as given, the two spots of
    [adata_pair] as each other's neighbour, a score of zero in every spot for
    every pair (a ligand expressed nowhere), and a test that stores nothing. *)
Definition threads_ok : Z -> result unit := fun _ => Ok tt.

Definition distance_as_given : AnnData -> option Q -> result (option Q) :=
  fun _ distance => Ok distance.

Definition neighbours_of_pair : AnnData -> option Q -> bool -> result (list (list nat)) :=
  fun _ _ _ => Ok [[1]; [0]].

Definition zero_scores :
  AnnData -> list string -> list (list nat) -> obsm_value -> Q ->
  result (ndarray Q * list string) :=
  fun adata lrs _ _ _ =>
    Ok (mk_ndarray (length lrs) (map (fun _ => map (fun _ => 0%Q) lrs) (obs_names adata)),
        lrs).

Definition testing_stores_nothing :
  AnnData -> ndarray Q -> list string -> Z -> list (list nat) -> obsm_value ->
  Q -> string -> Q -> bool -> bool -> result AnnData :=
  fun adata _ _ _ _ _ _ _ _ _ _ => Ok adata.

(** [adata_pair] after lines 45-71 of [run] with these functions. *)
Definition scoring_pair : scoring :=
  {| sc_adata :=
       set_obsm adata_pair "spot_neighbours"
         (ObsmTable (mk_DataFrame ["s0"; "s1"] ["neighbour_indices"] [["1"]; ["0"]]));
     sc_out := [];
     sc_neighbours := [[1]; [0]];
     sc_het_vals := ObsmVector [1; 1]%Z;
     sc_scores := mk_ndarray 1 [[0]; [0]]%Q;
     sc_lrs := ["A_B"] |}.

(** Two spots of two cell types, three genes, and the summary and the
    significant scores of the pairs [A_B] and [A_C] as [run] leaves them. *)
Definition adata_cci : AnnData :=
  {| obs_names := ["s0"; "s1"];
     var_names := ["A"; "B"; "C"];
     X := [[1; 1; 0]; [1; 0; 1]]%Q;
     obs := {[ "cell_type" := ["t1"; "t2"] ]};
     obs_num := ∅;
     uns := {[ "lr_summary" :=
                 UnsCounts (mk_DataFrame ["A_B"; "A_C"] ["n_spots"; "n_spots_sig"]
                              [[5; 4]; [6; 5]]%Z) ]};
     obsm := {[ "lr_sig_scores" := ObsmArray (mk_ndarray 2 [[1; 0]; [1; 1]]%Q) ]} |}.

(** Stand-ins for the functions [run_cci] imports, for the examples: the
    generator state is a counter; every cell of the count matrix is the number
    of significant spots that express both genes; the p-values alternate
    between 1/100 and 1/2 over the cells, starting from the counter. *)
Definition counting_data_stub :
  AnnData -> string -> bool -> list string ->
  result (list barcode * ndarray Q * list (barcode * list barcode)
          * list (nat * list nat)) :=
  fun adata _ _ _ => Ok (obs_names adata, mk_ndarray 0 [], [], []).

Definition matrix_stub :
  ndarray Q -> list (barcode * list barcode) -> list (nat * list nat) ->
  list string -> list bool -> list bool -> list bool -> Q -> result (ndarray Q) :=
  fun _ _ _ all_set sig_bool L_bool R_bool _ =>
    let c := inject_Z (Z.of_nat (count_true
               (zip_with andb sig_bool (zip_with andb L_bool R_bool)))) in
    Ok (mk_ndarray (length all_set)
          (map (fun _ => map (fun _ => c) all_set) all_set)).

Definition pvals_stub :
  ndarray Z -> Z -> ndarray Q -> list (barcode * list barcode) ->
  list (nat * list nat) -> list string -> list bool -> list bool -> list bool ->
  Q -> nat -> result (ndarray Q * nat) :=
  fun _ _ _ _ _ all_set _ _ _ _ g =>
    let n := length all_set in
    Ok (mk_ndarray n
          (map (fun i => map (fun j => if Nat.even (i + j + g) then (1 # 100)%Q
                                        else (1 # 2)%Q)
                            (seq 0 n))
             (seq 0 n)),
        S g).

Definition frame_t {A : Type} (rws : list (list A)) : DataFrame A :=
  mk_DataFrame ["t1"; "t2"] ["t1"; "t2"] rws.

(** [adata_cci] after [run_cci] with these functions. *)
Definition adata_cci_after : AnnData :=
  set_uns
    (set_uns
       (set_uns
          (set_uns
             (set_uns adata_cci "lr_cci_cell_type"
                (UnsCounts (frame_t [[1; 1]; [1; 1]]%Z)))
             "lr_cci_raw_cell_type" (UnsCounts (frame_t [[2; 2]; [2; 2]]%Z)))
          "per_lr_cci_cell_type"
          (UnsCountsDict
             (<["A_C" := frame_t [[0; 1]; [1; 0]]%Z]>
                (<["A_B" := frame_t [[1; 0]; [0; 1]]%Z]> ∅))))
       "per_lr_cci_pvals_cell_type"
       (UnsFrameDict
          (<["A_C" := frame_t [[1 # 2; 1 # 100]; [1 # 100; 1 # 2]]%Q]>
             (<["A_B" := frame_t [[1 # 100; 1 # 2]; [1 # 2; 1 # 100]]%Q]> ∅))))
    "per_lr_cci_raw_cell_type"
    (UnsCountsDict
       (<["A_C" := frame_t [[1; 1]; [1; 1]]%Z]>
          (<["A_B" := frame_t [[1; 1]; [1; 1]]%Z]> ∅))).

(** Three spots on a line, at the columns 0, 1 and 5, each of a cell type of
    its own; the default distance of [lib_entry] is [3 * (1 / 2) * 2 = 3]. *)
Definition adata_line : AnnData :=
  {| obs_names := ["s0"; "s1"; "s2"];
     var_names := [];
     X := [[]; []; []];
     obs := ∅;
     obs_num := <["imagerow" := [0; 0; 0]%Q]> (<["imagecol" := [0; 1; 5]%Q]> ∅);
     uns := <["deconv" :=
                UnsFrame (mk_DataFrame ["s0"; "s1"; "s2"] ["T"; "U"; "V"]
                            [[5 # 10; 0; 0]; [0; 5 # 10; 0]; [0; 0; 5 # 10]]%Q)]>
              {[ "spatial" := UnsSpatial [("lib", lib_entry)] ]};
     obsm := ∅ |}.

(** The doubles that the literals [0.1] and [0.7] denote. *)
Definition double_0_1 : Q := 3602879701896397 # 36028797018963968.

Definition double_0_7 : Q := 3152519739159347 # 4503599627370496.

(** ** Doubles of the machine, to compare [float_mul] with *)

Module Doubles.
Import Stdlib.Floats.PrimFloat Stdlib.Floats.FloatOps Stdlib.Floats.SpecFloat.

(** The value of a finite double. *)
Definition value (f : float) : option Q :=
  match Prim2SF f with
  | S754_zero _ => Some 0%Q
  | S754_finite s m e =>
      Some (Qred (inject_Z (if s then Z.neg m else Z.pos m) * pow2 e))
  | _ => None
  end.

(** Does [float_mul] give the product that the machine gives? *)
Definition agree (a b : float) : bool :=
  match value a, value b, value (a * b)%float with
  | Some x, Some y, Some z => Qeq_bool (float_mul x y) z
  | _, _, _ => true
  end.

#[local] Set Warnings "-inexact-float".

Definition samples : list float :=
  [0.1; 0.7; 0.2; 1.5; 3; 89.43; 0.08250825; 1.0000000000000002;
   0.9999999999999999; -0.1; 9007199254740993; 0.30000000000000004]%float.

(** Pairs with a subnormal product, a tie, and large exponents. *)
Definition extreme_pairs : list (float * float) :=
  [(1e-200, 1e-162); (4.9e-324, 0.5); (4.9e-324, 1.5); (1e300, 1e-300);
   (2.2250738585072014e-308, 0.9999999999999999); (1e-320, 0.7)]%float.

Definition all_agree : bool :=
  forallb (fun a => forallb (agree a) samples) samples
  && forallb (fun p => agree p.1 p.2) extreme_pairs.

(** The literals [0.1] and [0.7], and [0.1 * 0.7 * 2] on the machine. *)
Definition literals : float * float := (0.1, 0.7)%float.

Definition product : float := (0.1 * 0.7 * 2)%float.

End Doubles.

(** * Datasets of the further examples *)

(** [adata_pair] with the proportions of two cell types [T] and [U] stored
    under the key [deconv]. *)
Definition adata_pair_deconv : AnnData :=
  set_uns adata_pair "deconv"
    (UnsFrame (mk_DataFrame ["s0"; "s1"] ["T"; "U"]
                 [[5 # 10; 1 # 10]; [1 # 10; 5 # 10]]%Q)).

(** Three spots [a], [b], [c], each next to the two others; [a] is of type
    [T1], [b] and [c] are of type [T2]. *)
Definition adata_types : AnnData :=
  {| obs_names := ["a"; "b"; "c"];
     var_names := [];
     X := [[]; []; []];
     obs := {[ "cell_type" := ["T1"; "T2"; "T2"] ]};
     obs_num := ∅;
     uns := ∅;
     obsm := ∅ |}.

Definition neighbours_abc : list (list nat) := [[1; 2]; [0; 2]; [0; 1]].

Definition all_spots : list bool := [true; true; true].

(** No deconvolution table: discrete labels are counted. *)
Definition no_props : DataFrame Q := mk_DataFrame [] [] [].

(** The counts and the edges between the types of [adata_types]. *)
Definition counts_types : ndarray Z := mk_ndarray 2 [[0; 2]; [2; 1]]%Z.

Definition edges_types : gmap string (gmap string (list edge)) :=
  <["T2" := <["T2" := [PairEdge "b" "c"]]>
              (<["T1" := [PairEdge "b" "a"; PairEdge "c" "a"]]> ∅)]>
    (<["T1" := <["T2" := [PairEdge "a" "b"; PairEdge "a" "c"]]>
                 (<["T1" := []]> ∅)]> ∅).

(** A stand-in for [pd.read_csv]: one database of three rows, two of them the
    same pair. *)
Definition read_csv_stub (file : string) : result (list (list string)) :=
  if String.eqb file "/pkg/databases/connectomeDB2020_lit.txt"
  then Ok [["L2"; "R2"; "x"]; ["L1"; "R1"; "y"]; ["L2"; "R2"; "z"]]
  else Raise (Exception "No such file or directory").
(** * Properties *)

(** ** The error monad *)

Lemma bind_Ok {A B : Type} (m : result A) (f : A -> result B) (b : B) :
  m ≫= f = Ok b -> exists a, m = Ok a /\ f a = Ok b.
Proof. destruct m as [a|e]; simpl; [eauto | discriminate]. Qed.

Lemma fmap_Ok {A B : Type} (m : result A) (f : A -> B) (b : B) :
  f <$> m = Ok b -> exists a, m = Ok a /\ b = f a.
Proof. destruct m as [a|e]; simpl; [intros [= <-]; eauto | discriminate]. Qed.

(** Splits a successful computation into its successful steps. *)
Ltac inv_ok H :=
  let a := fresh "v" in
  let E := fresh "E" in
  first
    [ apply bind_Ok in H; destruct H as (a & E & H)
    | apply fmap_Ok in H; destruct H as (a & E & H) ].

Lemma getitem_Ok {A : Type} (l : list A) (i : nat) (x : A) :
  getitem l i = Ok x <-> l !! i = Some x.
Proof. unfold getitem. destruct (l !! i); split; congruence. Qed.

Lemma dict_get_Ok {V : Type} (d : gmap string V) (key : string) (v : V) :
  dict_get d key = Ok v <-> d !! key = Some v.
Proof. unfold dict_get. destruct (d !! key); split; congruence. Qed.

Lemma for_each_app {X S : Type} (xs ys : list X) (body : X -> S -> result S) (s : S) :
  for_each (xs ++ ys) body s = s' ← for_each xs body s; for_each ys body s'.
Proof.
  revert s. induction xs as [|x xs IH]; intros s; simpl; [reflexivity|].
  destruct (body x s); simpl; auto.
Qed.

(** ** [count_core] on an empty [spot_indices] *)

(** C10. With an empty [spot_indices] array [count_core] returns the empty
    edge list when [return_edges] is set and the count 0 otherwise, whatever
    the dataset and the other arguments are: also for a dataset without the
    label column, the neighbour table or the cell-type frame, whose reading
    would raise. *)
Theorem count_core_empty_spot_indices (adata : AnnData) (use_label : string)
  (neighbours : list (list nat)) (neigh_bool : option (list bool))
  (label_set : option (list string)) (spot_mixtures : bool) (cutoff : Q)
  (return_edges : bool) :
  count_core adata use_label neighbours (Some []) neigh_bool label_set
    spot_mixtures cutoff return_edges
  = Ok (if return_edges then Edges [] else Count 0).
Proof. unfold count_core. destruct (label_keys use_label). reflexivity. Qed.

(** ** The filter of [run] on the scored pairs *)

Lemma filter_lrs_kept (lr_scores : ndarray Q) (lrs : list string) (min_spots : Z)
  (lr_scores' : ndarray Q) (lrs' : list string) :
  filter_lrs lr_scores lrs min_spots = Ok (lr_scores', lrs') ->
  lrs' = compress lrs (lr_bool lr_scores min_spots)
  /\ rows lr_scores'
     = map (fun row => compress row (lr_bool lr_scores min_spots)) (rows lr_scores).
Proof.
  unfold filter_lrs, mask_select, select_columns. intros H.
  destruct (Nat.eqb (length lrs) _); simpl in H; [|discriminate].
  destruct (Nat.eqb (length (lr_bool lr_scores min_spots)) _); simpl in H;
    [|discriminate].
  injection H as <- <-. auto.
Qed.


(** C4. With [min_spots = 2], the pair [A_B], which has a positive score in
    exactly two spots, is removed by the filter of [run]: the filter keeps a
    pair only when its count exceeds [min_spots]. *)
Theorem filter_lrs_drops_pair_with_min_spots :
  column_hits scores_at_threshold = [2; 3]
  /\ filter_lrs scores_at_threshold ["A_B"; "C_D"] 2
     = Ok (mk_ndarray 1 [[1]; [1]; [1]]%Q, ["C_D"]).
Proof. split; vm_compute; reflexivity. Qed.

(** ** The guard of [run_cci] *)

Lemma check_prior_results_absent (adata : AnnData) :
  uns adata !! "lr_summary" = None ->
  check_prior_results adata = Raise no_lr_results.
Proof.
  intros H. unfold check_prior_results, dict_has.
  rewrite bool_decide_eq_false_2; [reflexivity|].
  rewrite H. intros [x Hx]. discriminate.
Qed.

Lemma check_prior_results_present (adata : AnnData) (df : DataFrame Z) :
  uns adata !! "lr_summary" = Some (UnsCounts df) ->
  check_prior_results adata = Ok tt.
Proof.
  intros H. unfold check_prior_results, dict_has, lr_summary_of.
  rewrite bool_decide_eq_true_2; [|rewrite H; eauto].
  simpl. rewrite (proj2 (dict_get_Ok _ _ _) H). reflexivity.
Qed.


(** C8. On a dataset whose LR summary lacks the column [n_spots_sig], the
    guard of [run_cci] lets the call through, and [run_cci] (here with
    [sig_spots=False] and [min_spots=1], so that the pair [A_B] is tested, and
    with the stand-ins for the imported functions) completes without an
    exception. *)
Theorem run_cci_without_significance_counts :
  uns adata_unsigned !! "lr_summary"
    = Some (UnsCounts (mk_DataFrame ["A_B"] ["n_spots"] [[2%Z]]))
  /\ check_prior_results adata_unsigned = Ok tt
  /\ best_lrs_of (mk_DataFrame ["A_B"] ["n_spots"] [[2%Z]]) 0 1 = Ok ["A_B"]
  /\ exists adata',
       run_cci nat counting_data_stub matrix_stub pvals_stub adata_unsigned
         "cell_type" false 1 false (2 # 10) (5 # 100) 100 false 0
       = Ok (adata', 1, [])
       /\ uns adata' !! "lr_cci_raw_cell_type"
          = Some (UnsCounts (frame_t [[0; 0]; [0; 0]]%Z)).
Proof.
  split; [reflexivity|]. split; [reflexivity|]. split; [reflexivity|].
  eexists. split; vm_compute; reflexivity.
Qed.

(** ** Indexing lemmas *)

Lemma compress_seq_elem (mask : list bool) (a x : nat) :
  x ∈ compress (seq a (length mask)) mask
  <-> a <= x /\ mask !! (x - a) = Some true.
Proof.
  revert a. induction mask as [|b mask IH]; intros a; simpl.
  - split; [intros H; inversion H | intros [_ H]; discriminate].
  - assert (Hrec : x ∈ compress (seq (S a) (length mask)) mask
                   <-> a <= x /\ x <> a /\ mask !! (x - S a) = Some true).
    { rewrite IH. split; intros H; [split; [lia | split; [lia | tauto]]|].
      destruct H as (? & ? & ?). split; [lia | assumption]. }
    destruct (decide (x = a)) as [->|Hne].
    + replace (a - a) with 0 by lia. simpl. destruct b.
      * split; [intros _; split; [lia | reflexivity] | intros _; left].
      * rewrite Hrec. split; [intros (_ & ? & _); congruence | intros [_ ?]; discriminate].
    + assert (Hx : a <= x -> (b :: mask) !! (x - a) = mask !! (x - S a)).
      { intros Hle. replace (x - a) with (S (x - S a)) by lia. reflexivity. }
      destruct b; [rewrite elem_of_cons|]; rewrite Hrec; split.
      * intros [?|(? & ? & ?)]; [congruence | split; [lia | rewrite Hx; [assumption | lia]]].
      * intros [Hle H]. right. rewrite Hx in H by lia. auto.
      * intros (? & ? & ?). split; [lia | rewrite Hx; [assumption | lia]].
      * intros [Hle H]. rewrite Hx in H by lia. auto.
Qed.

Lemma np_where_elem (mask : list bool) (i : nat) :
  i ∈ np_where mask <-> mask !! i = Some true.
Proof.
  unfold np_where. rewrite compress_seq_elem. replace (i - 0) with i by lia.
  split; [tauto | split; [lia | assumption]].
Qed.

Lemma take_indices_elem {A : Type} (l : list A) (idx : list nat) (ys : list A)
  (i : nat) :
  take_indices l idx = Ok ys -> i ∈ idx -> exists x, l !! i = Some x /\ x ∈ ys.
Proof.
  revert ys. induction idx as [|j idx IH]; intros ys H Hi; [inversion Hi|].
  simpl in H. inv_ok H. inv_ok H. injection H as <-.
  apply getitem_Ok in E. apply elem_of_cons in Hi as [->|Hi].
  - exists v. split; [assumption | left].
  - destruct (IH _ E0 Hi) as (x & ? & ?). exists x. split; [assumption | now right].
Qed.

Lemma take_indices_lookup {A : Type} (l : list A) (idx : list nat) (ys : list A)
  (p : nat) (y : A) :
  take_indices l idx = Ok ys -> ys !! p = Some y ->
  exists k, idx !! p = Some k /\ l !! k = Some y.
Proof.
  revert ys p. induction idx as [|i idx IH]; intros ys p H Hp; simpl in H.
  - injection H as <-. discriminate.
  - do 2 inv_ok H. injection H as <-. apply getitem_Ok in E.
    destruct p as [|p]; simpl in Hp.
    + injection Hp as <-. exists i. now split.
    + destruct (IH _ _ E0 Hp) as (k & ? & ?). exists k. now split.
Qed.

Lemma map_result_lookup {A B : Type} (f : A -> result B) (l : list A) (ys : list B)
  (j : nat) (x : A) :
  map_result f l = Ok ys -> l !! j = Some x ->
  exists y, f x = Ok y /\ ys !! j = Some y.
Proof.
  revert ys j. induction l as [|z l IH]; intros ys j H Hj; [discriminate|].
  simpl in H. destruct (f z) as [y|] eqn:Hz; simpl in H; [|discriminate].
  destruct (map_result f l) as [ys'|] eqn:Hl; simpl in H; [|discriminate].
  injection H as <-. destruct j as [|j]; simpl in *.
  - injection Hj as <-. eauto.
  - eauto.
Qed.

Lemma index_of_lookup (key : string) (labels : list string) (i : nat) :
  index_of key labels = Some i -> labels !! i = Some key.
Proof.
  revert i. induction labels as [|l labels IH]; intros i; simpl; [discriminate|].
  destruct (String.eqb key l) eqn:E.
  - intros [= <-]. apply String.eqb_eq in E. now subst.
  - destruct (index_of key labels) as [k|]; simpl; [|discriminate].
    intros [= <-]. simpl. now apply IH.
Qed.

Lemma get_loc_Ok (labels : list string) (key : string) (i : nat) :
  get_loc labels key = Ok i -> labels !! i = Some key.
Proof.
  unfold get_loc. destruct (index_of key labels) eqn:E; [|discriminate].
  intros [= <-]. now apply index_of_lookup.
Qed.

(** ** Neighbour lists and the spot itself *)

Lemma within_own_ball (p : Q * Q) (r : Q) : within_ball p r p = true.
Proof.
  unfold within_ball. apply Qle_bool_iff.
  assert (H0 : (sq_dist p p == 0)%Q) by (unfold sq_dist; ring).
  rewrite H0. unfold Qle, Qmult. simpl. nia.
Qed.

Lemma count_neighbours_self (adata : AnnData) (coor : list (Q * Q)) (d : Q)
  (spot : barcode) (ns : list barcode) :
  coordinates adata = Ok coor -> (0 < d)%Q ->
  count_neighbours adata coor d spot = Ok ns -> spot ∈ ns.
Proof.
  unfold coordinates, count_neighbours. intros Hc Hd H.
  inv_ok Hc. inv_ok Hc. injection Hc as <-.
  rewrite E, E0 in H. simpl in H.
  inv_ok H. inv_ok H. inv_ok H.
  apply get_loc_Ok in E1. apply getitem_Ok in E2, E3.
  assert (Hin : v1 ∈ query_ball_point (zip v v0) (v2, v3) d).
  { unfold query_ball_point. apply np_where_elem.
    rewrite list_lookup_fmap.
    rewrite (proj2 (lookup_zip_Some v v0 v1 v2 v3) (conj E2 E3)). simpl.
    f_equal. apply within_own_ball. }
  destruct (take_indices_elem _ _ _ _ H Hin) as (x & Hx & Hns).
  rewrite E1 in Hx. now injection Hx as ->.
Qed.

Lemma zrange_lookup (a b n : Z) :
  (a <= n < b)%Z -> zrange a b !! Z.to_nat (n - a) = Some n.
Proof.
  intros Hn. unfold zrange. rewrite list_lookup_fmap.
  rewrite lookup_seq_lt by lia. simpl. f_equal. lia.
Qed.

Lemma zrange_one (a b : Z) : (b - a = 1)%Z -> zrange a b = [a].
Proof. intros H. unfold zrange. rewrite H. simpl. f_equal. lia. Qed.

Lemma for_each_append {X Y : Type} (f : X -> Y) (xs : list X) (acc : list Y) :
  for_each xs (fun x acc => Ok (acc ++ [f x])) acc = Ok (acc ++ map f xs).
Proof.
  revert acc. induction xs as [|x xs IH]; intros acc; simpl.
  - now rewrite app_nil_r.
  - rewrite IH. now rewrite <- app_assoc.
Qed.

Lemma create_grids_Ok (adata : AnnData) (num_row num_col radius : Z)
  (neighbours : list (list Z)) :
  create_grids adata num_row num_col radius = Ok neighbours ->
  neighbours = map (grid_neighbours num_row num_col radius)
                 (zrange 0 (num_row * num_col))
  /\ ((0 < num_row * num_col)%Z -> (0 < num_row)%Z /\ (0 < num_col)%Z).
Proof.
  unfold create_grids. intros H. inv_ok H. inv_ok H.
  destruct (Nat.eqb (length v0) 0 || Nat.eqb (length v) 0); [discriminate|].
  destruct ((num_col =? 0)%Z || (num_row =? 0)%Z); [discriminate|].
  destruct (num_row <? 0)%Z eqn:Hneg.
  - destruct (zrange 0 (num_row * num_col)) as [|z zs] eqn:Hz;
      simpl in H; [|discriminate].
    injection H as <-. split; [reflexivity|].
    intros Hpos. unfold zrange in Hz.
    destruct (Z.to_nat (num_row * num_col - 0)) eqn:Hn; [|discriminate].
    exfalso. revert Hn Hpos. generalize (num_row * num_col)%Z. intros; lia.
  - rewrite for_each_append in H. injection H as <-. split; [reflexivity|].
    apply Z.ltb_ge in Hneg. intros Hpos.
    assert (num_row <> 0)%Z by (intros ->; lia).
    split; [lia | nia].
Qed.

Lemma grid_neighbours_without_self (num_row num_col radius n : Z) :
  (0 < radius)%Z -> n ∉ grid_neighbours num_row num_col radius n.
Proof.
  intros Hr Hin. unfold grid_neighbours in Hin.
  apply list_elem_of_filter in Hin as [Hf _].
  rewrite Z.eqb_refl in Hf. apply Z.ltb_lt in Hr. rewrite Hr in Hf. exact Hf.
Qed.

Lemma grid_neighbours_within (num_row num_col n : Z) :
  (0 < num_row)%Z -> (0 <= n < num_row * num_col)%Z ->
  grid_neighbours num_row num_col 0 n = [n].
Proof.
  intros HR Hn. unfold grid_neighbours.
  rewrite !zrange_one by lia. simpl.
  pose proof (Z.mod_pos_bound n num_row HR) as Hrow.
  assert (Hcol : (0 <= n / num_row < num_col)%Z).
  { split; [apply Z.div_pos; lia | apply Z.div_lt_upper_bound; lia]. }
  replace (0 <=? n mod num_row - 0)%Z with true by (symmetry; apply Z.leb_le; lia).
  replace (n mod num_row - 0 <? num_row)%Z with true by (symmetry; apply Z.ltb_lt; lia).
  replace (0 <=? n / num_row - 0)%Z with true by (symmetry; apply Z.leb_le; lia).
  replace (n / num_row - 0 <? num_col)%Z with true by (symmetry; apply Z.ltb_lt; lia).
  simpl.
  replace ((n / num_row - 0) * num_row + (n mod num_row - 0))%Z with n
    by (pose proof (Z.div_mod n num_row); lia).
  rewrite filter_cons_True; [reflexivity|].
  rewrite Z.eqb_refl. simpl.
  replace (n =? -1)%Z with false by (symmetry; apply Z.eqb_neq; lia). exact I.
Qed.

(** C7, as stated, fails for [count]: with the positive distance 1 the
    neighbours computed for spot [s0] are [s0] and [s1]. *)
Lemma count_neighbours_contain_spot :
  ~ (forall (adata : AnnData) (coor : list (Q * Q)) (d : Q) (spot : barcode)
       (ns : list barcode),
       coordinates adata = Ok coor -> (0 < d)%Q ->
       count_neighbours adata coor d spot = Ok ns -> spot ∉ ns).
Proof.
  intros H.
  apply (H adata_pair [(0, 0); (0, 1)]%Q 1%Q "s0" ["s0"; "s1"]).
  - vm_compute. reflexivity.
  - reflexivity.
  - vm_compute. reflexivity.
  - left.
Qed.

(** C7, amended. In [create_grids] the neighbour list of grid [n] leaves
    [n] out for every positive radius and is exactly [[n]] for radius 0. In
    [count] the neighbours of a spot under a positive distance are the result
    of the range query as it is, and they contain the spot itself; under
    [distance=0] no neighbour list is computed (the within-spot branch). *)
Theorem neighbour_lists_and_self (adata : AnnData) (num_row num_col radius n : Z)
  (grid_nbs : list (list Z)) (coor : list (Q * Q)) (d : Q) (spot : barcode)
  (ns : list barcode) (library_id : string) :
  create_grids adata num_row num_col radius = Ok grid_nbs ->
  (0 <= n < num_row * num_col)%Z ->
  coordinates adata = Ok coor -> (0 < d)%Q ->
  count_neighbours adata coor d spot = Ok ns ->
  (exists l, grid_nbs !! Z.to_nat n = Some l
             /\ ((0 < radius)%Z -> n ∉ l) /\ (radius = 0%Z -> l = [n]))
  /\ spot ∈ ns
  /\ count_distance adata library_id (Some 0%Q) = Ok None.
Proof.
  intros Hg Hn Hc Hd Hns.
  apply create_grids_Ok in Hg as [-> Hpos].
  destruct Hpos as [HR HC]; [lia|].
  split; [|split; [now apply (count_neighbours_self adata coor d) | reflexivity]].
  exists (grid_neighbours num_row num_col radius n). split; [|split].
  - rewrite list_lookup_fmap.
    replace (Z.to_nat n) with (Z.to_nat (n - 0)) by (f_equal; lia).
    rewrite zrange_lookup by lia. reflexivity.
  - now apply grid_neighbours_without_self.
  - intros ->. now apply grid_neighbours_within.
Qed.

Lemma neighbour_lists_and_self_witness :
  (exists l, [[2; 1; 3]; [0; 2; 3]; [0; 1; 3]; [0; 2; 1]]%Z !! Z.to_nat 0 = Some l
             /\ ((0 < 1)%Z -> 0%Z ∉ l) /\ (1%Z = 0%Z -> l = [0%Z]))
  /\ "s0" ∈ ["s0"; "s1"]
  /\ count_distance adata_pair "lib" (Some 0%Q) = Ok None.
Proof.
  apply (neighbour_lists_and_self adata_pair 2 2 1 0
           [[2; 1; 3]; [0; 2; 3]; [0; 1; 3]; [0; 2; 1]]%Z
           [(0, 0); (0, 1)]%Q 1%Q "s0" ["s0"; "s1"] "lib").
  - vm_compute. reflexivity.
  - lia.
  - vm_compute. reflexivity.
  - reflexivity.
  - vm_compute. reflexivity.
Defined.

(** ** The cell-type filter of the edge enumerator *)

Lemma count_true_cons (b : bool) (l : list bool) :
  count_true (b :: l) = if b then S (count_true l) else count_true l.
Proof. unfold count_true. destruct b; reflexivity. Qed.

Lemma count_true_le (l : list bool) : count_true l <= length l.
Proof.
  induction l as [|b l IH]; [reflexivity|].
  rewrite count_true_cons. destruct b; simpl; lia.
Qed.

Lemma count_true_all (l : list bool) :
  Nat.eqb (count_true l) (length l) = forallb (fun b => b) l.
Proof.
  induction l as [|b l IH]; [reflexivity|].
  rewrite count_true_cons. destruct b; simpl; [exact IH|].
  apply Nat.eqb_neq. pose proof (count_true_le l). lia.
Qed.

Lemma forallb_id_map {A : Type} (f : A -> bool) (l : list A) :
  forallb (fun b => b) (map f l) = forallb f l.
Proof. induction l as [|x l IH]; simpl; [reflexivity | now rewrite IH]. Qed.

Lemma take_indices_in_range {A : Type} (d : A) (l : list A) (idx : list nat) :
  Forall (fun k => k < length l) idx ->
  take_indices l idx = Ok (map (fun k => default d (l !! k)) idx).
Proof.
  induction 1 as [|k idx Hk _ IH]; [reflexivity|].
  simpl. unfold getitem. destruct (lookup_lt_is_Some_2 l k Hk) as [x Hx].
  rewrite Hx. simpl. rewrite IH. reflexivity.
Qed.

Lemma compress_nil_mask {A : Type} (l : list A) : compress l [] = [].
Proof. destruct l; reflexivity. Qed.

Lemma compress_length {A B : Type} (l : list A) (k : list B) (mask : list bool) :
  length l = length k -> length (compress l mask) = length (compress k mask).
Proof.
  revert k mask. induction l as [|x l IH]; intros [|y k] [|b mask] H;
    simpl in *; try reflexivity; try discriminate.
  destruct b; simpl; auto.
Qed.

Lemma compress_twice {A : Type} (f g : nat -> bool) (l : list A) (idx : list nat) :
  length l = length idx ->
  compress (compress l (map f idx)) (map g (compress idx (map f idx)))
  = omap (fun p : A * nat => if f p.2 && g p.2 then Some p.1 else None) (zip l idx).
Proof.
  revert idx. induction l as [|x l IH]; intros [|k idx] H; simpl in *;
    try reflexivity; try discriminate.
  injection H as H. destruct (f k); simpl; [|now apply IH].
  destruct (g k); simpl; now rewrite IH.
Qed.

Lemma interact_rows_spec (cell_data : ndarray Q) (cutoff : Q) (ks : list nat) :
  rectangular cell_data ->
  Forall (fun k => k < shape0 cell_data) ks ->
  interact_rows cell_data cutoff ks = Ok (map (exceeds_in_all cell_data cutoff) ks).
Proof.
  intros Hrect Hks. unfold interact_rows.
  rewrite (take_indices_in_range [] _ _ Hks). simpl. f_equal.
  rewrite !map_map. apply map_ext_in. intros k Hk.
  rewrite List.Forall_forall in Hks. apply Hks in Hk.
  unfold exceeds_in_all. destruct (lookup_lt_is_Some_2 _ _ Hk) as [row Hrow].
  rewrite Hrow. simpl.
  assert (Hlen : length row = shape1 cell_data).
  { unfold rectangular in Hrect. rewrite List.Forall_forall in Hrect.
    apply Hrect. apply list_elem_of_In. eapply list_elem_of_lookup_2; eauto. }
  rewrite <- Hlen, <- (length_map (fun x => Qgtb x cutoff) row).
  rewrite count_true_all. apply forallb_id_map.
Qed.

Lemma Forall_compress {A : Type} (P : A -> Prop) (l : list A) (mask : list bool) :
  Forall P l -> Forall P (compress l mask).
Proof.
  intros H. revert mask. induction H as [|x l Hx _ IH]; intros [|b mask]; simpl;
    try constructor. destruct b; [constructor|]; auto.
Qed.

Lemma Qgtb_lt (x y : Q) : Qgtb x y = true <-> (y < x)%Q.
Proof.
  unfold Qgtb. rewrite negb_true_iff, <- not_true_iff_false, Qle_bool_iff.
  split; [apply Qnot_le_lt | apply Qlt_not_le].
Qed.

(** C3. With [count_cell_types] set, the destinations the enumerator adds
    for a neighbourhood are the neighbours that satisfy the neighbour
    predicate and whose row of [cell_data] exceeds [cutoff] in every column:
    a barcode is a destination if and only if it stands at a position of the
    neighbour list whose spot passes [neigh_bool] and has all its proportions
    strictly above the cut-off. *)
Theorem edge_destinations_exceed_cutoff_jointly
  (neighbourhood_bcs : list (barcode * list barcode))
  (neighbourhood_indices : list (nat * list nat))
  (neigh_bool : list bool) (cell_data : ndarray Q) (cutoff : Q)
  (i : nat) (buf : edge_buffer)
  (spot_bc : barcode) (neigh_bcs : list barcode)
  (spot_i : nat) (neigh_indices : list nat) :
  rectangular cell_data ->
  neighbourhood_bcs !! i = Some (spot_bc, neigh_bcs) ->
  neighbourhood_indices !! i = Some (spot_i, neigh_indices) ->
  length neigh_bcs = length neigh_indices ->
  Forall (fun k => k < length neigh_bool /\ k < shape0 cell_data) neigh_indices ->
  let kept := retained_destinations neigh_bool cell_data cutoff neigh_bcs
                neigh_indices in
  enumerate_neighbourhood neighbourhood_bcs neighbourhood_indices neigh_bool
    true (Some cell_data) cutoff i buf
  = Ok (fold_left (append_edge spot_bc) kept buf)
  /\ forall bc : barcode,
       bc ∈ kept <->
       exists (p k : nat) (row : list Q),
         neigh_bcs !! p = Some bc /\ neigh_indices !! p = Some k
         /\ neigh_bool !! k = Some true
         /\ rows cell_data !! k = Some row
         /\ forall x, x ∈ row -> (cutoff < x)%Q.
Proof.
  intros Hrect Hb Hi Hlen Hrange kept. split.
  - unfold enumerate_neighbourhood.
    rewrite (proj2 (getitem_Ok _ _ _) Hb), (proj2 (getitem_Ok _ _ _) Hi). simpl.
    assert (Hr1 : Forall (fun k => k < length neigh_bool) neigh_indices)
      by (eapply Forall_impl; [exact Hrange | simpl; tauto]).
    assert (Hr2 : Forall (fun k => k < shape0 cell_data) neigh_indices)
      by (eapply Forall_impl; [exact Hrange | simpl; tauto]).
    rewrite (take_indices_in_range false _ _ Hr1). simpl.
    set (f := fun k => default false (neigh_bool !! k)).
    unfold mask_select. rewrite !length_map, Hlen, Nat.eqb_refl. simpl.
    assert (Htwice :
              compress (compress neigh_bcs (map f neigh_indices))
                (map (exceeds_in_all cell_data cutoff)
                   (compress neigh_indices (map f neigh_indices))) = kept)
      by exact (compress_twice f (exceeds_in_all cell_data cutoff) neigh_bcs
                  neigh_indices Hlen).
    destruct (Nat.eqb (length (compress neigh_indices (map f neigh_indices))) 0)
      eqn:Hempty.
    + apply Nat.eqb_eq, nil_length_inv in Hempty. rewrite Hempty in Htwice.
      simpl in Htwice. rewrite compress_nil_mask in Htwice.
      rewrite <- Htwice. reflexivity.
    + rewrite interact_rows_spec by (auto using Forall_compress). simpl.
      rewrite length_map.
      rewrite (compress_length neigh_bcs neigh_indices _ Hlen), Nat.eqb_refl.
      simpl. rewrite Htwice. reflexivity.
  - intros bc. unfold kept, retained_destinations.
    rewrite list_elem_of_omap. split.
    + intros ([bc' k] & Hin & Hsome). simpl in Hsome.
      apply list_elem_of_lookup in Hin as [p Hp].
      apply lookup_zip_Some in Hp as [Hp1 Hp2].
      destruct (neigh_bool !! k) as [[|]|] eqn:Hnb; simpl in Hsome; try discriminate.
      unfold exceeds_in_all in Hsome.
      destruct (rows cell_data !! k) as [row|] eqn:Hrow; [|discriminate].
      destruct (forallb _ row) eqn:Hall; [|discriminate].
      injection Hsome as <-. exists p, k, row. repeat split; try assumption.
      intros x Hx. rewrite forallb_forall in Hall.
      apply Qgtb_lt, Hall. now apply list_elem_of_In.
    + intros (p & k & row & Hp1 & Hp2 & Hnb & Hrow & Hall).
      exists (bc, k). split.
      * apply list_elem_of_lookup. exists p. now apply lookup_zip_Some.
      * simpl. rewrite Hnb. simpl. unfold exceeds_in_all. rewrite Hrow.
        replace (forallb _ row) with true; [reflexivity|].
        symmetry. apply forallb_forall. intros x Hx.
        apply Qgtb_lt, Hall. now apply list_elem_of_In.
Qed.

(** ** Loops *)

(** A loop over [range(a, a + len)] whose body keeps an invariant succeeds
    and ends in the invariant. *)
Lemma for_each_seq_inv {St : Type} (P : nat -> St -> Prop)
  (body : nat -> St -> result St) (a len : nat) (s : St) :
  P a s ->
  (forall k t, a <= k < a + len -> P k t -> exists t', body k t = Ok t' /\ P (S k) t') ->
  exists s', for_each (seq a len) body s = Ok s' /\ P (a + len) s'.
Proof.
  revert a s. induction len as [|len IH]; intros a s Hs Hstep.
  - exists s. rewrite Nat.add_0_r. now split.
  - destruct (Hstep a s) as (t & Ht & HP); [lia | assumption |].
    simpl. rewrite Ht. simpl.
    destruct (IH (S a) t HP) as (s' & Hs' & HP').
    { intros k u Hk. apply Hstep. lia. }
    exists s'. split; [assumption|]. now replace (a + S len) with (S a + len) by lia.
Qed.

(** ** Sameness of edges *)

Lemma same_pair_spec (undirected : bool) (e1 e2 : string * string) :
  same_pair undirected e1 e2 = true
  <-> e1 = e2 \/ (undirected = true /\ e1 = (e2.2, e2.1)).
Proof.
  destruct e1 as [a b], e2 as [c d]. unfold same_pair, same_edge. simpl.
  destruct undirected.
  - rewrite orb_true_iff, !andb_true_iff, !String.eqb_eq. split.
    + intros [[-> ->]|[-> ->]]; [now left | right; now split].
    + intros [[= -> ->]|[_ [= -> ->]]]; [left | right]; now split.
  - rewrite andb_true_iff, !String.eqb_eq. split.
    + intros [-> ->]. now left.
    + intros [[= -> ->]|[? _]]; [now split | discriminate].
Qed.

Lemma same_pair_refl (undirected : bool) (e : string * string) :
  same_pair undirected e e = true.
Proof. apply same_pair_spec. now left. Qed.

Lemma same_pair_sym (undirected : bool) (e1 e2 : string * string) :
  same_pair undirected e1 e2 = true -> same_pair undirected e2 e1 = true.
Proof.
  rewrite !same_pair_spec. destruct e1 as [a b], e2 as [c d]. simpl.
  intros [[= -> ->]|[Hu [= -> ->]]]; [now left | right; now split].
Qed.

Lemma same_pair_trans (undirected : bool) (e1 e2 e3 : string * string) :
  same_pair undirected e1 e2 = true -> same_pair undirected e2 e3 = true ->
  same_pair undirected e1 e3 = true.
Proof.
  rewrite !same_pair_spec. destruct e1 as [a b], e2 as [c d], e3 as [x y]. simpl.
  intros [[= -> ->]|[Hu [= -> ->]]] [[= -> ->]|[Hu' [= -> ->]]]; auto.
Qed.

Lemma dup_before_spec (undirected : bool) (buf : edge_buffer) (k j : nat) :
  dup_before undirected buf k j = true
  <-> exists i, i < k /\ i <= j
                /\ same_pair undirected (candidate buf i) (candidate buf j) = true.
Proof.
  induction k as [|k IH]; simpl.
  - split; [discriminate | intros (i & ? & _); lia].
  - rewrite orb_true_iff, andb_true_iff, IH, Nat.leb_le. split.
    + intros [(i & ? & ? & ?)|[? ?]]; [exists i | exists k]; repeat split; auto; lia.
    + intros (i & Hi & Hj & Hs). destruct (decide (i = k)) as [->|Hne].
      * right. now split.
      * left. exists i. repeat split; auto; lia.
Qed.

(** ** The de-duplication loop of the edge enumerator *)

Lemma lookup_repeat_false (n x : nat) : default false (repeat false n !! x) = false.
Proof. revert x. induction n as [|n IH]; intros [|x]; simpl; auto. Qed.

Lemma omap_ext_Forall {A B : Type} (f g : A -> option B) (l : list A) :
  Forall (fun x => f x = g x) l -> omap f l = omap g l.
Proof.
  induction 1 as [|x l Hx _ IH]; [reflexivity|].
  cbn [omap list_omap]. now rewrite Hx, IH.
Qed.

Section Dedup.

Variable undirected : bool.
Variable buf : edge_buffer.
Hypothesis starts_length : length (edge_starts buf) = n_edges buf.
Hypothesis ends_length : length (edge_ends buf) = n_edges buf.

Let cands : list (string * string) := zip (edge_starts buf) (edge_ends buf).

Lemma candidate_lookup (i : nat) :
  i < n_edges buf ->
  edge_starts buf !! i = Some (candidate buf i).1
  /\ edge_ends buf !! i = Some (candidate buf i).2
  /\ cands !! i = Some (candidate buf i).
Proof using starts_length ends_length.
  intros Hi. unfold candidate, cands.
  destruct (lookup_lt_is_Some_2 (edge_starts buf) i) as [s Hs]; [lia|].
  destruct (lookup_lt_is_Some_2 (edge_ends buf) i) as [e He]; [lia|].
  rewrite Hs, He. simpl. repeat split. now apply lookup_zip_Some.
Qed.

Lemma cands_length : length cands = n_edges buf.
Proof using starts_length ends_length.
  unfold cands. rewrite length_zip_with. lia.
Qed.

Lemma mark_duplicates_spec (edge_start edge_end : string) (i : nat)
  (edge_added : list bool) :
  length edge_added = n_edges buf -> i <= n_edges buf ->
  exists edge_added',
    mark_duplicates undirected buf edge_start edge_end i edge_added = Ok edge_added'
    /\ length edge_added' = n_edges buf
    /\ forall x, x < n_edges buf ->
         default false (edge_added' !! x)
         = default false (edge_added !! x)
           || (Nat.leb i x && same_pair undirected (edge_start, edge_end)
                               (candidate buf x)).
Proof using starts_length ends_length.
  intros Hlen Hi. unfold mark_duplicates, range.
  set (P := fun (j : nat) (cur : list bool) =>
              length cur = n_edges buf
              /\ forall x, x < n_edges buf ->
                   default false (cur !! x)
                   = default false (edge_added !! x)
                     || (Nat.leb i x && Nat.ltb x j
                         && same_pair undirected (edge_start, edge_end)
                              (candidate buf x))).
  match goal with |- context [for_each _ ?b _] => set (body := b) end.
  destruct (for_each_seq_inv P body i (n_edges buf - i) edge_added)
    as (added' & Hrun & Hlen' & Hpost).
  - split; [assumption|]. intros x Hx.
    replace (Nat.leb i x && Nat.ltb x i) with false; [now rewrite orb_false_r|].
    destruct (Nat.leb_spec i x), (Nat.ltb_spec x i); simpl; auto; lia.
  - intros k cur Hk [Hcur Hinv]. unfold body.
    destruct (candidate_lookup k) as (Hs & He & _); [lia|].
    destruct (candidate buf k) as [sk ek] eqn:Hcand. simpl in Hs, He.
    rewrite (proj2 (getitem_Ok _ _ _) Hs), (proj2 (getitem_Ok _ _ _) He). simpl.
    change (same_edge undirected edge_start edge_end sk ek)
      with (same_pair undirected (edge_start, edge_end) (sk, ek)).
    destruct (same_pair undirected (edge_start, edge_end) (sk, ek)) eqn:Hsame;
      eexists; (split; [reflexivity|]); split;
      try (rewrite length_insert); try assumption; intros x Hx.
    + destruct (decide (x = k)) as [->|Hne].
      * rewrite list_lookup_insert_eq by lia. simpl. rewrite Hcand, Hsame.
        replace (Nat.leb i k) with true by (symmetry; apply Nat.leb_le; lia).
        replace (Nat.ltb k (S k)) with true by (symmetry; apply Nat.ltb_lt; lia).
        now rewrite orb_true_r.
      * rewrite list_lookup_insert_ne by auto. rewrite Hinv by assumption.
        replace (Nat.ltb x (S k)) with (Nat.ltb x k); [reflexivity|].
        destruct (Nat.ltb_spec x k), (Nat.ltb_spec x (S k)); auto; lia.
    + rewrite Hinv by assumption. destruct (decide (x = k)) as [->|Hne].
      * now rewrite Hcand, Hsame, !andb_false_r.
      * replace (Nat.ltb x (S k)) with (Nat.ltb x k); [reflexivity|].
        destruct (Nat.ltb_spec x k), (Nat.ltb_spec x (S k)); auto; lia.
  - exists added'. split; [exact Hrun|]. split; [exact Hlen'|].
    intros x Hx. rewrite Hpost by assumption.
    replace (i + (n_edges buf - i)) with (n_edges buf) by lia.
    replace (Nat.ltb x (n_edges buf)) with true by (symmetry; apply Nat.ltb_lt; lia).
    now rewrite andb_true_r.
Qed.

(** What the outer loop keeps of candidate [i]. *)
Let keep (i : nat) : option (string * string) :=
  if dup_before undirected buf i i then None else Some (candidate buf i).

Lemma unique_edges_spec :
  unique_edges undirected buf = Ok (omap keep (seq 0 (n_edges buf))).
Proof using starts_length ends_length.
  unfold unique_edges, range. rewrite Nat.sub_0_r.
  set (P := fun (k : nat) (st : list bool * list (string * string)) =>
              length st.1 = n_edges buf
              /\ (forall x, x < n_edges buf ->
                    default false (st.1 !! x) = dup_before undirected buf k x)
              /\ st.2 = omap keep (seq 0 k)).
  match goal with |- context [for_each _ ?b _] => set (body := b) end.
  destruct (for_each_seq_inv P body 0 (n_edges buf)
              (repeat false (length (edge_starts buf)), []))
    as (st & Hrun & _ & _ & Hpost).
  - split; [|split]; simpl.
    + rewrite repeat_length. exact starts_length.
    + intros x Hx. apply lookup_repeat_false.
    + reflexivity.
  - intros k [added uniq] Hk (Hlen & Hadded & Huniq). simpl in *. unfold body.
    destruct (lookup_lt_is_Some_2 added k) as [b Hb]; [lia|].
    rewrite (proj2 (getitem_Ok _ _ _) Hb). simpl.
    pose proof (Hadded k ltac:(lia)) as Hk'. rewrite Hb in Hk'. simpl in Hk'.
    assert (Hseq : omap keep (seq 0 (S k)) = omap keep (seq 0 k) ++ omap keep [k]).
    { rewrite seq_S. simpl. now rewrite omap_app. }
    destruct b; simpl.
    + eexists. split; [reflexivity|]. split; [|split]; cbn [fst snd]; try assumption.
      * intros x Hx. rewrite Hadded by assumption. simpl.
        destruct (Nat.leb k x && _) eqn:Hdup; [|now rewrite orb_false_r].
        rewrite orb_true_r. apply andb_true_iff in Hdup as [Hle Hsame].
        apply Nat.leb_le in Hle. symmetry in Hk'.
        apply dup_before_spec in Hk' as (i & Hi & _ & Hik).
        apply dup_before_spec. exists i. repeat split; [lia | lia |].
        eapply same_pair_trans; eauto.
      * rewrite Hseq, Huniq. simpl. unfold keep at 3. rewrite <- Hk'. simpl.
        now rewrite app_nil_r.
    + destruct (candidate_lookup k) as (Hs & He & _); [lia|].
      destruct (candidate buf k) as [sk ek] eqn:Hcand. simpl in Hs, He.
      rewrite (proj2 (getitem_Ok _ _ _) Hs), (proj2 (getitem_Ok _ _ _) He). simpl.
      destruct (mark_duplicates_spec sk ek k added)
        as (added' & Hm & Hlen' & Hspec); [assumption | lia |].
      rewrite Hm. simpl. eexists. split; [reflexivity|].
      split; [|split]; cbn [fst snd]; try assumption.
      * intros x Hx. rewrite Hspec, Hadded by assumption. simpl.
        now rewrite Hcand.
      * rewrite Hseq, Huniq. simpl. unfold keep at 3. rewrite <- Hk'.
        now rewrite Hcand.
  - rewrite Hrun. simpl. now rewrite Hpost.
Qed.

Lemma dup_before_take (k j : nat) :
  k <= j -> j < n_edges buf ->
  dup_before undirected buf k j
  = existsb (fun e' => same_pair undirected e' (candidate buf j)) (take k cands).
Proof using starts_length ends_length.
  intros Hk Hj. induction k as [|k IH]; [reflexivity|].
  destruct (candidate_lookup k) as (_ & _ & Hc); [lia|].
  rewrite (take_S_r _ _ _ Hc), existsb_app. simpl.
  rewrite IH by lia. rewrite orb_false_r.
  now replace (Nat.leb k j) with true by (symmetry; apply Nat.leb_le; lia).
Qed.

Lemma unique_edges_first_occurrences :
  unique_edges undirected buf = Ok (first_occurrences undirected cands).
Proof using starts_length ends_length.
  rewrite unique_edges_spec. f_equal. unfold first_occurrences.
  rewrite cands_length. apply omap_ext_Forall, Forall_seq. intros k Hk.
  destruct (candidate_lookup k) as (_ & _ & Hc); [lia|].
  rewrite Hc. simpl. unfold keep. now rewrite dup_before_take by lia.
Qed.

End Dedup.

(** ** The buffer of candidate edges *)

Lemma for_each_preserves {X St : Type} (P : St -> Prop)
  (body : X -> St -> result St) (xs : list X) (s s' : St) :
  (forall x t t', P t -> body x t = Ok t' -> P t') ->
  P s -> for_each xs body s = Ok s' -> P s'.
Proof.
  intros Hbody. revert s. induction xs as [|x xs IH]; intros s Hs H; simpl in H.
  - now injection H as <-.
  - inv_ok H. eauto.
Qed.

Lemma append_edges_ok (spot_bc : string) (bcs : list string) (buf : edge_buffer) :
  buffer_ok buf -> buffer_ok (fold_left (append_edge spot_bc) bcs buf).
Proof.
  revert buf. induction bcs as [|bc bcs IH]; intros buf Hbuf; [assumption|].
  simpl. apply IH. destruct Hbuf as [Hs He]. unfold buffer_ok, append_edge. simpl.
  rewrite !length_app. simpl. lia.
Qed.

Lemma enumerate_neighbourhood_ok nbcs nidx neigh_bool cct cell_data cutoff i
  (buf buf' : edge_buffer) :
  buffer_ok buf ->
  enumerate_neighbourhood nbcs nidx neigh_bool cct cell_data cutoff i buf = Ok buf' ->
  buffer_ok buf'.
Proof.
  intros Hbuf H. unfold enumerate_neighbourhood in H.
  do 5 inv_ok H.
  destruct (Nat.eqb (length v3) 0); [now injection H as <-|].
  do 2 inv_ok H. injection H as <-. now apply append_edges_ok.
Qed.

Lemma enumerate_edges_ok nbcs nidx neigh_bool cct cell_data cutoff
  (buf : edge_buffer) :
  enumerate_edges nbcs nidx neigh_bool cct cell_data cutoff = Ok buf ->
  buffer_ok buf.
Proof.
  unfold enumerate_edges. destruct cell_data as [cd|]; [|discriminate].
  apply for_each_preserves.
  - intros i t t'. apply enumerate_neighbourhood_ok.
  - split; reflexivity.
Qed.

(** ** First occurrences *)

Lemma omap_lookup_source {A B : Type} (f : A -> option B) (l : list A) (b : nat)
  (y : B) :
  omap f l !! b = Some y -> exists j x, l !! j = Some x /\ f x = Some y.
Proof.
  intros H. apply list_elem_of_lookup_2, list_elem_of_omap in H as (x & Hx & Hf).
  apply list_elem_of_lookup in Hx as [j Hj]. eauto.
Qed.

Lemma omap_lookup_ordered {A B : Type} (f : A -> option B) (l : list A)
  (a b : nat) (x y : B) :
  a < b -> omap f l !! a = Some x -> omap f l !! b = Some y ->
  exists i j xi xj, i < j /\ l !! i = Some xi /\ l !! j = Some xj
                    /\ f xi = Some x /\ f xj = Some y.
Proof.
  revert a b. induction l as [|z l IH]; intros a b Hab Ha Hb; [discriminate|].
  cbn [omap list_omap] in Ha, Hb. destruct (f z) as [w|] eqn:Hz.
  - destruct a as [|a].
    + injection Ha as <-. destruct b as [|b]; [lia|]. simpl in Hb.
      destruct (omap_lookup_source _ _ _ _ Hb) as (j & xj & Hj & Hf).
      exists 0, (S j), z, xj. repeat split; auto; lia.
    + destruct b as [|b]; [lia|]. simpl in Ha, Hb.
      destruct (IH a b ltac:(lia) Ha Hb) as (i & j & xi & xj & ? & ? & ? & ? & ?).
      exists (S i), (S j), xi, xj. repeat split; auto; lia.
  - destruct (IH a b Hab Ha Hb) as (i & j & xi & xj & ? & ? & ? & ? & ?).
    exists (S i), (S j), xi, xj. repeat split; auto; lia.
Qed.

Lemma first_occurrences_kept (undirected : bool) (cands : list (string * string))
  (k : nat) (e : string * string) :
  (e0 ← cands !! k;
   if existsb (fun e' => same_pair undirected e' e0) (take k cands)
   then None else Some e0) = Some e ->
  cands !! k = Some e
  /\ forall i e', i < k -> cands !! i = Some e' -> same_pair undirected e' e = false.
Proof.
  destruct (cands !! k) as [e0|] eqn:Hk; simpl; [|discriminate].
  destruct (existsb _ _) eqn:Hex; [discriminate|]. intros [= <-].
  split; [reflexivity|]. intros i e' Hi He'.
  destruct (same_pair undirected e' e0) eqn:Hsame; [|reflexivity].
  rewrite <- Hex. symmetry. apply existsb_exists. exists e'. split; [|assumption].
  apply list_elem_of_In. apply (list_elem_of_lookup_2 _ i). rewrite lookup_take_lt; auto.
Qed.

Lemma first_occurrences_distinct (undirected : bool)
  (cands : list (string * string)) (a b : nat) (e1 e2 : string * string) :
  a < b ->
  first_occurrences undirected cands !! a = Some e1 ->
  first_occurrences undirected cands !! b = Some e2 ->
  same_pair undirected e1 e2 = false.
Proof.
  intros Hab Ha Hb. unfold first_occurrences in Ha, Hb.
  destruct (omap_lookup_ordered _ _ _ _ _ _ Hab Ha Hb)
    as (i & j & xi & xj & Hij & Hi & Hj & Hfi & Hfj).
  apply lookup_seq in Hi as [-> _]. apply lookup_seq in Hj as [-> _]. simpl in *.
  apply first_occurrences_kept in Hfi as [Hci _].
  apply first_occurrences_kept in Hfj as [_ Hnone].
  now apply (Hnone i).
Qed.

Lemma first_occurrences_source (undirected : bool)
  (cands : list (string * string)) (e : string * string) :
  e ∈ first_occurrences undirected cands ->
  exists k, cands !! k = Some e
            /\ forall i e', i < k -> cands !! i = Some e' ->
                 same_pair undirected e' e = false.
Proof.
  unfold first_occurrences. rewrite list_elem_of_omap. intros (k & _ & Hk).
  exists k. now apply first_occurrences_kept.
Qed.

Lemma first_occurrences_represent (undirected : bool)
  (cands : list (string * string)) (e : string * string) :
  e ∈ cands ->
  exists e', e' ∈ first_occurrences undirected cands
             /\ same_pair undirected e' e = true.
Proof.
  intros He. apply list_elem_of_lookup in He as [k Hk]. revert e Hk.
  induction k as [k IH] using lt_wf_ind. intros e Hk.
  destruct (existsb (fun e' => same_pair undirected e' e) (take k cands)) eqn:Hex.
  - apply existsb_exists in Hex as (e' & Hin & Hsame).
    apply list_elem_of_In, list_elem_of_lookup in Hin as [i Hi].
    apply lookup_take_Some in Hi as [Hi Hlt].
    destruct (IH i Hlt e' Hi) as (e'' & Hin'' & Hs'').
    exists e''. split; [assumption|]. eapply same_pair_trans; eauto.
  - exists e. split; [|apply same_pair_refl].
    unfold first_occurrences. apply list_elem_of_omap. exists k. split.
    + apply list_elem_of_lookup. exists k. apply lookup_seq. split; [reflexivity|].
      now apply lookup_lt_Some in Hk.
    + rewrite Hk. simpl. now rewrite Hex.
Qed.

Lemma first_occurrences_snoc (undirected : bool) (l : list (string * string))
  (e : string * string) :
  first_occurrences undirected (l ++ [e])
  = first_occurrences undirected l
    ++ (if existsb (fun e' => same_pair undirected e' e) l then [] else [e]).
Proof.
  unfold first_occurrences. rewrite length_app. simpl.
  rewrite Nat.add_1_r, seq_S, omap_app. simpl. f_equal.
  - apply omap_ext_Forall, Forall_seq. intros k Hk.
    rewrite lookup_app_l by lia. rewrite take_app_le by lia. reflexivity.
  - cbn [omap list_omap]. rewrite list_lookup_middle by reflexivity. simpl.
    rewrite take_app_length. now destruct (existsb _ l).
Qed.

Lemma first_occurrences_directed_elem (l : list (string * string))
  (e : string * string) :
  e ∈ first_occurrences false l <-> e ∈ l.
Proof.
  split.
  - intros H. apply first_occurrences_source in H as (k & Hk & _).
    now apply list_elem_of_lookup_2 in Hk.
  - intros H. apply (first_occurrences_represent false) in H as (e' & Hin & Hs).
    apply same_pair_spec in Hs as [->|[? _]]; [assumption | discriminate].
Qed.

Lemma get_edges_unique_first_occurrences (all_edges : list (string * string)) :
  get_edges_unique all_edges = first_occurrences false all_edges.
Proof.
  unfold get_edges_unique.
  induction all_edges as [|e l IH] using rev_ind; [reflexivity|].
  rewrite fold_left_app, first_occurrences_snoc. cbn [fold_left]. rewrite IH.
  destruct (existsb (fun e' => same_pair false e' e) l) eqn:Hex.
  - rewrite bool_decide_eq_true_2; [symmetry; apply app_nil_r|].
    apply first_occurrences_directed_elem.
    apply existsb_exists in Hex as (e' & Hin & Hs).
    apply same_pair_spec in Hs as [->|[? _]]; [|discriminate].
    now apply list_elem_of_In.
  - rewrite bool_decide_eq_false_2; [reflexivity|].
    rewrite first_occurrences_directed_elem. intros Hin.
    rewrite <- not_true_iff_false in Hex. apply Hex, existsb_exists.
    exists e. split; [now apply list_elem_of_In | apply same_pair_refl].
Qed.

Lemma first_occurrences_NoDup (undirected : bool) (l : list (string * string)) :
  NoDup (first_occurrences undirected l).
Proof.
  apply NoDup_alt. intros i j x Hi Hj.
  destruct (Nat.lt_total i j) as [Hlt|[->|Hlt]]; [|reflexivity|].
  - pose proof (first_occurrences_distinct _ _ _ _ _ _ Hlt Hi Hj) as H.
    now rewrite same_pair_refl in H.
  - pose proof (first_occurrences_distinct _ _ _ _ _ _ Hlt Hj Hi) as H.
    now rewrite same_pair_refl in H.
Qed.

(** C1. Whenever the enumeration of the candidate edges succeeds, the edge
    enumerator returns the candidates that are the first occurrence of their
    duplicate class, in enumeration order. No two returned edges have the same
    (source, destination) pair, nor, when [undirected], the same unordered
    pair; every returned edge is a candidate that no earlier candidate equals;
    every candidate is represented. The loop at the end of [get_edges] keeps
    the first occurrences under the directed semantics. *)
Theorem unique_edges_are_first_occurrences
  (neighbourhood_bcs : list (barcode * list barcode))
  (neighbourhood_indices : list (nat * list nat))
  (neigh_bool : list bool) (count_cell_types : bool)
  (cell_data : option (ndarray Q)) (cutoff : Q) (undirected : bool)
  (buf : edge_buffer) :
  enumerate_edges neighbourhood_bcs neighbourhood_indices neigh_bool
    count_cell_types cell_data cutoff = Ok buf ->
  let cands := zip (edge_starts buf) (edge_ends buf) in
  let unique := first_occurrences undirected cands in
  get_between_spot_edge_array neighbourhood_bcs neighbourhood_indices neigh_bool
    count_cell_types cell_data cutoff undirected = Ok unique
  /\ (forall a b e1 e2, a < b -> unique !! a = Some e1 -> unique !! b = Some e2 ->
        e1 <> e2 /\ (undirected = true -> e1 <> (e2.2, e2.1)))
  /\ (forall e, e ∈ unique ->
        exists k, cands !! k = Some e
                  /\ forall i e', i < k -> cands !! i = Some e' ->
                       e' <> e /\ (undirected = true -> e' <> (e.2, e.1)))
  /\ (forall e, e ∈ cands ->
        exists e', e' ∈ unique
                   /\ (e' = e \/ (undirected = true /\ e' = (e.2, e.1))))
  /\ (forall all_edges,
        get_edges_unique all_edges = first_occurrences false all_edges
        /\ NoDup (get_edges_unique all_edges)).
Proof.
  intros Henum cands unique.
  assert (Hno : forall e' e, same_pair undirected e' e = false ->
                  e' <> e /\ (undirected = true -> e' <> (e.2, e.1))).
  { intros e' e Hs. rewrite <- not_true_iff_false, same_pair_spec in Hs.
    split; [intros ->; apply Hs; now left | intros Hu ->; apply Hs; right; now split]. }
  destruct (enumerate_edges_ok _ _ _ _ _ _ _ Henum) as [Hs He].
  split; [|split; [|split; [|split]]].
  - unfold get_between_spot_edge_array. rewrite Henum. simpl.
    now apply unique_edges_first_occurrences.
  - intros a b e1 e2 Hab Ha Hb. apply Hno.
    exact (first_occurrences_distinct _ _ _ _ _ _ Hab Ha Hb).
  - intros e Hin. apply first_occurrences_source in Hin as (k & Hk & Hnone).
    exists k. split; [assumption|]. intros i e' Hi He'. apply Hno. eauto.
  - intros e Hin.
    destruct (first_occurrences_represent undirected cands e Hin) as (e' & ? & Hsame).
    exists e'. split; [assumption|]. now apply same_pair_spec.
  - intros all_edges. split; [apply get_edges_unique_first_occurrences|].
    rewrite get_edges_unique_first_occurrences. apply first_occurrences_NoDup.
Qed.

Lemma unique_edges_are_first_occurrences_witness :
  enumerate_edges bcs_ab indices_ab [true; true; true] false (Some props_abc) 0 = Ok buffer_ab
  /\ get_between_spot_edge_array bcs_ab indices_ab [true; true; true] false (Some props_abc) 0
       true
     = Ok [("a", "b"); ("a", "c"); ("b", "c")].
Proof.
  assert (H : enumerate_edges bcs_ab indices_ab [true; true; true] false (Some props_abc) 0
              = Ok buffer_ab) by reflexivity.
  split; [exact H|].
  exact (proj1 (unique_edges_are_first_occurrences bcs_ab indices_ab
                  [true; true; true] false (Some props_abc) 0 true buffer_ab H)).
Defined.

Lemma edge_destinations_exceed_cutoff_jointly_witness :
  rectangular props_abc
  /\ enumerate_neighbourhood bcs_ab indices_ab [true; true; true] true
       (Some props_abc) (2 # 10) 0
       {| edge_starts := []; edge_ends := []; n_edges := 0 |}
     = Ok {| edge_starts := ["a"]; edge_ends := ["c"]; n_edges := 1 |}.
Proof.
  assert (Hrect : rectangular props_abc) by (repeat constructor).
  split; [exact Hrect|].
  refine (proj1 (edge_destinations_exceed_cutoff_jointly bcs_ab indices_ab
                   [true; true; true] props_abc (2 # 10) 0
                   {| edge_starts := []; edge_ends := []; n_edges := 0 |}
                   "a" ["b"; "c"] 0 [1; 2] Hrect _ _ _ _)).
  - reflexivity.
  - reflexivity.
  - reflexivity.
  - repeat constructor.
Defined.

(** ** The dispatch of [count_core] in mixture mode *)

Lemma neighbourhoods_spec (all_bcs : list string) (neighbours : list (list nat))
  (spot_indices : list nat)
  (nb : list (nat * list nat) * list (string * list string)) :
  neighbourhoods all_bcs neighbours spot_indices = Ok nb ->
  Forall2 (fun i p => p.1 = i /\ neighbours !! i = Some p.2) spot_indices nb.1.
Proof.
  unfold neighbourhoods.
  enough (Hgen : forall acc nb',
             for_each spot_indices
               (fun spot_i (acc : list (nat * list nat) * list (string * list string)) =>
                  neighs ← getitem neighbours spot_i;
                  bc ← getitem all_bcs spot_i;
                  neigh_bcs ← take_indices all_bcs neighs;
                  Ok (acc.1 ++ [(spot_i, neighs)], acc.2 ++ [(bc, neigh_bcs)]))
               acc = Ok nb' ->
             exists new, nb'.1 = acc.1 ++ new
                         /\ Forall2 (fun i p => p.1 = i /\ neighbours !! i = Some p.2)
                              spot_indices new).
  { intros H. destruct (Hgen _ _ H) as (new & -> & HF). exact HF. }
  induction spot_indices as [|i idx IH]; intros acc nb' H; simpl in H.
  - injection H as <-. exists []. split; [now rewrite app_nil_r | constructor].
  - inv_ok H. do 3 inv_ok E. injection E as <-.
    destruct (IH _ _ H) as (new & Hnew & HF). simpl in Hnew.
    exists ((i, v0) :: new). split.
    + rewrite Hnew, <- app_assoc. reflexivity.
    + constructor; [|assumption]. split; [reflexivity|]. now apply getitem_Ok.
Qed.

Lemma existsb_eqb_elem (i : nat) (l : list nat) :
  existsb (Nat.eqb i) l = true <-> i ∈ l.
Proof.
  rewrite existsb_exists. split.
  - intros (x & Hx & Heq). apply Nat.eqb_eq in Heq as ->. now apply list_elem_of_In.
  - intros H. exists i. split; [now apply list_elem_of_In | apply Nat.eqb_refl].
Qed.

Lemma all_self_neighbours_spec (neighbours : list (list nat))
  (spot_indices : list nat) (nidx : list (nat * list nat)) :
  Forall2 (fun i p => p.1 = i /\ neighbours !! i = Some p.2) spot_indices nidx ->
  all_self_neighbours nidx = true
  <-> forall i, i ∈ spot_indices ->
        exists neighs, neighbours !! i = Some neighs /\ i ∈ neighs.
Proof.
  unfold all_self_neighbours.
  induction 1 as [|i p idx nidx [Hp Hn] _ IH]; simpl.
  - split; [intros _ i Hi; inversion Hi | reflexivity].
  - rewrite andb_true_iff, IH, existsb_eqb_elem, Hp. split.
    + intros [Hi Hrest] j Hj. apply elem_of_cons in Hj as [->|Hj]; eauto.
    + intros Hall. split.
      * destruct (Hall i ltac:(left)) as (neighs & Hl & Hin). congruence.
      * intros j Hj. apply Hall. now right.
Qed.

Lemma set_true_at_spec (idx : list nat) (mask m : list bool) :
  set_true_at mask idx = Ok m ->
  length m = length mask
  /\ forall x, default false (m !! x)
               = default false (mask !! x) || bool_decide (x ∈ idx).
Proof.
  unfold set_true_at. revert mask.
  induction idx as [|i idx IH]; intros mask H; simpl in H.
  - injection H as <-. split; [reflexivity|]. intros x.
    rewrite bool_decide_eq_false_2; [now rewrite orb_false_r | intros Hx; inversion Hx].
  - inv_ok H. destruct (Nat.ltb_spec i (length mask)) as [Hi|]; [|discriminate].
    injection E as <-. destruct (IH _ H) as [Hlen Hm].
    rewrite length_insert in Hlen. split; [assumption|]. intros x. rewrite Hm.
    destruct (decide (x = i)) as [->|Hne].
    + rewrite list_lookup_insert_eq by assumption. simpl.
      rewrite (bool_decide_eq_true_2 (i ∈ i :: idx)) by left.
      now rewrite orb_true_r.
    + rewrite list_lookup_insert_ne by auto. f_equal.
      apply bool_decide_ext. rewrite elem_of_cons. tauto.
Qed.

Lemma map_result_length {A B : Type} (f : A -> result B) (l : list A) (ys : list B) :
  map_result f l = Ok ys -> length ys = length l.
Proof.
  revert ys. induction l as [|x l IH]; intros ys H; simpl in H.
  - now injection H as <-.
  - do 2 inv_ok H. injection H as <-. simpl. f_equal. auto.
Qed.

Lemma compress_count {A : Type} (l : list A) (mask : list bool) :
  length l = length mask -> length (compress l mask) = count_true mask.
Proof.
  revert mask. induction l as [|x l IH]; intros [|b mask] H; simpl in *;
    try reflexivity; try discriminate.
  rewrite count_true_cons. destruct b; simpl; auto.
Qed.

Lemma count_compress_seq {A : Type} (d : A) (f : A -> bool) (l : list A)
  (mask : list bool) (a : nat) :
  length l = length mask ->
  count_true (map f (compress l mask))
  = count_true (map (fun x => default false (mask !! (x - a))
                              && f (default d (l !! (x - a))))
                    (seq a (length mask))).
Proof.
  revert mask a. induction l as [|y l IH]; intros [|b mask] a H; simpl in *;
    try reflexivity; try discriminate.
  injection H as H. rewrite (count_true_cons (_ && _)).
  replace (a - a) with 0 by lia. simpl.
  assert (Htail : map (fun x => default false ((b :: mask) !! (x - a))
                                && f (default d ((y :: l) !! (x - a))))
                      (seq (S a) (length mask))
                  = map (fun x => default false (mask !! (x - S a))
                                  && f (default d (l !! (x - S a))))
                      (seq (S a) (length mask))).
  { apply map_ext_in. intros x Hx. apply in_seq in Hx.
    replace (x - a) with (S (x - S a)) by lia. reflexivity. }
  rewrite Htail, <- (IH mask (S a) H).
  destruct b; simpl; [|reflexivity].
  rewrite count_true_cons. reflexivity.
Qed.

Lemma positive_count_exists {A : Type} (f : A -> bool) (l : list A) :
  Nat.ltb 0 (count_true (map f l)) = existsb f l.
Proof.
  induction l as [|x l IH]; [reflexivity|]. simpl.
  rewrite count_true_cons. destruct (f x); [reflexivity | exact IH].
Qed.

Lemma within_spot_count (adata : AnnData) (uns_key : string)
  (spot_indices : list nat) (neigh_bool : list bool) (label_set : list string)
  (cutoff : Q) (df : DataFrame Q) (vals : ndarray Q) (edges : list edge) :
  uns_frame adata uns_key = Ok df ->
  loc_columns df label_set = Ok vals ->
  within_spot_edges adata uns_key spot_indices neigh_bool label_set cutoff = Ok edges ->
  length edges
  = count_true (map (qualifying spot_indices neigh_bool vals cutoff)
                    (seq 0 (length neigh_bool))).
Proof.
  intros Hdf Hvals H. unfold within_spot_edges in H.
  inv_ok H. rewrite Hdf in H. simpl in H. rewrite Hvals in H. simpl in H.
  inv_ok H. apply map_result_length in H. rewrite H. clear H.
  apply set_true_at_spec in E as [Hlen Hsig]. rewrite repeat_length in Hlen.
  unfold mask_select in E0.
  destruct (Nat.eqb_spec (length (rows vals)) (length (zip_with andb v neigh_bool)))
    as [Hrows|]; [|discriminate].
  injection E0 as <-.
  unfold np_where. rewrite compress_count by (now rewrite length_seq).
  rewrite map_map.
  rewrite (map_ext _ (fun row => existsb (fun x => Qgtb x cutoff) row))
    by (intros row; apply positive_count_exists).
  rewrite (count_compress_seq [] _ _ _ 0 Hrows).
  rewrite length_zip_with, Hlen, Nat.min_id. f_equal.
  apply map_ext_in. intros x Hx. apply in_seq in Hx.
  rewrite Nat.sub_0_r. unfold qualifying. f_equal.
  rewrite lookup_zip_with.
  destruct (lookup_lt_is_Some_2 v x) as [b Hb]; [lia|].
  destruct (lookup_lt_is_Some_2 neigh_bool x) as [c Hc]; [lia|].
  pose proof (Hsig x) as Hx'. rewrite Hb, lookup_repeat_false in Hx'. simpl in Hx'.
  rewrite Hb, Hc. simpl. now rewrite Hx'.
Qed.

(** The guard of line 256 is the membership test [spot_i in neighs]:
    [count_core] takes the per-spot rule exactly when every enumerated spot is
    a member of its own neighbour list. *)
Lemma count_core_dispatch_on_membership (adata : AnnData) (use_label : string)
  (neighbours : list (list nat)) (spot_indices : list nat)
  (neigh_bool : option (list bool)) (label_set : option (list string))
  (cutoff : Q) (return_edges : bool) (ls : list string)
  (nb : list (nat * list nat) * list (barcode * list barcode)) :
  spot_indices <> [] ->
  dict_has (uns adata) (label_keys use_label).2 = true ->
  label_set_or_default adata (label_keys use_label).1 label_set = Ok ls ->
  neighbourhoods (obs_names adata) neighbours spot_indices = Ok nb ->
  let uns_key := (label_keys use_label).2 in
  let nbool := neigh_bool_or_default adata neigh_bool in
  let self_in_all :=
    forall i, i ∈ spot_indices ->
      exists neighs, neighbours !! i = Some neighs /\ i ∈ neighs in
  let r := count_core adata use_label neighbours (Some spot_indices) neigh_bool
             label_set true cutoff return_edges in
  (self_in_all ->
   r = short_circuit_count adata uns_key spot_indices nbool ls cutoff return_edges)
  /\ (~ self_in_all ->
      r = pairwise_count adata uns_key nb nbool ls cutoff return_edges).
Proof.
  intros Hne Hhas Hls Hnb uns_key nbool self_in_all r.
  pose proof (all_self_neighbours_spec _ _ _ (neighbourhoods_spec _ _ _ _ Hnb))
    as Hself. fold self_in_all in Hself.
  assert (Hr : r = if all_self_neighbours nb.1
                   then short_circuit_count adata uns_key spot_indices nbool ls
                          cutoff return_edges
                   else pairwise_count adata uns_key nb nbool ls cutoff return_edges).
  { unfold r, count_core, uns_key in *.
    destruct (label_keys use_label) as [obs_key ukey]. simpl in *.
    destruct spot_indices as [|i idx]; [congruence|]. simpl length. simpl Nat.eqb.
    cbv iota. rewrite Hls. simpl. fold nbool. rewrite Hnb. simpl. rewrite Hhas.
    unfold short_circuit_count, pairwise_count.
    destruct (all_self_neighbours nb.1); [reflexivity|].
    destruct (uns_frame adata ukey); simpl; [|reflexivity].
    destruct (loc_columns _ ls); reflexivity. }
  split.
  - intros Hall. rewrite Hr. now rewrite (proj2 Hself Hall).
  - intros Hnot. rewrite Hr. destruct (all_self_neighbours nb.1); [|reflexivity].
    exfalso. apply Hnot, Hself. reflexivity.
Qed.

(** On a table that meets the invariant of the neighbour sets, a spot that is
    a member of its own neighbour list is its own sole neighbour. *)
Lemma sole_self_of_membership (neighbours : list (list nat))
  (spot_indices : list nat) :
  neighbour_set_invariant neighbours ->
  (forall i, i ∈ spot_indices -> neighbours !! i = Some [i])
  <-> (forall i, i ∈ spot_indices ->
         exists neighs, neighbours !! i = Some neighs /\ i ∈ neighs).
Proof.
  intros Hinv. split.
  - intros Hsole i Hi. exists [i]. split; [auto | left].
  - intros Hall i Hi. destruct (Hall i Hi) as (neighs & Hl & Hin).
    now rewrite Hl, (Hinv i neighs Hl Hin).
Qed.

(** The invariant cannot be left out. On the table where spot [s0] has the
    neighbours [s0] and [s1], which the invariant excludes, [s0] is not its own
    sole neighbour, yet [count_core] applies the per-spot rule (count 1) and
    not the pairwise construction (count 2). *)
Remark count_core_short_circuit_beyond_sole_self :
  ~ neighbour_set_invariant [[0; 1]; [0; 1]]
  /\ ~ (forall (adata : AnnData) (use_label : string) (neighbours : list (list nat))
       (spot_indices : list nat) (neigh_bool : list bool) (label_set : list string)
       (cutoff : Q) (return_edges : bool)
       (nb : list (nat * list nat) * list (barcode * list barcode)),
       spot_indices <> [] ->
       dict_has (uns adata) (label_keys use_label).2 = true ->
       neighbourhoods (obs_names adata) neighbours spot_indices = Ok nb ->
       let sole_self := forall i, i ∈ spot_indices -> neighbours !! i = Some [i] in
       let r := count_core adata use_label neighbours (Some spot_indices)
                  (Some neigh_bool) (Some label_set) true cutoff return_edges in
       (sole_self ->
        r = short_circuit_count adata (label_keys use_label).2 spot_indices
              neigh_bool label_set cutoff return_edges)
       /\ (~ sole_self ->
           r = pairwise_count adata (label_keys use_label).2 nb neigh_bool
                 label_set cutoff return_edges)).
Proof.
  split.
  { intros Hinv. specialize (Hinv 0 [0; 1] eq_refl ltac:(left)). discriminate. }
  intros H.
  destruct (H adata_mix "deconv" [[0; 1]; [0; 1]] [0] [true; true] ["T"]
              (2 # 10) false ([(0, [0; 1])], [("s0", ["s0"; "s1"])]))
    as [_ Hpair].
  - discriminate.
  - reflexivity.
  - reflexivity.
  - assert (Hnot : ~ (forall i, i ∈ [0] -> [[0; 1]; [0; 1]] !! i = Some [i])).
    { intros Hsole. specialize (Hsole 0 ltac:(left)). discriminate. }
    specialize (Hpair Hnot). vm_compute in Hpair. discriminate.
Qed.

(** C2. In mixture mode, on a neighbour table that meets the invariant of the
    neighbour sets (a spot is in its own neighbour set only as its sole
    neighbour), [count_core] applies the per-spot rule whenever every
    enumerated spot's sole neighbour is itself, and in every other
    configuration it constructs the pairwise edges with
    [get_between_spot_edge_array]. The per-spot rule counts the enumerated
    spots that pass [neigh_bool] and whose proportion exceeds the cut-off in
    some label. *)
Theorem count_core_mixture_dispatch (adata : AnnData) (use_label : string)
  (neighbours : list (list nat)) (spot_indices : list nat)
  (neigh_bool : option (list bool)) (label_set : option (list string))
  (cutoff : Q) (return_edges : bool) (ls : list string)
  (nb : list (nat * list nat) * list (barcode * list barcode)) :
  neighbour_set_invariant neighbours ->
  spot_indices <> [] ->
  dict_has (uns adata) (label_keys use_label).2 = true ->
  label_set_or_default adata (label_keys use_label).1 label_set = Ok ls ->
  neighbourhoods (obs_names adata) neighbours spot_indices = Ok nb ->
  let uns_key := (label_keys use_label).2 in
  let nbool := neigh_bool_or_default adata neigh_bool in
  let sole_self := forall i, i ∈ spot_indices -> neighbours !! i = Some [i] in
  let r := count_core adata use_label neighbours (Some spot_indices) neigh_bool
             label_set true cutoff return_edges in
  (sole_self ->
   r = short_circuit_count adata uns_key spot_indices nbool ls cutoff return_edges)
  /\ (~ sole_self ->
      r = pairwise_count adata uns_key nb nbool ls cutoff return_edges)
  /\ (forall df vals edges,
        uns_frame adata uns_key = Ok df ->
        loc_columns df ls = Ok vals ->
        within_spot_edges adata uns_key spot_indices nbool ls cutoff = Ok edges ->
        length edges
        = count_true (map (qualifying spot_indices nbool vals cutoff)
                          (seq 0 (length nbool)))).
Proof.
  intros Hinv Hne Hhas Hls Hnb uns_key nbool sole_self r.
  destruct (count_core_dispatch_on_membership adata use_label neighbours
              spot_indices neigh_bool label_set cutoff return_edges ls nb
              Hne Hhas Hls Hnb) as [Hshort Hpair].
  pose proof (sole_self_of_membership neighbours spot_indices Hinv) as Hiff.
  fold sole_self in Hiff.
  split; [|split].
  - intros Hsole. apply Hshort, Hiff, Hsole.
  - intros Hnot. apply Hpair. intros Hall. apply Hnot, Hiff, Hall.
  - intros df vals edges. apply within_spot_count.
Qed.

Lemma count_core_mixture_dispatch_witness :
  count_core adata_mix "deconv" [[0]; [1]] (Some [0; 1]) (Some [true; true])
    (Some ["T"]) true (2 # 10) true
  = short_circuit_count adata_mix "deconv" [0; 1] [true; true] ["T"] (2 # 10) true.
Proof.
  refine (proj1 (count_core_mixture_dispatch adata_mix "deconv" [[0]; [1]]
                   [0; 1] (Some [true; true]) (Some ["T"]) (2 # 10) true
                   ["T"] ([(0, [0]); (1, [1])], [("s0", ["s0"]); ("s1", ["s1"])])
                   _ _ _ _ _) _).
  - intros i neighs Hl _. destruct i as [|[|i]]; simpl in Hl; [| |discriminate];
      now injection Hl as <-.
  - discriminate.
  - reflexivity.
  - reflexivity.
  - reflexivity.
  - intros i Hi.
    apply elem_of_cons in Hi as [->|Hi]; [reflexivity|].
    apply elem_of_cons in Hi as [->|Hi]; [reflexivity|].
    inversion Hi.
Defined.

(** ** The early exit of [run] *)

Lemma count_sets_obsm (adata adata' : AnnData) (use_label : option string)
  (use_het : string) (verbose : bool) (distance : option Q) (out : list string) :
  count adata use_label use_het verbose distance = Ok (adata', out) ->
  exists v, adata' = set_obsm adata use_het (ObsmVector v).
Proof.
  unfold count. intros H. do 4 inv_ok H. injection H as <- _.
  destruct v1 as [d|].
  - do 2 inv_ok E2. injection E2 as <-. eauto.
  - inv_ok E2. injection E2 as <-. eauto.
Qed.

Lemma run_scoring_dataset set_num_threads calc_distance calc_neighbours
  get_lrs_scores (adata : AnnData) (lrs : list string) (use_label : option string)
  (use_het : string) (distance : option Q) (min_expr : Q) (n_cpus : option Z)
  (verbose : bool) (sc : scoring) :
  run_scoring set_num_threads calc_distance calc_neighbours get_lrs_scores
    adata lrs use_label use_het distance min_expr n_cpus verbose = Ok sc ->
  exists frame,
    spot_neighbours_frame adata (sc_neighbours sc) = Ok frame
    /\ let adata1 := set_obsm adata "spot_neighbours" (ObsmTable frame) in
       if cell_het adata use_label
       then exists v, sc_adata sc = set_obsm adata1 use_het (ObsmVector v)
       else sc_adata sc = adata1.
Proof.
  unfold run_scoring. intros H. do 6 inv_ok H. injection H as <-. simpl.
  exists v2. split; [assumption|].
  change (cell_het (set_obsm adata "spot_neighbours" (ObsmTable v2)) use_label)
    with (cell_het adata use_label) in E3.
  destruct (cell_het adata use_label).
  - inv_ok E3. injection E3 as <-. simpl.
    destruct v5 as [a o]. apply count_sets_obsm in E5 as [w ->]. eauto.
  - now injection E3 as <-.
Qed.

(** C5, as stated, fails: the early exit leaves the table of neighbours in
    [adata.obsm['spot_neighbours']], which the dataset did not hold before. *)
Lemma run_early_exit_modifies_dataset :
  ~ (forall set_num_threads calc_distance calc_neighbours get_lrs_scores
       perform_spot_testing (adata : AnnData) (lrs : list string)
       (use_label : option string) (use_het : string) (distance : option Q)
       (n_pairs : Z) (adj_method : string) (pval_adj_cutoff : Q) (min_spots : Z)
       (min_expr : Q) (save_bg : bool) (n_cpus : option Z) (verbose : bool)
       (sc : scoring) (lr_scores : ndarray Q),
       run_scoring set_num_threads calc_distance calc_neighbours get_lrs_scores
         adata lrs use_label use_het distance min_expr n_cpus verbose = Ok sc ->
       filter_lrs (sc_scores sc) (sc_lrs sc) min_spots = Ok (lr_scores, []) ->
       exists out,
         run set_num_threads calc_distance calc_neighbours get_lrs_scores
           perform_spot_testing adata lrs use_label use_het distance n_pairs
           adj_method pval_adj_cutoff min_spots min_expr save_bg n_cpus verbose
         = Ok (adata, out)).
Proof.
  intros H.
  destruct (H threads_ok distance_as_given neighbours_of_pair zero_scores
              testing_stores_nothing adata_pair ["A_B"] None "cci_het" None
              1000%Z "fdr_bh" (5 # 100) 10%Z 0%Q false None false
              scoring_pair (mk_ndarray 0 [[]; []]))
    as [out Hrun].
  - vm_compute. reflexivity.
  - vm_compute. reflexivity.
  - revert Hrun. unfold run.
    replace (run_scoring _ _ _ _ adata_pair _ _ _ _ _ _ _) with (Ok scoring_pair)
      by (vm_compute; reflexivity).
    intros Hrun. vm_compute in Hrun. discriminate.
Qed.

(** C5, amended. When the filter leaves no LR pair, [run] returns without an
    exception after printing the diagnostic, and the spot test is not run: the
    dataset is the one lines 45-71 left. That dataset differs from the one
    passed in: [adata.obsm['spot_neighbours']] holds the table of neighbours,
    and [adata.obsm[use_het]] holds the counts exactly when the heterogeneity
    was counted (a label was given and is a key of [adata.uns]); every other
    slot, [adata.obsm[use_het]] included when the heterogeneity was not
    counted, is as it was. *)
Theorem run_exits_without_pairs set_num_threads calc_distance calc_neighbours
  get_lrs_scores perform_spot_testing (adata : AnnData) (lrs : list string)
  (use_label : option string) (use_het : string) (distance : option Q)
  (n_pairs : Z) (adj_method : string) (pval_adj_cutoff : Q) (min_spots : Z)
  (min_expr : Q) (save_bg : bool) (n_cpus : option Z) (verbose : bool)
  (sc : scoring) (lr_scores : ndarray Q) :
  run_scoring set_num_threads calc_distance calc_neighbours get_lrs_scores
    adata lrs use_label use_het distance min_expr n_cpus verbose = Ok sc ->
  filter_lrs (sc_scores sc) (sc_lrs sc) min_spots = Ok (lr_scores, []) ->
  run set_num_threads calc_distance calc_neighbours get_lrs_scores
    perform_spot_testing adata lrs use_label use_het distance n_pairs
    adj_method pval_adj_cutoff min_spots min_expr save_bg n_cpus verbose
  = Ok (sc_adata sc,
        sc_out sc ++ (if verbose then [valid_pairs_message 0] else [])
        ++ [exit_message])
  /\ uns (sc_adata sc) = uns adata
  /\ obs (sc_adata sc) = obs adata
  /\ obs_num (sc_adata sc) = obs_num adata
  /\ obs_names (sc_adata sc) = obs_names adata
  /\ (var_names (sc_adata sc), X (sc_adata sc)) = (var_names adata, X adata)
  /\ is_Some (obsm (sc_adata sc) !! "spot_neighbours")
  /\ (cell_het adata use_label = false \/ use_het <> "spot_neighbours" ->
      exists frame,
        spot_neighbours_frame adata (sc_neighbours sc) = Ok frame
        /\ obsm (sc_adata sc) !! "spot_neighbours" = Some (ObsmTable frame))
  /\ (cell_het adata use_label = true ->
      exists v, obsm (sc_adata sc) !! use_het = Some (ObsmVector v))
  /\ (forall key, key <> "spot_neighbours" ->
        (cell_het adata use_label = true -> key <> use_het) ->
        obsm (sc_adata sc) !! key = obsm adata !! key).
Proof.
  intros Hsc Hfilter. split.
  - unfold run. rewrite Hsc. simpl. rewrite Hfilter. simpl.
    now rewrite <- app_assoc.
  - destruct (run_scoring_dataset _ _ _ _ _ _ _ _ _ _ _ _ _ Hsc)
      as (frame & Hframe & Hdata). cbv zeta in Hdata.
    destruct (cell_het adata use_label).
    + destruct Hdata as [v ->]. simpl.
      repeat match goal with |- _ /\ _ => split end; try reflexivity.
      * destruct (decide (use_het = "spot_neighbours")) as [->|Hne].
        -- rewrite lookup_insert_eq. eauto.
        -- rewrite lookup_insert_ne by assumption. rewrite lookup_insert_eq. eauto.
      * intros [Hf|Hne]; [discriminate|]. exists frame. split; [assumption|].
        rewrite lookup_insert_ne by assumption. now rewrite lookup_insert_eq.
      * intros _. exists v. now rewrite lookup_insert_eq.
      * intros key Hk Hh. specialize (Hh eq_refl).
        rewrite !lookup_insert_ne by (apply not_eq_sym; assumption). reflexivity.
    + rewrite Hdata. simpl.
      repeat match goal with |- _ /\ _ => split end; try reflexivity.
      * rewrite lookup_insert_eq. eauto.
      * intros _. exists frame. split; [assumption|]. now rewrite lookup_insert_eq.
      * discriminate.
      * intros key Hk _. now rewrite lookup_insert_ne by (apply not_eq_sym; assumption).
Qed.

Lemma run_exits_without_pairs_witness :
  run threads_ok distance_as_given neighbours_of_pair zero_scores
    testing_stores_nothing adata_pair ["A_B"] None "cci_het" None 1000%Z
    "fdr_bh" (5 # 100) 10%Z 0%Q false None false
  = Ok (sc_adata scoring_pair, [exit_message]).
Proof.
  refine (proj1 (run_exits_without_pairs threads_ok distance_as_given
                   neighbours_of_pair zero_scores testing_stores_nothing
                   adata_pair ["A_B"] None "cci_het" None 1000%Z "fdr_bh"
                   (5 # 100) 10%Z 0%Q false None false
                   scoring_pair (mk_ndarray 0 [[]; []]) _ _)).
  - vm_compute. reflexivity.
  - vm_compute. reflexivity.
Defined.

(** ** int64 matrices *)

Lemma wrap64_range (z : Z) : int64_range (wrap64 z).
Proof.
  unfold int64_range, wrap64.
  pose proof (Z.mod_pos_bound (z + 2 ^ 63) (2 ^ 64) ltac:(lia)). lia.
Qed.

Lemma wrap64_id (z : Z) : int64_range z -> wrap64 z = z.
Proof.
  unfold int64_range, wrap64. intros H.
  rewrite Z.mod_small by lia. lia.
Qed.

Lemma wrap64_add_l (a b : Z) : wrap64 (wrap64 a + b) = wrap64 (a + b).
Proof.
  unfold wrap64. f_equal.
  replace ((a + 2 ^ 63) mod 2 ^ 64 - 2 ^ 63 + b + 2 ^ 63)%Z
    with ((a + 2 ^ 63) mod 2 ^ 64 + b)%Z by lia.
  rewrite Zplus_mod_idemp_l. f_equal. lia.
Qed.

Lemma rectangularb_spec {A : Type} (a : ndarray A) :
  rectangularb a = true <-> rectangular a.
Proof.
  unfold rectangularb, rectangular. rewrite forallb_forall, List.Forall_forall.
  split; intros H r Hr; [apply Nat.eqb_eq | apply Nat.eqb_eq]; auto.
Qed.

Lemma square_row {A : Type} (n : nat) (a : ndarray A) (i : nat) (row : list A) :
  square n a -> rows a !! i = Some row -> length row = n.
Proof.
  intros (Hrect & _ & H1) Hrow. apply rectangularb_spec in Hrect.
  unfold rectangular in Hrect. rewrite Forall_forall in Hrect.
  rewrite <- H1. apply Hrect. eapply list_elem_of_lookup_2; eauto.
Qed.

Lemma square_rows {A : Type} (n : nat) (a : ndarray A) (f : nat -> nat -> A) :
  square n a ->
  (forall i j row, rows a !! i = Some row -> j < n -> row !! j = Some (f i j)) ->
  rows a = map (fun i => map (fun j => f i j) (seq 0 n)) (seq 0 n).
Proof.
  intros Hsq Hcells. pose proof Hsq as (_ & H0 & _). unfold shape0 in H0.
  apply list_eq. intros i. rewrite list_lookup_fmap.
  destruct (rows a !! i) as [row|] eqn:Hrow.
  - pose proof (lookup_lt_Some _ _ _ Hrow) as Hi.
    rewrite lookup_seq_lt by lia. simpl. f_equal.
    pose proof (square_row _ _ _ _ Hsq Hrow) as Hlen.
    apply list_eq. intros j. rewrite list_lookup_fmap.
    destruct (decide (j < n)) as [Hj|Hj].
    + rewrite lookup_seq_lt by lia. simpl. eauto.
    + rewrite lookup_seq_ge by lia. simpl. apply lookup_ge_None. lia.
  - apply lookup_ge_None in Hrow. rewrite lookup_seq_ge by lia. reflexivity.
Qed.

Lemma zeros_square (n : nat) : square n (zeros n n).
Proof.
  unfold square, zeros, rectangularb, shape0. simpl. rewrite repeat_length.
  repeat split. apply forallb_forall. intros r Hr.
  apply repeat_spec in Hr as ->. rewrite repeat_length. apply Nat.eqb_refl.
Qed.

Lemma zeros_cell (n i j : nat) : cell i j (zeros n n) = 0%Z.
Proof.
  unfold cell, zeros. simpl.
  destruct (repeat (repeat 0%Z n) n !! i) as [row|] eqn:Hrow; [|reflexivity].
  apply list_elem_of_lookup_2, list_elem_of_In, repeat_spec in Hrow as ->. simpl.
  destruct (repeat 0%Z n !! j) as [x|] eqn:Hx; [|reflexivity].
  now apply list_elem_of_lookup_2, list_elem_of_In, repeat_spec in Hx as ->.
Qed.

Lemma shape_eq_square {A B : Type} (n : nat) (a : ndarray A) (b : ndarray B) :
  shape_eq a b = true -> square n a -> square n b.
Proof.
  unfold shape_eq, square. rewrite !andb_true_iff, !Nat.eqb_eq.
  intros [[[_ Hb] H0] H1] (_ & Ha0 & Ha1). repeat split; congruence.
Qed.

Lemma zip_rows_square {A B C : Type} (n : nat) (f : A -> B -> C)
  (a : ndarray A) (b : ndarray B) :
  square n a -> square n b ->
  square n (mk_ndarray (shape1 a) (zip_with (zip_with f) (rows a) (rows b))).
Proof.
  intros Ha Hb. pose proof Ha as (_ & Ha0 & Ha1). pose proof Hb as (_ & Hb0 & _).
  unfold shape0 in *. unfold square, shape0. simpl.
  split; [|split; [rewrite length_zip_with; lia | assumption]].
  unfold rectangularb. simpl. apply forallb_forall. intros r Hr.
  apply list_elem_of_In, elem_of_lookup_zip_with in Hr
    as (i & ra & rb & -> & Hra & Hrb).
  rewrite length_zip_with.
  rewrite (square_row _ _ _ _ Ha Hra), (square_row _ _ _ _ Hb Hrb).
  apply Nat.eqb_eq. lia.
Qed.

Lemma square_cell (n : nat) (a : ndarray Z) (i j : nat) :
  square n a -> i < n -> j < n ->
  exists row, rows a !! i = Some row /\ row !! j = Some (cell i j a).
Proof.
  intros Ha Hi Hj. pose proof Ha as (_ & Ha0 & _). unfold shape0 in Ha0.
  destruct (lookup_lt_is_Some_2 (rows a) i) as [row Hrow]; [lia|].
  pose proof (square_row _ _ _ _ Ha Hrow) as Hlen.
  destruct (lookup_lt_is_Some_2 row j) as [x Hx]; [lia|].
  exists row. split; [assumption|]. unfold cell. rewrite Hrow. simpl.
  now rewrite Hx.
Qed.

Lemma iadd_spec (n : nat) (a b c : ndarray Z) :
  iadd a b = Ok c -> square n a ->
  square n b /\ square n c
  /\ forall i j, i < n -> j < n -> cell i j c = wrap64 (cell i j a + cell i j b).
Proof.
  unfold iadd. destruct (shape_eq a b) eqn:Hshape; [|discriminate].
  intros [= <-] Ha. pose proof (shape_eq_square n a b Hshape Ha) as Hb.
  split; [assumption|]. split; [now apply zip_rows_square|].
  intros i j Hi Hj.
  destruct (square_cell n a i j Ha Hi Hj) as (ra & Hra & Hx).
  destruct (square_cell n b i j Hb Hi Hj) as (rb & Hrb & Hy).
  unfold cell at 1. simpl. rewrite lookup_zip_with, Hra. simpl. rewrite Hrb. simpl.
  rewrite lookup_zip_with, Hx. simpl. rewrite Hy. reflexivity.
Qed.

Lemma zero_where_significant (p_cutoff : Q) (int_matrix sig : ndarray Z)
  (int_pvals : ndarray Q) :
  zero_where int_matrix (gt_scalar int_pvals p_cutoff) = Ok sig ->
  sig = significant_matrix p_cutoff int_matrix int_pvals.
Proof.
  unfold zero_where. destruct (shape_eq _ _); [|discriminate].
  intros [= <-]. unfold significant_matrix, gt_scalar. simpl. f_equal.
  rewrite zip_with_fmap_r. apply zip_with_ext; auto.
  intros ra rp. now rewrite zip_with_fmap_r.
Qed.

Lemma make_frame_Ok {A : Type} (a : ndarray A) (labels : list string)
  (df : DataFrame A) :
  make_frame a labels labels = Ok df ->
  df = mk_DataFrame labels labels (rows a) /\ square (length labels) a.
Proof.
  unfold make_frame, square.
  destruct (rectangularb a) eqn:Hrect; simpl; [|discriminate].
  destruct (Nat.eqb_spec (shape0 a) (length labels)); simpl; [|discriminate].
  destruct (Nat.eqb_spec (shape1 a) (length labels)); simpl; [|discriminate].
  intros [= <-]. auto.
Qed.

Lemma square_rows_cells (n : nat) (a : ndarray Z) (f : nat -> nat -> Z) :
  square n a ->
  (forall i j, i < n -> j < n -> cell i j a = f i j) ->
  rows a = map (fun i => map (fun j => f i j) (seq 0 n)) (seq 0 n).
Proof.
  intros Ha Hcells. apply square_rows; [assumption|].
  intros i j row Hrow Hj.
  assert (Hi : i < n).
  { apply lookup_lt_Some in Hrow. destruct Ha as (_ & Ha0 & _).
    unfold shape0 in Ha0. lia. }
  destruct (square_cell n a i j Ha Hi Hj) as (row' & Hrow' & Hx).
  rewrite Hrow in Hrow'. injection Hrow' as <-. rewrite Hx. f_equal. auto.
Qed.

(** ** The loop of [run_cci] *)

Section CciLoop.

Variable rng : Type.
Variable get_interaction_matrix :
  ndarray Q -> list (barcode * list barcode) -> list (nat * list nat) ->
  list string -> list bool -> list bool -> list bool -> Q -> result (ndarray Q).
Variable get_interaction_pvals :
  ndarray Z -> Z -> ndarray Q -> list (barcode * list barcode) ->
  list (nat * list nat) -> list string -> list bool -> list bool -> list bool ->
  Q -> rng -> result (ndarray Q * rng).
Variable adata : AnnData.
Variable lr_expr : DataFrame Q.
Variable col : string.
Variable cell_data : ndarray Q.
Variable neighbourhood_bcs : list (barcode * list barcode).
Variable neighbourhood_indices : list (nat * list nat).
Variable all_set : list string.
Variables cell_prop_cutoff p_cutoff : Q.
Variable n_perms : Z.

Let n : nat := length all_set.
Let step := cci_step rng get_interaction_matrix get_interaction_pvals adata
              lr_expr col cell_data neighbourhood_bcs neighbourhood_indices
              all_set cell_prop_cutoff p_cutoff n_perms.
Let tables_of := cci_tables rng get_interaction_matrix get_interaction_pvals adata
                   lr_expr col cell_data neighbourhood_bcs neighbourhood_indices
                   all_set cell_prop_cutoff n_perms.
Let frame_of {A : Type} (m : ndarray A) : DataFrame A :=
  mk_DataFrame all_set all_set (rows m).

Lemma cci_step_spec (best_lr : string) (st st' : cci_state rng) :
  step best_lr st = Ok st' ->
  square n (raw_matrix rng st) -> square n (all_matrix rng st) ->
  exists m p,
    lr_matrices rng get_interaction_matrix get_interaction_pvals adata lr_expr
      col cell_data neighbourhood_bcs neighbourhood_indices all_set
      cell_prop_cutoff n_perms best_lr (generator rng st)
    = Ok (m, p, generator rng st')
    /\ square n (raw_matrix rng st') /\ square n (all_matrix rng st')
    /\ (forall i j, i < n -> j < n ->
          cell i j (raw_matrix rng st')
          = wrap64 (cell i j (raw_matrix rng st) + cell i j m))
    /\ (forall i j, i < n -> j < n ->
          cell i j (all_matrix rng st')
          = wrap64 (cell i j (all_matrix rng st)
                    + cell i j (significant_matrix p_cutoff m p)))
    /\ per_lr_cci_raw rng st' = <[best_lr:=frame_of m]> (per_lr_cci_raw rng st)
    /\ per_lr_cci rng st'
       = <[best_lr:=frame_of (significant_matrix p_cutoff m p)]> (per_lr_cci rng st).
Proof.
  unfold step, cci_step. intros H Hraw Hall. do 7 inv_ok H. injection H as <-.
  simpl. destruct v as [[m p] g]. simpl in *.
  apply zero_where_significant in E0 as ->.
  apply make_frame_Ok in E3 as [-> _]. apply make_frame_Ok in E4 as [-> _].
  destruct (iadd_spec n _ _ _ E1 Hraw) as (_ & Hraw' & Hrc).
  destruct (iadd_spec n _ _ _ E2 Hall) as (_ & Hall' & Hac).
  exists m, p. repeat match goal with |- _ /\ _ => split end; auto.
Qed.

Lemma cci_loop_spec (best_lrs : list string) (st st' : cci_state rng) :
  for_each best_lrs step st = Ok st' ->
  square n (raw_matrix rng st) -> square n (all_matrix rng st) ->
  exists tables,
    tables_of best_lrs (generator rng st) = Ok tables
    /\ square n (raw_matrix rng st') /\ square n (all_matrix rng st')
    /\ (forall i j, i < n -> j < n ->
          int64_range (cell i j (raw_matrix rng st)) ->
          cell i j (raw_matrix rng st')
          = wrap64 (cell i j (raw_matrix rng st)
                    + foldr Z.add 0%Z (map (fun t => cell i j t.1.2) tables)))
    /\ (forall i j, i < n -> j < n ->
          int64_range (cell i j (all_matrix rng st)) ->
          cell i j (all_matrix rng st')
          = wrap64 (cell i j (all_matrix rng st)
                    + foldr Z.add 0%Z
                        (map (fun t => cell i j (significant_matrix p_cutoff t.1.2 t.2))
                             tables)))
    /\ per_lr_cci_raw rng st'
       = fold_left (fun d t => <[t.1.1:=frame_of t.1.2]> d) tables
           (per_lr_cci_raw rng st)
    /\ per_lr_cci rng st'
       = fold_left
           (fun d t => <[t.1.1:=frame_of (significant_matrix p_cutoff t.1.2 t.2)]> d)
           tables (per_lr_cci rng st).
Proof.
  revert st. induction best_lrs as [|best_lr rest IH]; intros st H Hraw Hall.
  - simpl in H. injection H as <-. exists []. simpl.
    repeat match goal with |- _ /\ _ => split end; auto;
      intros i j _ _ Hr; rewrite Z.add_0_r; symmetry; now apply wrap64_id.
  - simpl in H. inv_ok H.
    destruct (cci_step_spec _ _ _ E Hraw Hall)
      as (m & p & Hm & Hraw1 & Hall1 & Hrc & Hac & Hdr & Hds).
    destruct (IH _ H Hraw1 Hall1)
      as (tl & Htl & Hraw' & Hall' & Hrc' & Hac' & Hdr' & Hds').
    exists ((best_lr, m, p) :: tl). unfold tables_of in *. simpl.
    rewrite Hm. simpl. rewrite Htl. simpl.
    repeat match goal with |- _ /\ _ => split end; auto.
    + intros i j Hi Hj _. rewrite Hrc' by (auto; rewrite Hrc by auto; apply wrap64_range).
      rewrite Hrc by auto. rewrite wrap64_add_l. f_equal. lia.
    + intros i j Hi Hj _. rewrite Hac' by (auto; rewrite Hac by auto; apply wrap64_range).
      rewrite Hac by auto. rewrite wrap64_add_l. f_equal. lia.
    + rewrite Hdr', Hdr. reflexivity.
    + rewrite Hds', Hds. reflexivity.
Qed.

End CciLoop.

(** ** The matrices [run_cci] stores *)

Lemma fold_left_map_eq {A B C : Type} (f : A -> B -> A) (g : C -> B) (l : list C)
  (a : A) :
  fold_left f (map g l) a = fold_left (fun a x => f a (g x)) l a.
Proof. revert a. induction l as [|x l IH]; intros a; simpl; auto. Qed.

(** The keys under which [run_cci] stores its results are distinct. *)
Ltac keys_differ :=
  let H := fresh "Hkey" in
  intros H; simpl in H;
  repeat (first [discriminate H | injection H as H]);
  apply (f_equal String.length) in H; simpl in H; lia.

Lemma elementwise_sum_cell (n : nat) (ms : list (ndarray Z)) (i j : nat) :
  i < n -> j < n ->
  cell i j (elementwise_sum n ms) = wrap64 (foldr Z.add 0%Z (map (cell i j) ms)).
Proof.
  intros Hi Hj. unfold cell at 1, elementwise_sum. simpl.
  rewrite list_lookup_fmap, lookup_seq_lt by lia. simpl.
  rewrite list_lookup_fmap, lookup_seq_lt by lia. reflexivity.
Qed.

(** When the exact sum fits an int64 cell, the cell holds the exact sum. *)
Lemma elementwise_sum_exact (n : nat) (ms : list (ndarray Z)) (i j : nat) :
  i < n -> j < n ->
  int64_range (foldr Z.add 0%Z (map (cell i j) ms)) ->
  cell i j (elementwise_sum n ms) = foldr Z.add 0%Z (map (cell i j) ms).
Proof.
  intros Hi Hj Hr. rewrite elementwise_sum_cell by assumption. now apply wrap64_id.
Qed.

(** C6. When [run_cci] completes, the matrix stored under
    [lr_cci_raw_<use_label>] is the elementwise sum (in int64 cells) of the raw
    count matrices of the tested LR pairs, and the matrix stored under
    [lr_cci_<use_label>] is the elementwise sum of their significant matrices,
    each of which is the raw matrix with the cells whose p-value exceeds
    [p_cutoff] set to zero; the raw matrices are stored per pair as they are. *)
Theorem run_cci_aggregates (rng : Type) get_data_for_counting
  get_interaction_matrix get_interaction_pvals
  (adata : AnnData) (use_label : string) (spot_mixtures : bool) (min_spots : Z)
  (sig_spots : bool) (cell_prop_cutoff p_cutoff : Q) (n_perms : Z)
  (verbose : bool) (g : rng) (adata' : AnnData) (g' : rng) (out : list string) :
  run_cci rng get_data_for_counting get_interaction_matrix get_interaction_pvals
    adata use_label spot_mixtures min_spots sig_spots cell_prop_cutoff p_cutoff
    n_perms verbose g = Ok (adata', g', out) ->
  exists all_set tables,
    run_cci_tables rng get_data_for_counting get_interaction_matrix
      get_interaction_pvals adata use_label spot_mixtures min_spots sig_spots
      cell_prop_cutoff n_perms g = Ok (all_set, tables)
    /\ let n := length all_set in
       let raw := fun t : string * ndarray Z * ndarray Q => t.1.2 in
       let sig := fun t : string * ndarray Z * ndarray Q =>
                    significant_matrix p_cutoff t.1.2 t.2 in
       uns adata' !! ("lr_cci_raw_" +:+ use_label)
       = Some (UnsCounts (mk_DataFrame all_set all_set
                            (rows (elementwise_sum n (map raw tables)))))
       /\ uns adata' !! ("lr_cci_" +:+ use_label)
          = Some (UnsCounts (mk_DataFrame all_set all_set
                               (rows (elementwise_sum n (map sig tables)))))
       /\ uns adata' !! ("per_lr_cci_raw_" +:+ use_label)
          = Some (UnsCountsDict
                    (frames_by_pair all_set (map (fun t => (t.1.1, raw t)) tables)))
       /\ uns adata' !! ("per_lr_cci_" +:+ use_label)
          = Some (UnsCountsDict
                    (frames_by_pair all_set (map (fun t => (t.1.1, sig t)) tables))).
Proof.
  intros H. unfold run_cci in H. inv_ok H. unfold run_cci_tables.
  destruct (label_keys use_label) as [obs_key uns_key].
  do 7 inv_ok H. do 2 inv_ok H. injection H as <- _ _.
  set (all_set := np_unique v0) in *. set (n := length all_set) in *.
  destruct (cci_loop_spec rng get_interaction_matrix get_interaction_pvals adata
              v5 (if sig_spots then "lr_sig_scores" else "lr_scores")
              v1.1.1.2 v1.1.2 v1.2 all_set cell_prop_cutoff p_cutoff n_perms
              v3 _ v6 E6 (zeros_square n) (zeros_square n))
    as (tables & Htables & Hraw & Hall & Hrc & Hac & Hdr & Hds).
  simpl in Htables, Hrc, Hac, Hdr, Hds.
  apply make_frame_Ok in E7 as [-> _]. apply make_frame_Ok in E8 as [-> _].
  exists all_set, tables. split.
  { rewrite E0. cbn [mbind result_bind]. fold all_set. rewrite E1.
    cbn [mbind result_bind]. rewrite E2. cbn [mbind result_bind]. rewrite E3.
    cbn [mbind result_bind]. rewrite E4. cbn [mbind result_bind]. rewrite E5.
    cbn [mbind result_bind]. rewrite Htables. reflexivity. }
  cbn zeta. unfold set_uns. cbn [uns].
  repeat match goal with |- _ /\ _ => split end.
  - rewrite !lookup_insert_ne by keys_differ. rewrite lookup_insert_eq.
    do 3 f_equal. apply square_rows_cells; [assumption|]. intros i j Hi Hj.
    rewrite Hrc by (auto; rewrite zeros_cell; unfold int64_range; lia).
    rewrite zeros_cell, Z.add_0_l, map_map. reflexivity.
  - rewrite !lookup_insert_ne by keys_differ. rewrite lookup_insert_eq.
    do 3 f_equal. apply square_rows_cells; [assumption|]. intros i j Hi Hj.
    rewrite Hac by (auto; rewrite zeros_cell; unfold int64_range; lia).
    rewrite zeros_cell, Z.add_0_l, map_map. reflexivity.
  - rewrite lookup_insert_eq. do 2 f_equal. rewrite Hdr.
    unfold frames_by_pair. now rewrite fold_left_map_eq.
  - rewrite !lookup_insert_ne by keys_differ. rewrite lookup_insert_eq.
    do 2 f_equal. rewrite Hds. unfold frames_by_pair. now rewrite fold_left_map_eq.
Qed.

Lemma run_cci_aggregates_witness :
  run_cci nat counting_data_stub matrix_stub pvals_stub adata_cci "cell_type"
    false 3 true (2 # 10) (5 # 100) 100 false 0 = Ok (adata_cci_after, 2, [])
  /\ exists all_set tables,
       run_cci_tables nat counting_data_stub matrix_stub pvals_stub adata_cci
         "cell_type" false 3 true (2 # 10) 100 0 = Ok (all_set, tables)
       /\ uns adata_cci_after !! "lr_cci_raw_cell_type"
          = Some (UnsCounts
                    (mk_DataFrame all_set all_set
                       (rows (elementwise_sum (length all_set)
                                (map (fun t => t.1.2) tables))))).
Proof.
  assert (H : run_cci nat counting_data_stub matrix_stub pvals_stub adata_cci
                "cell_type" false 3 true (2 # 10) (5 # 100) 100 false 0
              = Ok (adata_cci_after, 2, [])) by (vm_compute; reflexivity).
  split; [exact H|].
  destruct (run_cci_aggregates _ _ _ _ _ _ _ _ _ _ _ _ _ _ _ _ _ H)
    as (all_set & tables & Htables & Hraw & _).
  exists all_set, tables. split; [exact Htables | exact Hraw].
Defined.

(** ** The default distance of [count] *)



(** [float_mul] gives the product of the machine on every pair of the sample
    doubles and on the extreme pairs, and [double_0_1] and
    [double_0_7] are the values of the literals. *)
Remark float_mul_agrees_on_samples :
  Doubles.all_agree = true
  /\ Doubles.value Doubles.literals.1 = Some double_0_1
  /\ Doubles.value Doubles.literals.2 = Some double_0_7
  /\ Doubles.value Doubles.product
     = Some (float_mul (float_mul double_0_1 double_0_7) 2).
Proof. repeat split; vm_compute; reflexivity. Qed.

(** The product of doubles is rounded: [0.1 * 0.7 * 2] is the double
    0.13999999999999999, which is not the product of the three numbers. *)
Remark default_distance_is_rounded :
  float_mul (float_mul double_0_1 double_0_7) 2
  = (5044031582654955 # 36028797018963968)%Q
  /\ ~ (float_mul (float_mul double_0_1 double_0_7) 2
        == double_0_1 * double_0_7 * 2)%Q.
Proof.
  split; [vm_compute; reflexivity|].
  intros H. apply Qeq_bool_iff in H. vm_compute in H. discriminate.
Qed.




(** On three spots at the columns 0, 1 and 5 the default distance is 3: the
    third spot is a neighbour of itself only, and the first two of each
    other. *)
Example default_radius_on_line :
  count adata_line (Some "deconv") "cci_het" false None
  = Ok (set_obsm adata_line "cci_het" (ObsmVector [2; 2; 1]%Z), []).
Proof. vm_compute. reflexivity. Qed.

(** * Further properties *)

(** ** The edges the enumerator returns *)

Lemma compress_lookup {A : Type} (l : list A) (mask : list bool) (x : A) :
  x ∈ compress l mask -> exists p, l !! p = Some x /\ mask !! p = Some true.
Proof.
  revert mask. induction l as [|y l IH]; intros [|b mask] H; simpl in H;
    try (now inversion H).
  destruct b.
  - apply elem_of_cons in H as [->|H]; [exists 0; now split|].
    destruct (IH _ H) as (p & ? & ?). exists (S p). now split.
  - destruct (IH _ H) as (p & ? & ?). exists (S p). now split.
Qed.

Lemma compress_sublist {A : Type} (l : list A) (mask : list bool) :
  compress l mask `sublist_of` l.
Proof.
  revert mask. induction l as [|y l IH]; intros [|b mask]; simpl;
    try apply sublist_nil_l.
  destruct b; [apply sublist_skip | apply sublist_cons]; apply IH.
Qed.

Lemma zip_snoc {A B : Type} (l : list A) (k : list B) (x : A) (y : B) :
  length l = length k -> zip (l ++ [x]) (k ++ [y]) = zip l k ++ [(x, y)].
Proof. intros H. now rewrite zip_with_app. Qed.

Lemma append_edges_zip (spot_bc : string) (bcs : list string) (buf : edge_buffer) :
  buffer_ok buf ->
  zip (edge_starts (fold_left (append_edge spot_bc) bcs buf))
      (edge_ends (fold_left (append_edge spot_bc) bcs buf))
  = zip (edge_starts buf) (edge_ends buf) ++ map (fun bc => (spot_bc, bc)) bcs.
Proof.
  revert buf. induction bcs as [|bc bcs IH]; intros buf Hbuf; simpl.
  - now rewrite app_nil_r.
  - rewrite IH by (apply (append_edges_ok spot_bc [bc]); assumption).
    simpl. destruct Hbuf as [Hs He]. rewrite zip_snoc by lia.
    now rewrite <- app_assoc.
Qed.

Lemma enumerate_neighbourhood_links nbcs nidx neigh_bool cct cell_data cutoff i
  (buf buf' : edge_buffer) :
  buffer_ok buf ->
  Forall (links_neighbour nbcs nidx neigh_bool)
    (zip (edge_starts buf) (edge_ends buf)) ->
  enumerate_neighbourhood nbcs nidx neigh_bool cct cell_data cutoff i buf = Ok buf' ->
  Forall (links_neighbour nbcs nidx neigh_bool)
    (zip (edge_starts buf') (edge_ends buf')).
Proof.
  intros Hbuf Hall H. unfold enumerate_neighbourhood in H.
  do 5 inv_ok H.
  destruct (Nat.eqb (length v3) 0); [now injection H as <-|].
  do 2 inv_ok H. injection H as <-.
  rewrite append_edges_zip by assumption. apply Forall_app. split; [assumption|].
  apply Forall_forall. intros e He. apply list_elem_of_fmap in He as (bc & -> & Hbc).
  apply getitem_Ok in E, E0. destruct v as [spot_bc neigh_bcs]. simpl in *.
  unfold mask_select in E2, E3, E5.
  destruct (Nat.eqb (length neigh_bcs) (length v1)); [|discriminate].
  injection E2 as <-.
  destruct (Nat.eqb (length (compress neigh_bcs v1)) (length v4)); [|discriminate].
  injection E5 as <-.
  apply compress_lookup in Hbc as (q & Hq & _).
  apply list_elem_of_lookup_2, compress_lookup in Hq as (p & Hp & Hkeep).
  destruct (take_indices_lookup _ _ _ _ _ E1 Hkeep) as (k & Hk & Hnb).
  exists i, neigh_bcs, v0, p, k. simpl. repeat split; assumption.
Qed.

Lemma enumerate_edges_links nbcs nidx neigh_bool cct cell_data cutoff
  (buf : edge_buffer) :
  enumerate_edges nbcs nidx neigh_bool cct cell_data cutoff = Ok buf ->
  Forall (links_neighbour nbcs nidx neigh_bool)
    (zip (edge_starts buf) (edge_ends buf)).
Proof.
  intros H.
  enough (Hboth : buffer_ok buf
                  /\ Forall (links_neighbour nbcs nidx neigh_bool)
                       (zip (edge_starts buf) (edge_ends buf))) by apply Hboth.
  revert H. unfold enumerate_edges. destruct cell_data as [cd|]; [|discriminate].
  apply (for_each_preserves
           (fun b => buffer_ok b
                     /\ Forall (links_neighbour nbcs nidx neigh_bool)
                          (zip (edge_starts b) (edge_ends b)))).
  - intros i t t' [Hok Hall] Hstep. split.
    + eapply enumerate_neighbourhood_ok; eauto.
    + eapply enumerate_neighbourhood_links; eauto.
  - split; [split; reflexivity | constructor].
Qed.

Lemma first_occurrences_sublist (undirected : bool) (l : list (string * string)) :
  first_occurrences undirected l `sublist_of` l.
Proof.
  induction l as [|e l IH] using rev_ind; [apply sublist_nil_l|].
  rewrite first_occurrences_snoc. apply sublist_app; [assumption|].
  destruct (existsb _ l); [apply sublist_nil_l | reflexivity].
Qed.

(** X1. Every edge the enumerator returns links a spot of the neighbourhood
    list to one of the neighbours listed for it, at a position whose spot
    passes [neigh_bool]; the returned list is a sublist of the candidates, in
    their order, so it is no longer than the candidate list. *)
Theorem returned_edges_link_listed_neighbours
  (neighbourhood_bcs : list (barcode * list barcode))
  (neighbourhood_indices : list (nat * list nat))
  (neigh_bool : list bool) (count_cell_types : bool)
  (cell_data : option (ndarray Q)) (cutoff : Q) (undirected : bool)
  (edges : list (barcode * barcode)) :
  get_between_spot_edge_array neighbourhood_bcs neighbourhood_indices neigh_bool
    count_cell_types cell_data cutoff undirected = Ok edges ->
  (forall e, e ∈ edges ->
     links_neighbour neighbourhood_bcs neighbourhood_indices neigh_bool e)
  /\ exists buf,
       enumerate_edges neighbourhood_bcs neighbourhood_indices neigh_bool
         count_cell_types cell_data cutoff = Ok buf
       /\ edges `sublist_of` zip (edge_starts buf) (edge_ends buf)
       /\ length edges <= n_edges buf.
Proof.
  intros H. unfold get_between_spot_edge_array in H. inv_ok H.
  pose proof (enumerate_edges_ok _ _ _ _ _ _ _ E) as [Hs He].
  rewrite (unique_edges_first_occurrences undirected v Hs He) in H.
  injection H as <-.
  pose proof (first_occurrences_sublist undirected
                (zip (edge_starts v) (edge_ends v))) as Hsub.
  split.
  - intros e Hin. pose proof (enumerate_edges_links _ _ _ _ _ _ _ E) as Hall.
    rewrite Forall_forall in Hall. apply Hall. eapply elem_of_sublist; eauto.
  - exists v. split; [exact E|]. split; [assumption|].
    apply sublist_length in Hsub. rewrite length_zip_with in Hsub. lia.
Qed.

(** ** De-duplicating twice *)

Lemma existsb_first_occurrences (u1 u2 : bool) (l : list (string * string))
  (e : string * string) :
  (forall a b, same_pair u1 a b = true -> same_pair u2 a b = true) ->
  existsb (fun e' => same_pair u2 e' e) (first_occurrences u1 l)
  = existsb (fun e' => same_pair u2 e' e) l.
Proof.
  intros Hcoarse. apply Bool.eq_iff_eq_true. rewrite !existsb_exists. split.
  - intros (e' & Hin & Hs). exists e'. split; [|assumption].
    apply list_elem_of_In. apply list_elem_of_In in Hin.
    eapply elem_of_sublist; [exact Hin | apply first_occurrences_sublist].
  - intros (e' & Hin & Hs). apply list_elem_of_In in Hin.
    destruct (first_occurrences_represent u1 l e' Hin) as (e'' & Hin'' & Hs'').
    exists e''. split; [now apply list_elem_of_In|].
    eapply same_pair_trans; eauto.
Qed.

Lemma first_occurrences_coarser (u1 u2 : bool) (l : list (string * string)) :
  (forall a b, same_pair u1 a b = true -> same_pair u2 a b = true) ->
  first_occurrences u2 (first_occurrences u1 l) = first_occurrences u2 l.
Proof.
  intros Hcoarse. induction l as [|e l IH] using rev_ind; [reflexivity|].
  rewrite (first_occurrences_snoc u1), (first_occurrences_snoc u2).
  destruct (existsb (fun e' => same_pair u1 e' e) l) eqn:H1.
  - rewrite app_nil_r, IH.
    replace (existsb (fun e' => same_pair u2 e' e) l) with true;
      [now rewrite app_nil_r|].
    symmetry. apply existsb_exists. apply existsb_exists in H1 as (e' & ? & ?).
    exists e'. split; auto.
  - rewrite first_occurrences_snoc, IH.
    now rewrite (existsb_first_occurrences u1 u2 l e Hcoarse).
Qed.

Lemma directed_same_is_undirected_same (a b : string * string) :
  same_pair false a b = true -> same_pair true a b = true.
Proof. rewrite !same_pair_spec. intros [->|[? _]]; [now left | discriminate]. Qed.

Lemma unique_edges_of_list (undirected : bool) (edges : list (string * string)) :
  unique_edges undirected (buffer_of_edges edges)
  = Ok (first_occurrences undirected edges).
Proof.
  rewrite unique_edges_first_occurrences.
  - unfold buffer_of_edges. simpl. f_equal. f_equal. apply zip_fst_snd.
  - unfold buffer_of_edges. simpl. apply length_map.
  - unfold buffer_of_edges. simpl. apply length_map.
Qed.

(** X2. De-duplicating the result of a directed enumeration under the
    undirected rule gives the result of the undirected enumeration; the
    de-duplication changes nothing when it is applied a second time; and the
    undirected result is no longer than the directed one. *)
Theorem directed_then_undirected
  (neighbourhood_bcs : list (barcode * list barcode))
  (neighbourhood_indices : list (nat * list nat))
  (neigh_bool : list bool) (count_cell_types : bool)
  (cell_data : option (ndarray Q)) (cutoff : Q)
  (directed undirected : list (barcode * barcode)) :
  get_between_spot_edge_array neighbourhood_bcs neighbourhood_indices neigh_bool
    count_cell_types cell_data cutoff false = Ok directed ->
  get_between_spot_edge_array neighbourhood_bcs neighbourhood_indices neigh_bool
    count_cell_types cell_data cutoff true = Ok undirected ->
  unique_edges true (buffer_of_edges directed) = Ok undirected
  /\ unique_edges true (buffer_of_edges undirected) = Ok undirected
  /\ unique_edges false (buffer_of_edges directed) = Ok directed
  /\ length undirected <= length directed.
Proof.
  unfold get_between_spot_edge_array. intros Hd Hu. inv_ok Hd.
  rewrite E in Hu. simpl in Hu.
  pose proof (enumerate_edges_ok _ _ _ _ _ _ _ E) as [Hs He].
  rewrite (unique_edges_first_occurrences false v Hs He) in Hd.
  rewrite (unique_edges_first_occurrences true v Hs He) in Hu.
  injection Hd as <-. injection Hu as <-.
  rewrite !unique_edges_of_list.
  pose proof (first_occurrences_coarser false true
                (zip (edge_starts v) (edge_ends v))
                directed_same_is_undirected_same) as Hcollapse.
  repeat match goal with |- _ /\ _ => split end.
  - now rewrite Hcollapse.
  - now rewrite first_occurrences_coarser by auto.
  - now rewrite first_occurrences_coarser by auto.
  - rewrite <- Hcollapse. apply sublist_length, first_occurrences_sublist.
Qed.

(** ** [count_core] on discrete labels *)

Lemma compress_none {A : Type} (l : list A) (mask : list bool) :
  Forall (fun b => b = false) mask -> compress l mask = [].
Proof.
  intros H. revert l. induction H as [|b mask -> _ IH]; intros [|x l]; simpl; auto.
Qed.

Lemma interact_rows_none (cell_data : ndarray Q) (cutoff : Q) (ks : list nat)
  (mask : list bool) :
  (forall row, row ∈ rows cell_data ->
     length row = shape1 cell_data
     /\ forallb (fun x => Qgtb x cutoff) row = false) ->
  interact_rows cell_data cutoff ks = Ok mask ->
  Forall (fun b => b = false) mask.
Proof.
  intros Hrows H. unfold interact_rows in H. inv_ok H. injection H as <-.
  rewrite !map_map. apply Forall_forall. intros b Hb.
  apply list_elem_of_fmap in Hb as (row & -> & Hrow).
  assert (Hin : row ∈ rows cell_data).
  { apply list_elem_of_lookup in Hrow as [p Hp].
    destruct (take_indices_lookup _ _ _ _ _ E Hp) as (k & _ & Hk).
    eapply list_elem_of_lookup_2; eauto. }
  destruct (Hrows row Hin) as [Hlen Hall].
  rewrite <- Hlen, <- (length_map (fun x => Qgtb x cutoff) row).
  now rewrite count_true_all, forallb_id_map.
Qed.

Lemma one_hot_rows (cell_types label_set : list string) (a b : string) :
  a ∈ label_set -> b ∈ label_set -> a <> b ->
  forall row, row ∈ rows (one_hot cell_types label_set) ->
    length row = shape1 (one_hot cell_types label_set)
    /\ forallb (fun x => Qgtb x 0) row = false.
Proof.
  intros Ha Hb Hab row Hrow. unfold one_hot in *. simpl in *.
  apply list_elem_of_fmap in Hrow as (ct & -> & _). split; [apply length_map|].
  rewrite <- not_true_iff_false. intros Hall.
  rewrite forallb_forall in Hall.
  assert (Heq : forall lbl, lbl ∈ label_set -> ct = lbl).
  { intros lbl Hl. apply String.eqb_eq.
    assert (Hx : Qgtb (if String.eqb ct lbl then 1%Q else 0%Q) 0 = true).
    { apply Hall. apply in_map_iff. exists lbl. split; [reflexivity|].
      now apply list_elem_of_In. }
    destruct (String.eqb ct lbl); [reflexivity | discriminate Hx]. }
  apply Hab. now rewrite <- (Heq a Ha), <- (Heq b Hb).
Qed.

Lemma enumerate_edges_none nbcs nidx neigh_bool (cell_data : ndarray Q) cutoff
  (buf : edge_buffer) :
  (forall row, row ∈ rows cell_data ->
     length row = shape1 cell_data
     /\ forallb (fun x => Qgtb x cutoff) row = false) ->
  enumerate_edges nbcs nidx neigh_bool true (Some cell_data) cutoff = Ok buf ->
  buf = {| edge_starts := []; edge_ends := []; n_edges := 0 |}.
Proof.
  intros Hrows. unfold enumerate_edges.
  apply (for_each_preserves
           (fun b => b = {| edge_starts := []; edge_ends := []; n_edges := 0 |}));
    [|reflexivity].
  intros i t t' -> H. unfold enumerate_neighbourhood in H. do 5 inv_ok H.
  destruct (Nat.eqb (length v3) 0); [now injection H as <-|].
  do 2 inv_ok H. injection H as <-.
  apply (interact_rows_none _ _ _ _ Hrows) in E4.
  unfold mask_select in E5. destruct (Nat.eqb _ _); [|discriminate].
  injection E5 as <-. now rewrite compress_none.
Qed.

(** X3. On discrete labels (absolute mode) a destination must carry every
    label of [label_set] at once: as soon as [label_set] holds two different
    labels, which is the case for the default [label_set] of a column with two
    cell types, [count_core] finds no edge and counts 0. *)
Theorem count_core_discrete_two_labels (adata : AnnData) (use_label : string)
  (neighbours : list (list nat)) (spot_indices : list nat)
  (neigh_bool : option (list bool)) (label_set : option (list string))
  (spot_mixtures : bool) (cutoff : Q) (return_edges : bool)
  (ls : list string) (a b : string) (r : count_result) :
  spot_mixtures && dict_has (uns adata) (label_keys use_label).2 = false ->
  label_set_or_default adata (label_keys use_label).1 label_set = Ok ls ->
  a ∈ ls -> b ∈ ls -> a <> b ->
  count_core adata use_label neighbours (Some spot_indices) neigh_bool label_set
    spot_mixtures cutoff return_edges = Ok r ->
  r = if return_edges then Edges [] else Count 0.
Proof.
  intros Hmode Hls Ha Hb Hab H. unfold count_core in H.
  destruct (label_keys use_label) as [obs_key uns_key]. simpl in *.
  destruct (Nat.eqb (length spot_indices) 0); [now injection H as <-|].
  rewrite Hls in H. simpl in H. inv_ok H. rewrite Hmode in H.
  destruct (dict_get (obs adata) obs_key) as [cts|] eqn:Hc; simpl in H;
    [|discriminate].
  destruct (get_between_spot_edge_array _ _ _ _ _ _ _) as [el|] eqn:Hg;
    simpl in H; [|discriminate].
  injection H as <-.
  unfold get_between_spot_edge_array in Hg. inv_ok Hg.
  apply (enumerate_edges_none _ _ _ _ _ _ (one_hot_rows cts ls a b Ha Hb Hab)) in E0.
  subst. injection Hg as <-. now destruct return_edges.
Qed.

(** ** What [count] stores *)

Lemma count_true_map_le {A : Type} (f : A -> bool) (l : list A) :
  count_true (map f l) <= length l.
Proof. rewrite <- (length_map f l). apply count_true_le. Qed.

Lemma map_result_Forall {A B : Type} (f : A -> result B) (P : B -> Prop)
  (l : list A) (ys : list B) :
  (forall x y, x ∈ l -> f x = Ok y -> P y) ->
  map_result f l = Ok ys -> Forall P ys.
Proof.
  revert ys. induction l as [|x l IH]; intros ys Hf H; simpl in H.
  - injection H as <-. constructor.
  - destruct (f x) as [y|] eqn:Hx; simpl in H; [|discriminate].
    destruct (map_result f l) as [ys'|] eqn:Hl; simpl in H; [|discriminate].
    injection H as <-. constructor.
    + apply (Hf x); [left | assumption].
    + apply IH; [|reflexivity]. intros x' y' Hin. apply Hf. now right.
Qed.

(** X4. [count] changes nothing but [adata.obsm[use_het]]: there it stores
    one count per spot in between-spot mode and one per row of the label frame
    in within-spot mode; each count lies between 0 and the number of columns
    of the frame. It prints its message exactly when [verbose] is set. *)
Theorem count_stores_bounded_counts (adata adata' : AnnData)
  (use_label : option string) (use_het : string) (verbose : bool)
  (distance : option Q) (out : list string) :
  count adata use_label use_het verbose distance = Ok (adata', out) ->
  let within := match distance with
                | Some d => Qeq_bool d 0
                | None => false
                end in
  out = (if verbose then [count_message use_het] else [])
  /\ uns adata' = uns adata /\ obs adata' = obs adata
  /\ obs_num adata' = obs_num adata /\ obs_names adata' = obs_names adata
  /\ (var_names adata', X adata') = (var_names adata, X adata)
  /\ (forall key, key <> use_het -> obsm adata' !! key = obsm adata !! key)
  /\ exists v,
       obsm adata' !! use_het = Some (ObsmVector v)
       /\ (within = false -> length v = length (obs_names adata))
       /\ forall df, use_label_frame adata use_label = Ok df ->
            (within = true -> length v = length (df_rows df))
            /\ (Forall (fun row => length row = length (df_columns df)) (df_rows df) ->
                Forall (fun c => (0 <= c <= Z.of_nat (length (df_columns df)))%Z) v).
Proof.
  intros H within. unfold count in H.
  destruct (spatial_libraries adata) as [libs|] eqn:Hlibs; simpl in H; [|discriminate].
  destruct (getitem libs 0) as [first|] eqn:Hfirst; simpl in H; [|discriminate].
  destruct (count_distance adata first.1 distance) as [dist|] eqn:Hdist;
    simpl in H; [|discriminate].
  assert (Hmode : dist = None <-> within = true).
  { unfold count_distance in Hdist. unfold within. destruct distance as [d|].
    - destruct (Qeq_bool d 0); simpl in Hdist; injection Hdist as <-;
        split; congruence.
    - simpl in Hdist. destruct (default_distance adata first.1); simpl in Hdist;
        [injection Hdist as <-; split; congruence | discriminate]. }
  destruct dist as [d|].
  - destruct (coordinates adata) as [coor|] eqn:Hcoor; simpl in H; [|discriminate].
    destruct (map_result _ (obs_names adata)) as [counts|] eqn:Hcounts;
      simpl in H; [|discriminate].
    injection H as <- <-. simpl.
    repeat match goal with |- _ /\ _ => split end; try reflexivity.
    + intros key Hk. now rewrite lookup_insert_ne.
    + exists counts. rewrite lookup_insert_eq. split; [reflexivity|]. split.
      * intros _. now apply map_result_length in Hcounts.
      * intros df Hdf. split.
        { intros Hw. apply Hmode in Hw. discriminate. }
        intros _. eapply map_result_Forall; [|exact Hcounts].
        intros spot c _ Hc. simpl in Hc.
        destruct (count_neighbours adata coor d spot) as [ns|]; simpl in Hc;
          [|discriminate].
        rewrite Hdf in Hc. simpl in Hc. unfold count_cell_types_near in Hc.
        destruct (loc_rows df ns); simpl in Hc; [|discriminate].
        injection Hc as <-. split; [lia|]. apply inj_le.
        etransitivity; [apply count_true_map_le|]. now rewrite length_seq.
  - destruct (use_label_frame adata use_label) as [df0|] eqn:Hdf0; simpl in H;
      [|discriminate].
    injection H as <- <-. simpl.
    repeat match goal with |- _ /\ _ => split end; try reflexivity.
    + intros key Hk. now rewrite lookup_insert_ne.
    + eexists. rewrite lookup_insert_eq. split; [reflexivity|]. split.
      * intros Hw. destruct Hmode as [Hm _]. rewrite Hm in Hw by reflexivity.
        discriminate.
      * intros df Hdf. injection Hdf as <-.
        split; [intros _; apply length_map|].
        intros Hrect. apply Forall_fmap. eapply Forall_impl; [exact Hrect|].
        intros row Hrow. simpl. split; [lia|]. apply inj_le.
        rewrite <- Hrow. apply count_true_map_le.
Qed.

(** X5. [count] reads the library metadata before it looks at [distance]:
    without [adata.uns["spatial"]] it raises [KeyError], and with an empty
    dict there it raises [IndexError], also for [distance=0] and for a given
    distance, which make no use of the metadata. *)
Theorem count_needs_spatial_metadata (adata : AnnData) (use_label : option string)
  (use_het : string) (verbose : bool) (distance : option Q) :
  (uns adata !! "spatial" = None ->
   count adata use_label use_het verbose distance = Raise (KeyError "spatial"))
  /\ (uns adata !! "spatial" = Some (UnsSpatial []) ->
      count adata use_label use_het verbose distance = Raise IndexError).
Proof.
  split; intros H; unfold count, spatial_libraries, dict_get; now rewrite H.
Qed.

(** ** A larger distance *)

Lemma map_result_elem {A B : Type} (f : A -> result B) (l : list A) (ys : list B)
  (x : A) :
  map_result f l = Ok ys -> x ∈ l -> exists y, f x = Ok y /\ y ∈ ys.
Proof.
  revert ys. induction l as [|z l IH]; intros ys H Hx; [inversion Hx|].
  simpl in H. destruct (f z) as [y|] eqn:Hz; simpl in H; [|discriminate].
  destruct (map_result f l) as [ys'|] eqn:Hl; simpl in H; [|discriminate].
  injection H as <-. apply elem_of_cons in Hx as [->|Hx].
  - exists y. split; [assumption | left].
  - destruct (IH _ eq_refl Hx) as (y' & ? & ?). exists y'. split; [assumption | now right].
Qed.

Lemma map_result_elem_inv {A B : Type} (f : A -> result B) (l : list A)
  (ys : list B) (y : B) :
  map_result f l = Ok ys -> y ∈ ys -> exists x, x ∈ l /\ f x = Ok y.
Proof.
  revert ys. induction l as [|z l IH]; intros ys H Hy; simpl in H.
  - injection H as <-. inversion Hy.
  - destruct (f z) as [y0|] eqn:Hz; simpl in H; [|discriminate].
    destruct (map_result f l) as [ys'|] eqn:Hl; simpl in H; [|discriminate].
    injection H as <-. apply elem_of_cons in Hy as [->|Hy].
    + exists z. split; [left | assumption].
    + destruct (IH _ eq_refl Hy) as (x & ? & ?). exists x. split; [now right | assumption].
Qed.

Lemma square_le_of_abs_le (d1 d2 : Q) :
  (Qabs d1 <= Qabs d2)%Q -> (d1 * d1 <= d2 * d2)%Q.
Proof.
  intros H.
  assert (Hsq : forall d : Q, (d * d == Qabs d * Qabs d)%Q).
  { intros d. rewrite <- Qabs_Qmult. symmetry. apply Qabs_pos.
    unfold Qle, Qmult. simpl. nia. }
  rewrite (Hsq d1), (Hsq d2).
  apply Qmult_le_compat_nonneg; split; auto using Qabs_nonneg.
Qed.

Lemma query_ball_point_mono (points : list (Q * Q)) (x : Q * Q) (d1 d2 : Q)
  (i : nat) :
  (Qabs d1 <= Qabs d2)%Q ->
  i ∈ query_ball_point points x d1 -> i ∈ query_ball_point points x d2.
Proof.
  intros Hd. unfold query_ball_point. rewrite !np_where_elem, !list_lookup_fmap.
  destruct (points !! i) as [p|]; simpl; [|discriminate].
  intros [= H]. f_equal. unfold within_ball in *.
  apply Qle_bool_iff in H. apply Qle_bool_iff.
  eapply Qle_trans; [exact H|]. now apply square_le_of_abs_le.
Qed.

Lemma count_neighbours_mono (adata : AnnData) (coor : list (Q * Q)) (d1 d2 : Q)
  (spot : string) (ns1 ns2 : list string) :
  (Qabs d1 <= Qabs d2)%Q ->
  count_neighbours adata coor d1 spot = Ok ns1 ->
  count_neighbours adata coor d2 spot = Ok ns2 ->
  forall b, b ∈ ns1 -> b ∈ ns2.
Proof.
  unfold count_neighbours. intros Hd H1 H2 b Hb.
  destruct (dict_get (obs_num adata) "imagerow") as [rws|]; simpl in *; [|discriminate].
  destruct (dict_get (obs_num adata) "imagecol") as [cls|]; simpl in *; [|discriminate].
  destruct (get_loc (obs_names adata) spot) as [pos|]; simpl in *; [|discriminate].
  destruct (getitem rws pos) as [r|]; simpl in *; [|discriminate].
  destruct (getitem cls pos) as [c|]; simpl in *; [|discriminate].
  apply list_elem_of_lookup in Hb as [p Hp].
  destruct (take_indices_lookup _ _ _ _ _ H1 Hp) as (k & Hk & Hname).
  apply list_elem_of_lookup_2 in Hk.
  apply (query_ball_point_mono _ _ _ _ _ Hd) in Hk.
  destruct (take_indices_elem _ _ _ _ H2 Hk) as (b' & Hb' & Hin).
  rewrite Hname in Hb'. now injection Hb' as <-.
Qed.

Lemma loc_rows_mono {A : Type} (df : DataFrame A) (ns1 ns2 : list string)
  (sel1 sel2 : list (list A)) :
  (forall b, b ∈ ns1 -> b ∈ ns2) ->
  loc_rows df ns1 = Ok sel1 -> loc_rows df ns2 = Ok sel2 ->
  forall row, row ∈ sel1 -> row ∈ sel2.
Proof.
  unfold loc_rows. intros Hsub H1 H2 row Hrow.
  destruct (map_result (get_loc (df_index df)) ns1) as [pos1|] eqn:Hp1;
    simpl in H1; [|discriminate].
  destruct (map_result (get_loc (df_index df)) ns2) as [pos2|] eqn:Hp2;
    simpl in H2; [|discriminate].
  apply list_elem_of_lookup in Hrow as [p Hp].
  destruct (take_indices_lookup _ _ _ _ _ H1 Hp) as (k & Hk & Hr).
  apply list_elem_of_lookup_2 in Hk.
  destruct (map_result_elem_inv _ _ _ _ Hp1 Hk) as (b & Hb & Hloc).
  destruct (map_result_elem _ _ _ _ Hp2 (Hsub b Hb)) as (k' & Hloc' & Hk').
  rewrite Hloc in Hloc'. injection Hloc' as <-.
  destruct (take_indices_elem _ _ _ _ H2 Hk') as (row' & Hr' & Hin).
  rewrite Hr in Hr'. now injection Hr' as <-.
Qed.

Lemma count_true_positive (l : list bool) :
  Nat.ltb 0 (count_true l) = true <-> true ∈ l.
Proof.
  induction l as [|b l IH]; simpl.
  - split; [discriminate | intros H; inversion H].
  - rewrite count_true_cons, elem_of_cons. destruct b.
    + split; [now left | reflexivity].
    + rewrite IH. split; [now right | intros [?|?]; [discriminate | assumption]].
Qed.

Lemma count_true_mono {A : Type} (f g : A -> bool) (l : list A) :
  (forall x, f x = true -> g x = true) ->
  count_true (map f l) <= count_true (map g l).
Proof.
  intros Hfg. induction l as [|x l IH]; [reflexivity|]. simpl.
  rewrite !count_true_cons. specialize (Hfg x).
  destruct (f x), (g x); try lia; discriminate Hfg; reflexivity.
Qed.

(** X6. A distance that is larger in absolute value never loses a
    neighbour and never lowers a count (the range query takes a negative
    distance for its absolute value): for [|d1| <= |d2|], in particular for
    [0 <= d1 <= d2], the neighbours [count] finds for a spot under [d1] are
    among those it finds under [d2], and the number of cell types counted for
    the spot under [d1] is at most the number under [d2]. *)
Theorem count_grows_with_distance (adata : AnnData) (coor : list (Q * Q))
  (d1 d2 : Q) (spot : barcode) (ns1 ns2 : list barcode) (df : DataFrame Q)
  (c1 c2 : Z) :
  (Qabs d1 <= Qabs d2)%Q ->
  count_neighbours adata coor d1 spot = Ok ns1 ->
  count_neighbours adata coor d2 spot = Ok ns2 ->
  count_cell_types_near df ns1 = Ok c1 ->
  count_cell_types_near df ns2 = Ok c2 ->
  (forall b, b ∈ ns1 -> b ∈ ns2) /\ (c1 <= c2)%Z.
Proof.
  intros Hd Hn1 Hn2 Hc1 Hc2.
  pose proof (count_neighbours_mono _ _ _ _ _ _ _ Hd Hn1 Hn2) as Hsub.
  split; [exact Hsub|].
  unfold count_cell_types_near in Hc1, Hc2.
  destruct (loc_rows df ns1) as [sel1|] eqn:Hs1; simpl in Hc1; [|discriminate].
  destruct (loc_rows df ns2) as [sel2|] eqn:Hs2; simpl in Hc2; [|discriminate].
  injection Hc1 as <-. injection Hc2 as <-. apply inj_le.
  apply count_true_mono. intros j Hj.
  apply count_true_positive in Hj. apply count_true_positive.
  apply list_elem_of_omap in Hj as (row' & Hin & Hlook).
  apply list_elem_of_omap. exists row'. split; [|assumption].
  apply list_elem_of_fmap in Hin as (row & -> & Hrow).
  apply list_elem_of_fmap. exists row. split; [reflexivity|].
  eapply loc_rows_mono; eauto.
Qed.

(** ** The neighbouring grids *)

Lemma zrange_elem (a b x : Z) : x ∈ zrange a b <-> (a <= x < b)%Z.
Proof.
  unfold zrange. rewrite list_elem_of_fmap. split.
  - intros (k & -> & Hk). apply elem_of_seq in Hk. lia.
  - intros Hx. exists (Z.to_nat (x - a)). split; [lia|]. apply elem_of_seq. lia.
Qed.

Lemma concat_elem {A : Type} (x : A) (ls : list (list A)) :
  x ∈ concat ls <-> exists l, x ∈ l /\ l ∈ ls.
Proof.
  rewrite list_elem_of_In, in_concat. split; intros (l & H1 & H2); exists l;
    rewrite ?list_elem_of_In in *; tauto.
Qed.

Lemma grid_position (num_row i j : Z) :
  (0 <= i < num_row)%Z ->
  ((j * num_row + i) mod num_row = i /\ (j * num_row + i) / num_row = j)%Z.
Proof.
  intros Hi. split.
  - symmetry. apply (Z.mod_unique_pos _ _ j); lia.
  - symmetry. apply (Z.div_unique_pos _ _ _ i); lia.
Qed.

Lemma grid_neighbours_elem (num_row num_col radius n g : Z) :
  (0 < num_row)%Z -> (0 < num_col)%Z -> (0 <= n < num_row * num_col)%Z ->
  g ∈ grid_neighbours num_row num_col radius n
  <-> (0 <= g < num_row * num_col)%Z
      /\ (Z.abs (g mod num_row - n mod num_row) <= radius)%Z
      /\ (Z.abs (g / num_row - n / num_row) <= radius)%Z
      /\ ~ (g = n /\ (0 < radius)%Z).
Proof.
  intros HR HC Hn. unfold grid_neighbours.
  rewrite list_elem_of_filter, elem_of_remove_dups, concat_elem.
  set (row := (n mod num_row)%Z). set (col := (n / num_row)%Z).
  split.
  - intros [Hf (l & Hg & Hl)].
    apply list_elem_of_fmap in Hl as (i & -> & Hi).
    apply list_elem_of_fmap in Hg as (j & -> & Hj).
    apply zrange_elem in Hi, Hj.
    apply andb_prop_elim in Hf as [Hself Hminus].
    apply negb_prop_elim in Hself, Hminus.
    destruct ((0 <=? i)%Z && (i <? num_row)%Z && (0 <=? j)%Z && (j <? num_col)%Z)
      eqn:Hin.
    2: { exfalso. apply Hminus. now rewrite Z.eqb_refl. }
    apply andb_true_iff in Hin as [Hin Hj2]. apply andb_true_iff in Hin as [Hin Hj1].
    apply andb_true_iff in Hin as [Hi1 Hi2].
    apply Z.leb_le in Hi1, Hj1. apply Z.ltb_lt in Hi2, Hj2.
    destruct (grid_position num_row i j ltac:(lia)) as [Hm Hd].
    rewrite Hm, Hd. repeat split; try nia; try lia.
    intros [Heq Hr]. apply Hself. apply andb_prop_intro. split.
    + rewrite Heq, Z.eqb_refl. exact I.
    + apply Is_true_true. now apply Z.ltb_lt.
  - intros (Hg & Hrow & Hcol & Hself).
    pose proof (Z.mod_pos_bound g num_row HR) as Hgm.
    pose proof (Z.mod_pos_bound n num_row HR) as Hnm.
    assert (Hgd : (0 <= g / num_row < num_col)%Z).
    { split; [apply Z.div_pos; lia | apply Z.div_lt_upper_bound; lia]. }
    assert (Hval : ((g / num_row) * num_row + g mod num_row = g)%Z).
    { pose proof (Z.div_mod g num_row). lia. }
    split.
    + apply andb_prop_intro. split; apply negb_prop_intro.
      * intros H. apply andb_prop_elim in H as [H1 H2]. apply Hself. split.
        { apply Z.eqb_eq. now apply Is_true_true. }
        { apply Z.ltb_lt. now apply Is_true_true. }
      * intros H. apply Is_true_true, Z.eqb_eq in H. lia.
    + exists (map (fun j => if (0 <=? g mod num_row)%Z && (g mod num_row <? num_row)%Z
                               && (0 <=? j)%Z && (j <? num_col)%Z
                            then (j * num_row + g mod num_row)%Z else (-1)%Z)
                  (zrange (col - radius) (col + 1 + radius))).
      split.
      * apply list_elem_of_fmap. exists (g / num_row)%Z. split.
        { replace (0 <=? g mod num_row)%Z with true by (symmetry; apply Z.leb_le; lia).
          replace (g mod num_row <? num_row)%Z with true
            by (symmetry; apply Z.ltb_lt; lia).
          replace (0 <=? g / num_row)%Z with true by (symmetry; apply Z.leb_le; lia).
          replace (g / num_row <? num_col)%Z with true
            by (symmetry; apply Z.ltb_lt; lia).
          simpl. lia. }
        apply zrange_elem. unfold col. lia.
      * apply list_elem_of_fmap. exists (g mod num_row)%Z. split; [reflexivity|].
        apply zrange_elem. unfold row. lia.
Qed.

(** X7. [create_grids] returns one neighbour list per grid. The list of grid
    [n] has no repetition and holds exactly the grids of the sample whose row
    and column differ from those of [n] by at most [radius], without [n]
    itself when the radius is positive; so it never holds the filler [-1] or
    an index outside the sample, and being a neighbour is symmetric. *)
Theorem create_grids_neighbour_lists (adata : AnnData) (num_row num_col radius : Z)
  (grid_nbs : list (list Z)) :
  create_grids adata num_row num_col radius = Ok grid_nbs ->
  length grid_nbs = Z.to_nat (num_row * num_col)
  /\ forall n, (0 <= n < num_row * num_col)%Z ->
       exists ln,
         grid_nbs !! Z.to_nat n = Some ln
         /\ NoDup ln
         /\ (forall g, g ∈ ln <->
               (0 <= g < num_row * num_col)%Z
               /\ (Z.abs (g mod num_row - n mod num_row) <= radius)%Z
               /\ (Z.abs (g / num_row - n / num_row) <= radius)%Z
               /\ ~ (g = n /\ (0 < radius)%Z))
         /\ (forall g lg, grid_nbs !! Z.to_nat g = Some lg ->
               (0 <= g < num_row * num_col)%Z -> g ∈ ln <-> n ∈ lg).
Proof.
  intros H. apply create_grids_Ok in H as [-> Hpos]. split.
  - rewrite length_map. unfold zrange. rewrite length_map, length_seq. f_equal. lia.
  - intros n Hn. destruct Hpos as [HR HC]; [lia|].
    assert (Hlook : forall m, (0 <= m < num_row * num_col)%Z ->
              map (grid_neighbours num_row num_col radius)
                (zrange 0 (num_row * num_col)) !! Z.to_nat m
              = Some (grid_neighbours num_row num_col radius m)).
    { intros m Hm. rewrite list_lookup_fmap.
      replace (Z.to_nat m) with (Z.to_nat (m - 0)) by (f_equal; lia).
      now rewrite zrange_lookup by lia. }
    exists (grid_neighbours num_row num_col radius n).
    split; [now apply Hlook|]. split; [|split].
    + unfold grid_neighbours. apply NoDup_filter, NoDup_remove_dups.
    + intros g. now apply grid_neighbours_elem.
    + intros g lg Hlg Hg. rewrite Hlook in Hlg by assumption. injection Hlg as <-.
      rewrite !grid_neighbours_elem by assumption.
      split; intros (_ & Hr & Hc & Hs); repeat split; try assumption; try lia;
        intros [Heq Hrad]; apply Hs; split; auto.
Qed.

(** ** The filter of [run]: names and columns together *)

Lemma compress_zip {A B : Type} (l : list A) (k : list B) (mask : list bool) :
  compress (zip l k) mask = zip (compress l mask) (compress k mask).
Proof.
  revert k mask. induction l as [|x l IH]; intros [|y k] [|b mask]; simpl;
    try reflexivity; try destruct b; simpl; rewrite ?IH; try reflexivity;
    now destruct (compress l mask).
Qed.

Lemma compress_elem {A : Type} (l : list A) (mask : list bool) (x : A) (p : nat) :
  l !! p = Some x -> mask !! p = Some true -> x ∈ compress l mask.
Proof.
  revert mask p. induction l as [|y l IH]; intros [|b mask] [|p] Hl Hm;
    simpl in *; try discriminate.
  - injection Hl as ->. injection Hm as ->. left.
  - destruct b; [right|]; eapply IH; eauto.
Qed.

(** X8. The filter of [run] keeps a pair exactly when more than [min_spots]
    spots have a positive score for it, and it keeps names and columns
    together: the filtered matrix has one column per kept name, and in every
    row the kept names paired with the kept scores are, in order, pairs of a
    name with its own score in the unfiltered row. *)
Theorem filter_lrs_keeps_names_with_columns (lr_scores : ndarray Q)
  (lrs : list string) (min_spots : Z) (lr_scores' : ndarray Q) (lrs' : list string) :
  filter_lrs lr_scores lrs min_spots = Ok (lr_scores', lrs') ->
  length lrs = shape1 lr_scores
  /\ shape1 lr_scores' = length lrs'
  /\ shape0 lr_scores' = shape0 lr_scores
  /\ (forall name, name ∈ lrs' <->
        exists j hits, lrs !! j = Some name
                       /\ column_hits lr_scores !! j = Some hits
                       /\ (min_spots < Z.of_nat hits)%Z)
  /\ (forall s row', rows lr_scores' !! s = Some row' ->
        exists row, rows lr_scores !! s = Some row
                    /\ zip lrs' row' `sublist_of` zip lrs row).
Proof.
  intros H. unfold filter_lrs, mask_select, select_columns in H.
  destruct (Nat.eqb_spec (length lrs) (length (lr_bool lr_scores min_spots)))
    as [Hlen|]; simpl in H; [|discriminate].
  destruct (Nat.eqb_spec (length (lr_bool lr_scores min_spots)) (shape1 lr_scores))
    as [Hlen'|]; simpl in H; [|discriminate].
  injection H as <- <-. simpl.
  repeat match goal with |- _ /\ _ => split end.
  - congruence.
  - symmetry. now apply compress_count.
  - unfold shape0. simpl. apply length_map.
  - intros name. unfold lr_bool. split.
    + intros Hin. apply compress_lookup in Hin as (j & Hj & Hmask).
      rewrite list_lookup_fmap in Hmask.
      destruct (column_hits lr_scores !! j) as [hits|] eqn:Hh; [|discriminate].
      simpl in Hmask. injection Hmask as Hmask. apply Z.ltb_lt in Hmask.
      exists j, hits. auto.
    + intros (j & hits & Hj & Hh & Hlt). apply (compress_elem _ _ _ j); [assumption|].
      rewrite list_lookup_fmap, Hh. simpl. f_equal. now apply Z.ltb_lt.
  - intros s row' Hrow'. rewrite list_lookup_fmap in Hrow'.
    destruct (rows lr_scores !! s) as [row|]; [|discriminate].
    injection Hrow' as <-. exists row. split; [reflexivity|].
    rewrite <- compress_zip. apply compress_sublist.
Qed.

(** ** [run_cci]: the guard, the names, the slots *)

(** X9. The guard of [run_cci] looks at the presence of
    [adata.uns['lr_summary']] only: without it [run_cci] raises its "No LR
    results" exception, whatever the other arguments are and before any
    imported function is called; with it, a table of counts, the guard passes
    whether or not the table has the column [n_spots_sig]. *)
Theorem run_cci_guard (rng : Type) get_data_for_counting
  get_interaction_matrix get_interaction_pvals
  (adata : AnnData) (use_label : string) (spot_mixtures : bool) (min_spots : Z)
  (sig_spots : bool) (cell_prop_cutoff p_cutoff : Q) (n_perms : Z)
  (verbose : bool) (g : rng) :
  (uns adata !! "lr_summary" = None ->
   run_cci rng get_data_for_counting get_interaction_matrix get_interaction_pvals
     adata use_label spot_mixtures min_spots sig_spots cell_prop_cutoff p_cutoff
     n_perms verbose g = Raise no_lr_results)
  /\ (forall lr_summary,
        uns adata !! "lr_summary" = Some (UnsCounts lr_summary) ->
        check_prior_results adata = Ok tt).
Proof.
  split.
  - intros H. unfold run_cci. now rewrite (check_prior_results_absent adata H).
  - intros lr_summary H. now apply (check_prior_results_present adata lr_summary).
Qed.

Lemma for_each_elem {X St : Type} (xs : list X) (body : X -> St -> result St)
  (s s' : St) (x : X) :
  for_each xs body s = Ok s' -> x ∈ xs -> exists t t', body x t = Ok t'.
Proof.
  revert s. induction xs as [|y xs IH]; intros s H Hx; [inversion Hx|].
  simpl in H. destruct (body y s) as [t|] eqn:Hy; simpl in H; [|discriminate].
  apply elem_of_cons in Hx as [->|Hx]; eauto.
Qed.

Lemma map_result_lookup_inv {A B : Type} (f : A -> result B) (l : list A)
  (ys : list B) (j : nat) (y : B) :
  map_result f l = Ok ys -> ys !! j = Some y ->
  exists x, l !! j = Some x /\ f x = Ok y.
Proof.
  revert ys j. induction l as [|z l IH]; intros ys j H Hj; simpl in H.
  - injection H as <-. discriminate.
  - destruct (f z) as [y0|] eqn:Hz; simpl in H; [|discriminate].
    destruct (map_result f l) as [ys'|] eqn:Hl; simpl in H; [|discriminate].
    injection H as <-. destruct j as [|j]; simpl in *.
    + injection Hj as <-. eauto.
    + eauto.
Qed.

Lemma best_lrs_of_elem (lr_summary : DataFrame Z) (col_i : nat) (min_spots : Z)
  (best_lrs : list string) (name : string) :
  best_lrs_of lr_summary col_i min_spots = Ok best_lrs ->
  name ∈ best_lrs <-> tested_pair lr_summary col_i min_spots name.
Proof.
  unfold best_lrs_of, column, mask_select, tested_pair. intros H.
  destruct (map_result _ (df_rows lr_summary)) as [col|] eqn:Hcol; simpl in H;
    [|discriminate].
  destruct (Nat.eqb_spec (length (df_index lr_summary))
              (length (map (fun v => (min_spots <? v)%Z) col))); [|discriminate].
  injection H as <-. split.
  - intros Hin. apply compress_lookup in Hin as (j & Hj & Hmask).
    rewrite list_lookup_fmap in Hmask.
    destruct (col !! j) as [v|] eqn:Hv; [|discriminate].
    injection Hmask as Hmask. apply Z.ltb_lt in Hmask.
    destruct (map_result_lookup_inv _ _ _ _ _ Hcol Hv) as (row & Hrow & Hget).
    apply getitem_Ok in Hget. exists j, row, v. auto.
  - intros (j & row & v & Hj & Hrow & Hv & Hlt).
    destruct (map_result_lookup _ _ _ _ _ Hcol Hrow) as (v' & Hget & Hv').
    apply getitem_Ok in Hget. rewrite Hv in Hget. injection Hget as <-.
    apply (compress_elem _ _ _ j); [assumption|].
    rewrite list_lookup_fmap, Hv'. simpl. f_equal. now apply Z.ltb_lt.
Qed.

Lemma expression_frame_columns (adata : AnnData) (genes : list string)
  (lr_expr : DataFrame Q) :
  expression_frame adata genes = Ok lr_expr ->
  forall gene, gene ∈ df_columns lr_expr -> gene ∈ var_names adata.
Proof.
  unfold expression_frame. intros H0 gene Hin.
  assert (H : (cols ← map_result (get_loc (var_names adata)) genes;
               sel ← map_result (fun row => take_indices row cols) (X adata);
               Ok (mk_DataFrame (obs_names adata) genes sel)) = Ok lr_expr)
    by (destruct genes; [discriminate | exact H0]).
  clear H0.
  destruct (map_result (get_loc (var_names adata)) genes) as [cols|] eqn:Hcols;
    simpl in H; [|discriminate].
  destruct (map_result _ (X adata)) as [sel|]; simpl in H; [|discriminate].
  injection H as <-. simpl in Hin.
  destruct (map_result_elem _ _ _ _ Hcols Hin) as (pos & Hpos & _).
  apply get_loc_Ok in Hpos. eapply list_elem_of_lookup_2; eauto.
Qed.

Lemma expressed_column (df : DataFrame Q) (label : string) (mask : list bool) :
  expressed df label = Ok mask -> label ∈ df_columns df.
Proof.
  unfold expressed. intros H.
  destruct (get_loc (df_columns df) label) as [pos|] eqn:Hpos; [|discriminate].
  apply get_loc_Ok in Hpos. eapply list_elem_of_lookup_2; eauto.
Qed.

Lemma extended_by_nil {V : Type} (P : V -> Prop) (d : gmap string V) :
  extended_by P [] d d.
Proof.
  intros name. split; [|auto]. split; [auto|]. intros [H|H]; [assumption|].
  inversion H.
Qed.

Lemma extended_by_cons {V : Type} (P : V -> Prop) (k : string) (v : V)
  (names : list string) (d d' : gmap string V) :
  P v -> extended_by P names (<[k:=v]> d) d' -> extended_by P (k :: names) d d'.
Proof.
  intros Hv Hext name. destruct (Hext name) as [Hkeys Hvals]. split.
  - rewrite Hkeys, elem_of_cons. destruct (decide (name = k)) as [->|Hne].
    + rewrite lookup_insert_eq. split; [auto|]. intros _. left. eauto.
    + rewrite lookup_insert_ne by congruence. tauto.
  - intros w Hw. destruct (Hvals w Hw) as [Hold|]; [|auto].
    destruct (decide (name = k)) as [->|Hne].
    + rewrite lookup_insert_eq in Hold. injection Hold as <-. auto.
    + rewrite lookup_insert_ne in Hold by congruence. auto.
Qed.

Lemma make_frame_labelled {A : Type} (a : ndarray A) (labels : list string)
  (df : DataFrame A) :
  make_frame a labels labels = Ok df -> labelled_by labels df.
Proof.
  intros H. apply make_frame_Ok in H as [-> Hsq]. unfold labelled_by. simpl.
  destruct Hsq as (Hrect & H0 & H1). apply rectangularb_spec in Hrect.
  unfold rectangular in Hrect. rewrite H1 in Hrect. repeat split; auto.
Qed.

Section RunCciFacts.

Variable rng : Type.
Variable get_data_for_counting :
  AnnData -> string -> bool -> list string ->
  result (list barcode * ndarray Q * list (barcode * list barcode)
          * list (nat * list nat)).
Variable get_interaction_matrix :
  ndarray Q -> list (barcode * list barcode) -> list (nat * list nat) ->
  list string -> list bool -> list bool -> list bool -> Q -> result (ndarray Q).
Variable get_interaction_pvals :
  ndarray Z -> Z -> ndarray Q -> list (barcode * list barcode) ->
  list (nat * list nat) -> list string -> list bool -> list bool -> list bool ->
  Q -> rng -> result (ndarray Q * rng).

Variable adata : AnnData.
Variable lr_expr : DataFrame Q.
Variable col : string.
Variable cell_data : ndarray Q.
Variable neighbourhood_bcs : list (barcode * list barcode).
Variable neighbourhood_indices : list (nat * list nat).
Variable all_set : list string.
Variables cell_prop_cutoff p_cutoff : Q.
Variable n_perms : Z.

Let step := cci_step rng get_interaction_matrix get_interaction_pvals adata
              lr_expr col cell_data neighbourhood_bcs neighbourhood_indices
              all_set cell_prop_cutoff p_cutoff n_perms.

Lemma cci_step_inv (best_lr : string) (st st' : cci_state rng) :
  step best_lr st = Ok st' ->
  (exists l r L_bool R_bool scores,
     split_on "_" best_lr = [l; r]
     /\ expressed lr_expr l = Ok L_bool
     /\ expressed lr_expr r = Ok R_bool
     /\ obsm_array adata col = Ok scores)
  /\ (exists sig_df pval_df int_df,
        labelled_by all_set sig_df /\ labelled_by all_set pval_df
        /\ labelled_by all_set int_df
        /\ per_lr_cci rng st' = <[best_lr:=sig_df]> (per_lr_cci rng st)
        /\ per_lr_cci_pvals rng st' = <[best_lr:=pval_df]> (per_lr_cci_pvals rng st)
        /\ per_lr_cci_raw rng st' = <[best_lr:=int_df]> (per_lr_cci_raw rng st)).
Proof.
  unfold step, cci_step. intros H.
  destruct (lr_matrices _ _ _ _ _ _ _ _ _ _ _ _ _ _) as [ms|] eqn:Hms;
    simpl in H; [|discriminate].
  split.
  - unfold lr_matrices in Hms.
    destruct (split_on "_" best_lr) as [|l [|r [|]]] eqn:Hsplit; try discriminate.
    destruct (expressed lr_expr l) as [L_bool|] eqn:HL; simpl in Hms; [|discriminate].
    destruct (expressed lr_expr r) as [R_bool|] eqn:HR; simpl in Hms; [|discriminate].
    destruct (lr_summary_of adata) as [lr_summary|]; simpl in Hms; [|discriminate].
    destruct (index_of best_lr (df_index lr_summary)); simpl in Hms; [|discriminate].
    destruct (obsm_array adata col) as [scores|] eqn:Hscores; [|discriminate].
    exists l, r, L_bool, R_bool, scores. repeat split; assumption.
  - destruct (zero_where _ _) as [sig_int_matrix|]; simpl in H; [|discriminate].
    destruct (iadd (raw_matrix rng st) _); simpl in H; [|discriminate].
    destruct (iadd (all_matrix rng st) _); simpl in H; [|discriminate].
    destruct (make_frame ms.1.1 all_set all_set) as [int_df|] eqn:Hint;
      simpl in H; [|discriminate].
    destruct (make_frame sig_int_matrix all_set all_set) as [sig_df|] eqn:Hsig;
      simpl in H; [|discriminate].
    destruct (make_frame ms.1.2 all_set all_set) as [pval_df|] eqn:Hpval;
      simpl in H; [|discriminate].
    injection H as <-. simpl. exists sig_df, pval_df, int_df.
    repeat split; auto using make_frame_labelled;
      eapply make_frame_labelled; eassumption.
Qed.

Lemma cci_loop_keys (best_lrs : list string) (st st' : cci_state rng) :
  for_each best_lrs step st = Ok st' ->
  extended_by (labelled_by all_set) best_lrs (per_lr_cci rng st) (per_lr_cci rng st')
  /\ extended_by (labelled_by all_set) best_lrs
       (per_lr_cci_pvals rng st) (per_lr_cci_pvals rng st')
  /\ extended_by (labelled_by all_set) best_lrs
       (per_lr_cci_raw rng st) (per_lr_cci_raw rng st').
Proof.
  revert st. induction best_lrs as [|best_lr rest IH]; intros st H; simpl in H.
  - injection H as <-. split; [|split]; apply extended_by_nil.
  - destruct (step best_lr st) as [st1|] eqn:Hstep; simpl in H; [|discriminate].
    destruct (cci_step_inv _ _ _ Hstep)
      as (_ & sig_df & pval_df & int_df & Hs & Hp & Hi & Es & Ep & Ei).
    destruct (IH _ H) as (IHs & IHp & IHi). rewrite Es in IHs. rewrite Ep in IHp.
    rewrite Ei in IHi.
    split; [|split];
      [apply (extended_by_cons _ _ sig_df) | apply (extended_by_cons _ _ pval_df)
       | apply (extended_by_cons _ _ int_df)]; assumption.
Qed.

End RunCciFacts.

Lemma run_cci_inv (rng : Type) get_data_for_counting
  get_interaction_matrix get_interaction_pvals
  (adata : AnnData) (use_label : string) (spot_mixtures : bool) (min_spots : Z)
  (sig_spots : bool) (cell_prop_cutoff p_cutoff : Q) (n_perms : Z)
  (verbose : bool) (g : rng) (adata' : AnnData) (g' : rng) (out : list string) :
  run_cci rng get_data_for_counting get_interaction_matrix get_interaction_pvals
    adata use_label spot_mixtures min_spots sig_spots cell_prop_cutoff p_cutoff
    n_perms verbose g = Ok (adata', g', out) ->
  exists (tissue_types : list string)
    (data : list barcode * ndarray Q * list (barcode * list barcode)
            * list (nat * list nat))
    lr_summary best_lrs lr_genes lr_expr st all_df raw_df,
    obs adata !! (label_keys use_label).1 = Some tissue_types
    /\ lr_summary_of adata = Ok lr_summary
    /\ best_lrs_of lr_summary (if sig_spots then 1 else 0) min_spots = Ok best_lrs
    /\ expression_frame adata lr_genes = Ok lr_expr
    /\ for_each best_lrs
         (cci_step rng get_interaction_matrix get_interaction_pvals adata lr_expr
            (if sig_spots then "lr_sig_scores" else "lr_scores")
            data.1.1.2 data.1.2 data.2 (np_unique tissue_types)
            cell_prop_cutoff p_cutoff n_perms)
         {| all_matrix := zeros (length (np_unique tissue_types))
                            (length (np_unique tissue_types));
            raw_matrix := zeros (length (np_unique tissue_types))
                            (length (np_unique tissue_types));
            per_lr_cci := ∅; per_lr_cci_pvals := ∅; per_lr_cci_raw := ∅;
            generator := g |} = Ok st
    /\ adata'
       = set_uns
           (set_uns
              (set_uns
                 (set_uns
                    (set_uns adata ("lr_cci_" +:+ use_label) (UnsCounts all_df))
                    ("lr_cci_raw_" +:+ use_label) (UnsCounts raw_df))
                 ("per_lr_cci_" +:+ use_label) (UnsCountsDict (per_lr_cci rng st)))
              ("per_lr_cci_pvals_" +:+ use_label)
              (UnsFrameDict (per_lr_cci_pvals rng st)))
           ("per_lr_cci_raw_" +:+ use_label) (UnsCountsDict (per_lr_cci_raw rng st))
    /\ out
       = (if negb (spot_mixtures && dict_has (uns adata) (label_keys use_label).2)
             && spot_mixtures
          then [fallback_warning (label_keys use_label).2] else [])
         ++ (if verbose then
               ["Significant counts of cci interactions for all LR pairs in lr_cci_"
                +:+ use_label;
                "Significant counts of cci interactions for each LR pair stored in dictionary per_lr_cci_"
                +:+ use_label]
             else []).
Proof.
  unfold run_cci. intros H.
  destruct (check_prior_results adata); simpl in H; [|discriminate].
  destruct (label_keys use_label) as [obs_key uns_key]. cbn [fst snd].
  destruct (dict_get (obs adata) obs_key) as [tissue_types|] eqn:Hobs;
    simpl in H; [|discriminate].
  destruct (get_data_for_counting _ _ _ _) as [data|]; simpl in H; [|discriminate].
  destruct (lr_summary_of adata) as [lr_summary|]; simpl in H; [|discriminate].
  destruct (best_lrs_of _ _ _) as [best_lrs|] eqn:Hbest; simpl in H; [|discriminate].
  destruct (lr_genes_of best_lrs) as [lr_genes|]; simpl in H; [|discriminate].
  destruct (expression_frame adata lr_genes) as [lr_expr|] eqn:Hexpr;
    simpl in H; [|discriminate].
  destruct (for_each best_lrs _ _) as [st|] eqn:Hloop; simpl in H; [|discriminate].
  destruct (make_frame (all_matrix rng st) _ _) as [all_df|]; simpl in H;
    [|discriminate].
  destruct (make_frame (raw_matrix rng st) _ _) as [raw_df|]; simpl in H;
    [|discriminate].
  injection H as <- <- <-. apply dict_get_Ok in Hobs.
  exists tissue_types, data, lr_summary, best_lrs, lr_genes, lr_expr, st, all_df,
    raw_df.
  repeat match goal with |- _ /\ _ => split end; auto.
Qed.

Lemma lr_summary_of_Ok (adata : AnnData) (lr_summary : DataFrame Z) :
  lr_summary_of adata = Ok lr_summary ->
  uns adata !! "lr_summary" = Some (UnsCounts lr_summary).
Proof.
  unfold lr_summary_of, dict_get.
  destruct (uns adata !! "lr_summary") as [[]|]; simpl; congruence.
Qed.

Lemma obsm_array_Ok (adata : AnnData) (key : string) (a : ndarray Q) :
  obsm_array adata key = Ok a -> obsm adata !! key = Some (ObsmArray a).
Proof.
  unfold obsm_array, dict_get.
  destruct (obsm adata !! key) as [[]|]; simpl; congruence.
Qed.

Lemma extended_from_empty {V : Type} (P : V -> Prop) (names : list string)
  (d : gmap string V) (name : string) :
  extended_by P names ∅ d ->
  (is_Some (d !! name) <-> name ∈ names) /\ (forall v, d !! name = Some v -> P v).
Proof.
  intros Hext. destruct (Hext name) as [Hkeys Hvals]. split.
  - rewrite Hkeys, lookup_empty. split; [|auto]. intros [[v Hv]|H]; [discriminate|auto].
  - intros v Hv. destruct (Hvals v Hv) as [Hold|]; [|assumption].
    rewrite lookup_empty in Hold. discriminate.
Qed.

(** X10. [run_cci] completes only on a dataset with the label column in
    [adata.obs] and a table of counts in [adata.uns['lr_summary']], and only if
    every LR pair of that table whose count in the selected column is greater
    than [min_spots] has a name of exactly two parts separated by one
    underscore, both of them gene names of [adata.var_names], and the score
    array of the selected kind is in [adata.obsm]. *)
Theorem run_cci_needs_well_formed_pairs (rng : Type) get_data_for_counting
  get_interaction_matrix get_interaction_pvals
  (adata : AnnData) (use_label : string) (spot_mixtures : bool) (min_spots : Z)
  (sig_spots : bool) (cell_prop_cutoff p_cutoff : Q) (n_perms : Z)
  (verbose : bool) (g : rng) (adata' : AnnData) (g' : rng) (out : list string) :
  run_cci rng get_data_for_counting get_interaction_matrix get_interaction_pvals
    adata use_label spot_mixtures min_spots sig_spots cell_prop_cutoff p_cutoff
    n_perms verbose g = Ok (adata', g', out) ->
  exists tissue_types lr_summary,
    obs adata !! (label_keys use_label).1 = Some tissue_types
    /\ uns adata !! "lr_summary" = Some (UnsCounts lr_summary)
    /\ forall name,
         tested_pair lr_summary (if sig_spots then 1 else 0) min_spots name ->
         exists l r scores,
           split_on "_" name = [l; r]
           /\ l ∈ var_names adata /\ r ∈ var_names adata
           /\ obsm adata !! (if sig_spots then "lr_sig_scores" else "lr_scores")
              = Some (ObsmArray scores).
Proof.
  intros H. apply run_cci_inv in H
    as (tissue_types & data & lr_summary & best_lrs & lr_genes & lr_expr & st
        & all_df & raw_df & Hobs & Hsum & Hbest & Hexpr & Hloop & _).
  exists tissue_types, lr_summary.
  split; [assumption|]. split; [now apply lr_summary_of_Ok|].
  intros name Hname. apply (best_lrs_of_elem _ _ _ _ _ Hbest) in Hname.
  destruct (for_each_elem _ _ _ _ _ Hloop Hname) as (t & t' & Hstep).
  apply cci_step_inv in Hstep
    as ((l & r & L_bool & R_bool & scores & Hsplit & HL & HR & Hscores) & _).
  exists l, r, scores. split; [assumption|].
  split; [|split].
  - eapply expression_frame_columns, expressed_column; eassumption.
  - eapply expression_frame_columns, expressed_column; eassumption.
  - now apply obsm_array_Ok.
Qed.

(** X11. The statements of [run_cci] write five entries of [adata.uns] and
    nothing else (the imported helpers being taken not to modify the dataset):
    the observations, the expression matrix, [adata.obsm] and every other entry
    of [adata.uns], [lr_summary] among them, are as before the call. What it
    prints is the fall-back warning, when mixtures were asked for without
    deconvolution data, followed by the two closing lines when [verbose]. *)
Theorem run_cci_writes_five_entries (rng : Type) get_data_for_counting
  get_interaction_matrix get_interaction_pvals
  (adata : AnnData) (use_label : string) (spot_mixtures : bool) (min_spots : Z)
  (sig_spots : bool) (cell_prop_cutoff p_cutoff : Q) (n_perms : Z)
  (verbose : bool) (g : rng) (adata' : AnnData) (g' : rng) (out : list string) :
  run_cci rng get_data_for_counting get_interaction_matrix get_interaction_pvals
    adata use_label spot_mixtures min_spots sig_spots cell_prop_cutoff p_cutoff
    n_perms verbose g = Ok (adata', g', out) ->
  obs_names adata' = obs_names adata /\ var_names adata' = var_names adata
  /\ X adata' = X adata /\ obs adata' = obs adata /\ obs_num adata' = obs_num adata
  /\ obsm adata' = obsm adata
  /\ (forall key,
        key <> "lr_cci_" +:+ use_label -> key <> "lr_cci_raw_" +:+ use_label ->
        key <> "per_lr_cci_" +:+ use_label ->
        key <> "per_lr_cci_pvals_" +:+ use_label ->
        key <> "per_lr_cci_raw_" +:+ use_label ->
        uns adata' !! key = uns adata !! key)
  /\ uns adata' !! "lr_summary" = uns adata !! "lr_summary"
  /\ out
     = (if spot_mixtures && negb (dict_has (uns adata) (label_keys use_label).2)
        then [fallback_warning (label_keys use_label).2] else [])
       ++ (if verbose then
             ["Significant counts of cci interactions for all LR pairs in lr_cci_"
              +:+ use_label;
              "Significant counts of cci interactions for each LR pair stored in dictionary per_lr_cci_"
              +:+ use_label]
           else []).
Proof.
  intros H. apply run_cci_inv in H
    as (tissue_types & data & lr_summary & best_lrs & lr_genes & lr_expr & st
        & all_df & raw_df & _ & _ & _ & _ & _ & -> & ->).
  unfold set_uns. cbn [obs_names var_names X obs obs_num obsm uns].
  repeat match goal with |- _ /\ _ => split end; try reflexivity.
  - intros key H1 H2 H3 H4 H5. now rewrite !lookup_insert_ne by congruence.
  - rewrite !lookup_insert_ne; [reflexivity|..]; intros Hkey; simpl in Hkey;
      discriminate Hkey.
  - f_equal. now destruct spot_mixtures, (dict_has (uns adata) (label_keys use_label).2).
Qed.

(** X12. When [run_cci] completes, the three per-pair dicts it stores have
    the same keys: the LR pairs of [lr_summary] whose count in the selected
    column is greater than [min_spots]. Every frame in them has the sorted
    distinct labels of the label column on both axes, with a full row of cells
    for each label. *)
Theorem run_cci_per_pair_dicts (rng : Type) get_data_for_counting
  get_interaction_matrix get_interaction_pvals
  (adata : AnnData) (use_label : string) (spot_mixtures : bool) (min_spots : Z)
  (sig_spots : bool) (cell_prop_cutoff p_cutoff : Q) (n_perms : Z)
  (verbose : bool) (g : rng) (adata' : AnnData) (g' : rng) (out : list string) :
  run_cci rng get_data_for_counting get_interaction_matrix get_interaction_pvals
    adata use_label spot_mixtures min_spots sig_spots cell_prop_cutoff p_cutoff
    n_perms verbose g = Ok (adata', g', out) ->
  exists tissue_types lr_summary sig pvals raw,
    obs adata !! (label_keys use_label).1 = Some tissue_types
    /\ uns adata !! "lr_summary" = Some (UnsCounts lr_summary)
    /\ uns adata' !! ("per_lr_cci_" +:+ use_label) = Some (UnsCountsDict sig)
    /\ uns adata' !! ("per_lr_cci_pvals_" +:+ use_label) = Some (UnsFrameDict pvals)
    /\ uns adata' !! ("per_lr_cci_raw_" +:+ use_label) = Some (UnsCountsDict raw)
    /\ forall name,
         let tested :=
           tested_pair lr_summary (if sig_spots then 1 else 0) min_spots name in
         (is_Some (sig !! name) <-> tested)
         /\ (is_Some (pvals !! name) <-> tested)
         /\ (is_Some (raw !! name) <-> tested)
         /\ (forall df, sig !! name = Some df ->
               labelled_by (np_unique tissue_types) df)
         /\ (forall df, pvals !! name = Some df ->
               labelled_by (np_unique tissue_types) df)
         /\ (forall df, raw !! name = Some df ->
               labelled_by (np_unique tissue_types) df).
Proof.
  intros H. apply run_cci_inv in H
    as (tissue_types & data & lr_summary & best_lrs & lr_genes & lr_expr & st
        & all_df & raw_df & Hobs & Hsum & Hbest & Hexpr & Hloop & -> & _).
  apply cci_loop_keys in Hloop as (Hs & Hp & Hr). cbn [per_lr_cci per_lr_cci_pvals
    per_lr_cci_raw] in Hs, Hp, Hr.
  exists tissue_types, lr_summary, (per_lr_cci rng st), (per_lr_cci_pvals rng st),
    (per_lr_cci_raw rng st).
  split; [assumption|]. split; [now apply lr_summary_of_Ok|].
  unfold set_uns. cbn [uns].
  split; [|split; [|split]].
  - rewrite !lookup_insert_ne by keys_differ. now rewrite lookup_insert_eq.
  - rewrite !lookup_insert_ne by keys_differ. now rewrite lookup_insert_eq.
  - now rewrite lookup_insert_eq.
  - intros name. cbn zeta.
    rewrite <- (best_lrs_of_elem _ _ _ _ name Hbest).
    destruct (extended_from_empty _ _ _ name Hs) as [Ks Vs].
    destruct (extended_from_empty _ _ _ name Hp) as [Kp Vp].
    destruct (extended_from_empty _ _ _ name Hr) as [Kr Vr].
    repeat match goal with |- _ /\ _ => split end; assumption.
Qed.

(** ** [np.unique] and [load_lrs] *)

Lemma ascii_compare_refl (c : ascii) : Ascii.compare c c = Eq.
Proof. unfold Ascii.compare. apply N.compare_refl. Qed.

Lemma string_compare_refl (s : string) : String.compare s s = Eq.
Proof.
  induction s as [|c s IH]; simpl; [reflexivity|]. now rewrite ascii_compare_refl.
Qed.

Lemma ascii_compare_lt_trans (a b c : ascii) :
  Ascii.compare a b = Lt -> Ascii.compare b c = Lt -> Ascii.compare a c = Lt.
Proof.
  unfold Ascii.compare. rewrite !N.compare_lt_iff. apply N.lt_trans.
Qed.

Lemma string_compare_lt_trans (s1 s2 s3 : string) :
  String.compare s1 s2 = Lt -> String.compare s2 s3 = Lt ->
  String.compare s1 s3 = Lt.
Proof.
  revert s2 s3. induction s1 as [|c1 s1 IH]; intros [|c2 s2] [|c3 s3]; simpl;
    try congruence.
  destruct (Ascii.compare c1 c2) eqn:E12; try discriminate;
    destruct (Ascii.compare c2 c3) eqn:E23; try discriminate; intros H12 H23.
  - apply Ascii.compare_eq_iff in E12, E23. subst. rewrite ascii_compare_refl.
    eauto.
  - apply Ascii.compare_eq_iff in E12. subst. now rewrite E23.
  - apply Ascii.compare_eq_iff in E23. subst. now rewrite E12.
  - now rewrite (ascii_compare_lt_trans _ _ _ E12 E23).
Qed.

Lemma insert_sorted_elem (x y : string) (l : list string) :
  y ∈ insert_sorted x l <-> y = x \/ y ∈ l.
Proof.
  induction l as [|z l IH]; simpl.
  - rewrite list_elem_of_singleton. split; [auto|]. intros [H|H]; [auto|inversion H].
  - destruct (String.eqb_spec x z) as [->|Hne].
    + rewrite elem_of_cons. tauto.
    + destruct (String.leb x z).
      * rewrite !elem_of_cons. tauto.
      * rewrite !elem_of_cons, IH. tauto.
Qed.

Lemma insert_sorted_sorted (x : string) (l : list string) :
  strictly_sorted l -> strictly_sorted (insert_sorted x l).
Proof.
  induction l as [|z l IH]; simpl.
  - intros _. split; [constructor | exact I].
  - intros [Hz Hl]. destruct (String.eqb_spec x z) as [->|Hne]; [now split|].
    unfold String.leb. destruct (String.compare x z) eqn:Hc.
    + apply String.compare_eq_iff in Hc. contradiction.
    + simpl. repeat split; try assumption. constructor; [assumption|].
      eapply Forall_impl; [exact Hz|]. simpl. intros w Hw.
      eapply string_compare_lt_trans; eassumption.
    + simpl. split; [|auto]. apply Forall_forall. intros w Hw.
      apply insert_sorted_elem in Hw as [->|Hw].
      * rewrite String.compare_antisym, Hc. reflexivity.
      * rewrite Forall_forall in Hz. auto.
Qed.

Lemma np_unique_elem (x : string) (l : list string) : x ∈ np_unique l <-> x ∈ l.
Proof.
  induction l as [|y l IH]; [reflexivity|]. unfold np_unique in *. simpl.
  rewrite insert_sorted_elem, IH, elem_of_cons. tauto.
Qed.

Lemma np_unique_sorted (l : list string) : strictly_sorted (np_unique l).
Proof.
  induction l as [|y l IH]; [exact I|]. unfold np_unique in *. simpl.
  now apply insert_sorted_sorted.
Qed.

Lemma strictly_sorted_NoDup (l : list string) : strictly_sorted l -> NoDup l.
Proof.
  induction l as [|x l IH]; simpl; [constructor|]. intros [Hx Hl].
  constructor; [|auto]. intros Hin. rewrite Forall_forall in Hx.
  specialize (Hx x Hin). rewrite string_compare_refl in Hx. discriminate.
Qed.

Lemma table_lrs_elem (db : list (list string)) (lrs : list string) (name : string) :
  table_lrs db = Ok lrs ->
  name ∈ lrs <->
  exists row l r, row ∈ db /\ row !! 0 = Some l /\ row !! 1 = Some r
                  /\ name = lr_name l r.
Proof.
  unfold table_lrs. intros H. split.
  - intros Hin. destruct (map_result_elem_inv _ _ _ _ H Hin) as (i & _ & Hi).
    destruct (getitem db i) as [row|] eqn:Hrow; simpl in Hi; [|discriminate].
    destruct (getitem row 0) as [l|] eqn:Hl; simpl in Hi; [|discriminate].
    destruct (getitem row 1) as [r|] eqn:Hr; simpl in Hi; [|discriminate].
    injection Hi as <-. apply getitem_Ok in Hrow, Hl, Hr.
    exists row, l, r. repeat split; try assumption.
    eapply list_elem_of_lookup_2; eassumption.
  - intros (row & l & r & Hrow & Hl & Hr & ->).
    apply list_elem_of_lookup in Hrow as [i Hi].
    assert (Hrange : i ∈ range 0 (length db)).
    { unfold range. apply list_elem_of_In, in_seq. apply lookup_lt_Some in Hi. lia. }
    destruct (map_result_elem _ _ _ _ H Hrange) as (y & Hy & Hin).
    apply getitem_Ok in Hi, Hl, Hr. rewrite Hi in Hy. simpl in Hy.
    rewrite Hl in Hy. simpl in Hy. rewrite Hr in Hy. simpl in Hy.
    now injection Hy as <-.
Qed.

Lemma gather_lrs_elem (dbs : list (list (list string))) (acc full : list string)
  (name : string) :
  for_each dbs (fun db lrs_full => lrs ← table_lrs db; Ok (lrs_full ++ lrs)) acc
  = Ok full ->
  name ∈ full <->
  name ∈ acc \/ exists db lrs, db ∈ dbs /\ table_lrs db = Ok lrs /\ name ∈ lrs.
Proof.
  revert acc. induction dbs as [|db dbs IH]; intros acc H; simpl in H.
  - injection H as <-. split; [auto|]. intros [H|(db & _ & H & _)]; [auto|inversion H].
  - destruct (table_lrs db) as [lrs|] eqn:Hdb; simpl in H; [|discriminate].
    rewrite (IH _ H), elem_of_app. split.
    + intros [[Hacc|Hlrs]|(db' & lrs' & Hin & Hdb' & Hname)]; [auto|right..].
      * exists db, lrs. split; [left|auto].
      * exists db', lrs'. split; [now right|auto].
    + intros [Hacc|(db' & lrs' & Hin & Hdb' & Hname)]; [auto|].
      apply elem_of_cons in Hin as [->|Hin].
      * rewrite Hdb in Hdb'. injection Hdb' as <-. auto.
      * right. eauto.
Qed.

(** X13. What [load_lrs] returns lists every pair of every database it was
    asked for exactly once, in increasing order: a name is returned exactly
    when the first two cells of some row of some database, joined by an
    underscore, give it. Without an argument the database is
    [connectomeDB2020_lit]. *)
Theorem load_lrs_each_pair_once (path : string)
  (read_csv : string -> result (list (list string))) (names : names_arg)
  (lrs : list string) :
  load_lrs path read_csv names = Ok lrs ->
  NoDup lrs /\ strictly_sorted lrs
  /\ forall name,
       name ∈ lrs <->
       exists database table row l r,
         database ∈ match names with
                    | NoNames => ["connectomeDB2020_lit"]
                    | OneName one => [one]
                    | NameList several => several
                    end
         /\ read_csv (path +:+ "/databases/" +:+ database +:+ ".txt") = Ok table
         /\ row ∈ table /\ row !! 0 = Some l /\ row !! 1 = Some r
         /\ name = l +:+ "_" +:+ r.
Proof.
  unfold load_lrs. intros H.
  destruct (map_result _ (database_names names)) as [dbs|] eqn:Hdbs; simpl in H;
    [|discriminate].
  destruct (for_each dbs _ _) as [full|] eqn:Hfull; simpl in H; [|discriminate].
  injection H as <-. split; [|split].
  - apply strictly_sorted_NoDup, np_unique_sorted.
  - apply np_unique_sorted.
  - intros name. rewrite np_unique_elem, (gather_lrs_elem _ _ _ name Hfull).
    fold (database_names names). split.
    + intros [Hnil|(db & lrs & Hdb & Hlrs & Hname)]; [inversion Hnil|].
      destruct (map_result_elem_inv _ _ _ _ Hdbs Hdb) as (database & Hin & Hread).
      apply (table_lrs_elem _ _ name Hlrs) in Hname
        as (row & l & r & Hrow & Hl & Hr & ->).
      exists database, db, row, l, r. auto 10.
    + intros (database & table & row & l & r & Hin & Hread & Hrow & Hl & Hr & ->).
      right. destruct (map_result_elem _ _ _ _ Hdbs Hin) as (db & Hread' & Hdb).
      unfold database_file in Hread'. rewrite Hread in Hread'.
      injection Hread' as <-.
      assert (Hok : exists lrs, table_lrs table = Ok lrs).
      { destruct (for_each_elem _ _ _ _ _ Hfull Hdb) as (t & t' & Hstep).
        destruct (table_lrs table) as [lrs|]; [eauto | discriminate]. }
      destruct Hok as [lrs Hlrs]. exists table, lrs.
      split; [assumption|]. split; [assumption|].
      apply (table_lrs_elem _ _ _ Hlrs). exists row, l, r. auto.
Qed.

(** ** The names of the pairs, written and read *)

Lemma split_on_nonempty (sep : ascii) (s : string) : split_on sep s <> [].
Proof.
  induction s as [|c s IH]; simpl; [discriminate|].
  destruct (Ascii.eqb c sep); [discriminate|].
  destruct (split_on sep s); discriminate.
Qed.

Lemma split_on_append (sep : ascii) (a b : string) :
  split_on sep (a +:+ String sep b) = split_on sep a ++ split_on sep b.
Proof.
  induction a as [|c a IH]; simpl.
  - now rewrite Ascii.eqb_refl.
  - rewrite IH. destruct (Ascii.eqb c sep); [reflexivity|].
    destruct (split_on sep a) eqn:E; [|reflexivity].
    now apply split_on_nonempty in E.
Qed.

Lemma split_on_length (sep : ascii) (s : string) :
  length (split_on sep s) = 1 <-> contains_char sep s = false.
Proof.
  induction s as [|c s IH]; simpl; [tauto|].
  destruct (Ascii.eqb c sep); simpl.
  - pose proof (split_on_nonempty sep s). destruct (split_on sep s); simpl;
      [contradiction|]. split; [lia | discriminate].
  - rewrite <- IH. pose proof (split_on_nonempty sep s).
    now destruct (split_on sep s).
Qed.

Lemma split_on_whole (sep : ascii) (s : string) :
  contains_char sep s = false -> split_on sep s = [s].
Proof.
  induction s as [|c s IH]; simpl; [reflexivity|].
  destruct (Ascii.eqb c sep); simpl; [discriminate|]. intros H. now rewrite IH.
Qed.

Lemma split_on_lr_name (l r : string) :
  split_on "_" (lr_name l r) = split_on "_" l ++ split_on "_" r.
Proof. unfold lr_name. simpl. apply split_on_append. Qed.

(** X14. The name [load_lrs] writes for the pair of [l] and [r] is read back
    by [run_cci] as [l] and [r] exactly when neither gene name contains an
    underscore; when one does, the turn of the loop of [run_cci] for that
    pair raises [ValueError]. *)
Theorem pair_name_read_back (rng : Type) get_interaction_matrix get_interaction_pvals
  (adata : AnnData) (lr_expr : DataFrame Q) (col : string) (cell_data : ndarray Q)
  (neighbourhood_bcs : list (barcode * list barcode))
  (neighbourhood_indices : list (nat * list nat)) (all_set : list string)
  (cell_prop_cutoff : Q) (n_perms : Z) (g : rng) (l r : string) :
  (split_on "_" (lr_name l r) = [l; r]
   <-> contains_char "_" l = false /\ contains_char "_" r = false)
  /\ (contains_char "_" l = true \/ contains_char "_" r = true ->
      lr_matrices rng get_interaction_matrix get_interaction_pvals adata lr_expr
        col cell_data neighbourhood_bcs neighbourhood_indices all_set
        cell_prop_cutoff n_perms (lr_name l r) g = Raise ValueError).
Proof.
  pose proof (split_on_nonempty "_" l) as Hl.
  pose proof (split_on_nonempty "_" r) as Hr.
  pose proof (split_on_length "_" l) as Ll.
  pose proof (split_on_length "_" r) as Lr.
  split; [split|].
  - intros H. rewrite split_on_lr_name in H.
    apply (f_equal length) in H. rewrite length_app in H. simpl in H.
    destruct (split_on "_" l) as [|? [|]]; [contradiction| |];
      (destruct (split_on "_" r) as [|? [|]]; [contradiction| |]);
      simpl in H; try lia.
    split; [apply Ll | apply Lr]; reflexivity.
  - intros [Hcl Hcr]. rewrite split_on_lr_name.
    now rewrite (split_on_whole _ _ Hcl), (split_on_whole _ _ Hcr).
  - intros Hc. unfold lr_matrices. rewrite split_on_lr_name.
    destruct (split_on "_" l) as [|a [|a' la]]; [contradiction| |];
      destruct (split_on "_" r) as [|b [|b' lb]]; try contradiction;
      try reflexivity.
    + simpl in Ll, Lr. destruct Hc as [Hc|Hc]; rewrite Hc in *;
        [destruct Ll as [Ll _]; discriminate Ll; reflexivity
        |destruct Lr as [Lr _]; discriminate Lr; reflexivity].
    + destruct la; reflexivity.
    + destruct la; reflexivity.
Qed.

(** ** The candidate edges, exactly *)

Lemma take_indices_lookup_fwd {A : Type} (l : list A) (idx : list nat) (ys : list A)
  (p k : nat) :
  take_indices l idx = Ok ys -> idx !! p = Some k ->
  exists y, l !! k = Some y /\ ys !! p = Some y.
Proof.
  revert ys p. induction idx as [|i idx IH]; intros ys p H Hp; [discriminate|].
  simpl in H. destruct (getitem l i) as [x|] eqn:Hx; simpl in H; [|discriminate].
  destruct (take_indices l idx) as [xs|] eqn:Hxs; simpl in H; [|discriminate].
  injection H as <-. apply getitem_Ok in Hx. destruct p as [|p]; simpl in *.
  - injection Hp as <-. eauto.
  - eauto.
Qed.

Lemma compress_lookup_pair {A B : Type} (l : list A) (k : list B) (mask : list bool)
  (q : nat) (x : A) (y : B) :
  compress l mask !! q = Some x -> compress k mask !! q = Some y ->
  exists p, l !! p = Some x /\ k !! p = Some y /\ mask !! p = Some true.
Proof.
  intros Hx Hy.
  assert (Hin : (x, y) ∈ compress (zip l k) mask).
  { rewrite compress_zip. apply (list_elem_of_lookup_2 _ q).
    apply lookup_zip_Some. auto. }
  apply compress_lookup in Hin as (p & Hp & Hmask).
  apply lookup_zip_Some in Hp as [? ?]. eauto.
Qed.

Lemma compress_pair_lookup {A B : Type} (l : list A) (k : list B) (mask : list bool)
  (p : nat) (x : A) (y : B) :
  l !! p = Some x -> k !! p = Some y -> mask !! p = Some true ->
  exists q, compress l mask !! q = Some x /\ compress k mask !! q = Some y.
Proof.
  intros Hx Hy Hmask.
  assert (Hin : (x, y) ∈ compress (zip l k) mask).
  { apply (compress_elem _ _ _ p); [|assumption]. apply lookup_zip_Some. auto. }
  rewrite compress_zip in Hin. apply list_elem_of_lookup in Hin as [q Hq].
  apply lookup_zip_Some in Hq as [? ?]. eauto.
Qed.

Lemma interact_rows_lookup (cell_data : ndarray Q) (cutoff : Q) (ks : list nat)
  (mask : list bool) (q k : nat) :
  interact_rows cell_data cutoff ks = Ok mask -> ks !! q = Some k ->
  exists row, rows cell_data !! k = Some row
              /\ mask !! q
                 = Some (Nat.eqb (count_true (map (fun x => Qgtb x cutoff) row))
                           (shape1 cell_data)).
Proof.
  unfold interact_rows. intros H Hq.
  destruct (take_indices (rows cell_data) ks) as [sel|] eqn:Hsel; simpl in H;
    [|discriminate].
  injection H as <-.
  destruct (take_indices_lookup_fwd _ _ _ _ _ Hsel Hq) as (row & Hrow & Hsq).
  exists row. split; [assumption|]. rewrite !list_lookup_fmap, Hsq. reflexivity.
Qed.

Lemma enumerate_neighbourhood_exact nbcs nidx neigh_bool (cell_data : ndarray Q)
  cutoff i (buf buf' : edge_buffer) :
  buffer_ok buf ->
  enumerate_neighbourhood nbcs nidx neigh_bool true (Some cell_data) cutoff i buf
  = Ok buf' ->
  exists spot_bc neigh_bcs indices selected,
    nbcs !! i = Some (spot_bc, neigh_bcs)
    /\ nidx !! i = Some indices
    /\ zip (edge_starts buf') (edge_ends buf')
       = zip (edge_starts buf) (edge_ends buf) ++ map (fun bc => (spot_bc, bc)) selected
    /\ forall bc, bc ∈ selected <->
         interacting neigh_bool cell_data cutoff neigh_bcs indices.2 bc.
Proof.
  intros Hbuf H. unfold enumerate_neighbourhood in H.
  destruct (getitem nbcs i) as [[spot_bc neigh_bcs]|] eqn:Hbcs; simpl in H;
    [|discriminate].
  destruct (getitem nidx i) as [indices|] eqn:Hidx; simpl in H; [|discriminate].
  destruct (take_indices neigh_bool indices.2) as [keep|] eqn:Hkeep; simpl in H;
    [|discriminate].
  unfold mask_select in H.
  destruct (Nat.eqb_spec (length neigh_bcs) (length keep)) as [Hlb|]; simpl in H;
    [|discriminate].
  destruct (Nat.eqb_spec (length indices.2) (length keep)) as [Hli|]; simpl in H;
    [|discriminate].
  apply getitem_Ok in Hbcs, Hidx.
  destruct (Nat.eqb_spec (length (compress indices.2 keep)) 0) as [Hnone|Hsome].
  - injection H as <-. exists spot_bc, neigh_bcs, indices, []. simpl.
    rewrite app_nil_r. repeat split; try assumption; [intros Hin; inversion Hin|].
    intros (p & k & row & Hp & Hk & Hnb & _). exfalso.
    destruct (take_indices_lookup_fwd _ _ _ _ _ Hkeep Hk) as (b & Hb & Hkp).
    rewrite Hnb in Hb. injection Hb as <-.
    assert (Hin : k ∈ compress indices.2 keep) by (eapply compress_elem; eauto).
    destruct (compress indices.2 keep); [inversion Hin | discriminate].
  - destruct (interact_rows cell_data cutoff (compress indices.2 keep))
      as [interact|] eqn:Hint; simpl in H; [|discriminate].
    destruct (Nat.eqb (length (compress neigh_bcs keep)) (length interact));
      simpl in H; [|discriminate].
    injection H as <-.
    exists spot_bc, neigh_bcs, indices, (compress (compress neigh_bcs keep) interact).
    split; [assumption|]. split; [assumption|].
    split; [now apply append_edges_zip|]. intros bc. split.
    + intros Hin. apply compress_lookup in Hin as (q & Hq & Hmask).
      destruct (lookup_lt_is_Some_2 (compress indices.2 keep) q) as [k Hk].
      { rewrite (compress_length indices.2 neigh_bcs keep) by congruence.
        now apply lookup_lt_Some in Hq. }
      destruct (interact_rows_lookup _ _ _ _ _ _ Hint Hk) as (row & Hrow & Hm).
      rewrite Hmask in Hm. injection Hm as Hm. symmetry in Hm.
      apply Nat.eqb_eq in Hm.
      destruct (compress_lookup_pair _ _ _ _ _ _ Hq Hk) as (p & Hp & Hpk & Hkp).
      destruct (take_indices_lookup _ _ _ _ _ Hkeep Hkp) as (k' & Hk' & Hnb).
      rewrite Hpk in Hk'. injection Hk' as <-.
      exists p, k, row. auto.
    + intros (p & k & row & Hp & Hk & Hnb & Hrow & Hcount).
      destruct (take_indices_lookup_fwd _ _ _ _ _ Hkeep Hk) as (b & Hb & Hkp).
      rewrite Hnb in Hb. injection Hb as <-.
      destruct (compress_pair_lookup _ _ _ _ _ _ Hp Hk Hkp) as (q & Hq & Hqk).
      destruct (interact_rows_lookup _ _ _ _ _ _ Hint Hqk) as (row' & Hrow' & Hm).
      rewrite Hrow in Hrow'. injection Hrow' as <-.
      apply (compress_elem _ _ _ q); [assumption|].
      rewrite Hm. f_equal. now apply Nat.eqb_eq.
Qed.

Lemma for_each_seq_preserves {St : Type} (P : nat -> St -> Prop)
  (body : nat -> St -> result St) (a len : nat) (s s' : St) :
  for_each (seq a len) body s = Ok s' ->
  P a s ->
  (forall k t t', a <= k < a + len -> P k t -> body k t = Ok t' -> P (S k) t') ->
  P (a + len) s'.
Proof.
  revert a s. induction len as [|len IH]; intros a s H Hs Hstep; simpl in H.
  - injection H as <-. now rewrite Nat.add_0_r.
  - destruct (body a s) as [t|] eqn:Hbody; simpl in H; [|discriminate].
    replace (a + S len) with (S a + len) by lia.
    apply (IH (S a) t); [assumption | |].
    + apply (Hstep a s); [lia | assumption | assumption].
    + intros k u u' Hk. apply Hstep. lia.
Qed.

Lemma enumerate_edges_exact nbcs nidx neigh_bool (cell_data : ndarray Q) cutoff
  (buf : edge_buffer) :
  enumerate_edges nbcs nidx neigh_bool true (Some cell_data) cutoff = Ok buf ->
  forall e, e ∈ zip (edge_starts buf) (edge_ends buf) <->
            candidate_edge nbcs nidx neigh_bool cell_data cutoff (length nbcs) e.
Proof.
  unfold enumerate_edges, range. rewrite Nat.sub_0_r. intros H.
  apply (for_each_seq_preserves
           (fun k b => buffer_ok b
                       /\ forall e, e ∈ zip (edge_starts b) (edge_ends b) <->
                            candidate_edge nbcs nidx neigh_bool cell_data cutoff k e))
    in H.
  - apply H.
  - split; [split; reflexivity|]. intros e. simpl. split; [intros Hin; inversion Hin|].
    intros (i & _ & _ & Hi & _). lia.
  - intros k t t' Hk [Hok Hinv] Hstep. split.
    { eapply enumerate_neighbourhood_ok; eauto. }
    destruct (enumerate_neighbourhood_exact _ _ _ _ _ _ _ _ Hok Hstep)
      as (spot_bc & neigh_bcs & indices & selected & Hbcs & Hidx & Hzip & Hsel).
    intros [s d]. rewrite Hzip, elem_of_app, Hinv, list_elem_of_fmap. split.
    + intros [(i & nb & ix & Hi & Hrest)|(bc & [= -> ->] & Hbc)].
      * exists i, nb, ix. split; [lia | assumption].
      * exists k, neigh_bcs, indices. simpl. repeat split; try assumption; [lia|].
        now apply Hsel.
    + intros (i & nb & ix & Hi & Hnb & Hix & Hint). simpl in *.
      destruct (decide (i = k)) as [->|Hne].
      * right. rewrite Hbcs in Hnb. injection Hnb as -> ->.
        rewrite Hidx in Hix. injection Hix as ->.
        exists d. split; [reflexivity|]. now apply Hsel.
      * left. exists i, nb, ix. simpl. repeat split; try assumption. lia.
Qed.

(** ** [count_core] on one discrete label *)

Lemma neighbourhoods_lookup (all_bcs : list string) (neighbours : list (list nat))
  (spot_indices : list nat)
  (nb : list (nat * list nat) * list (string * list string)) :
  neighbourhoods all_bcs neighbours spot_indices = Ok nb ->
  length nb.1 = length spot_indices /\ length nb.2 = length spot_indices
  /\ forall p i, spot_indices !! p = Some i ->
       exists neighs bc neigh_bcs,
         neighbours !! i = Some neighs /\ all_bcs !! i = Some bc
         /\ take_indices all_bcs neighs = Ok neigh_bcs
         /\ nb.1 !! p = Some (i, neighs) /\ nb.2 !! p = Some (bc, neigh_bcs).
Proof.
  unfold neighbourhoods.
  enough (Hgen : forall acc nb',
             for_each spot_indices
               (fun spot_i (acc : list (nat * list nat) * list (string * list string)) =>
                  neighs ← getitem neighbours spot_i;
                  bc ← getitem all_bcs spot_i;
                  neigh_bcs ← take_indices all_bcs neighs;
                  Ok (acc.1 ++ [(spot_i, neighs)], acc.2 ++ [(bc, neigh_bcs)]))
               acc = Ok nb' ->
             exists l1 l2,
               nb' = (acc.1 ++ l1, acc.2 ++ l2)
               /\ length l1 = length spot_indices
               /\ length l2 = length spot_indices
               /\ forall p i, spot_indices !! p = Some i ->
                    exists neighs bc neigh_bcs,
                      neighbours !! i = Some neighs /\ all_bcs !! i = Some bc
                      /\ take_indices all_bcs neighs = Ok neigh_bcs
                      /\ l1 !! p = Some (i, neighs)
                      /\ l2 !! p = Some (bc, neigh_bcs)).
  { intros H. destruct (Hgen _ _ H) as (l1 & l2 & -> & H1 & H2 & H3). simpl.
    auto. }
  induction spot_indices as [|j rest IH]; intros acc nb' H; simpl in H.
  - injection H as <-. exists [], []. rewrite !app_nil_r.
    split; [now destruct acc|]. repeat split. intros p i Hp. discriminate.
  - destruct (getitem neighbours j) as [neighs|] eqn:Hn; simpl in H; [|discriminate].
    destruct (getitem all_bcs j) as [bc|] eqn:Hbc; simpl in H; [|discriminate].
    destruct (take_indices all_bcs neighs) as [neigh_bcs|] eqn:Ht; simpl in H;
      [|discriminate].
    apply getitem_Ok in Hn, Hbc.
    destruct (IH _ _ H) as (l1 & l2 & -> & H1 & H2 & H3). simpl.
    exists ((j, neighs) :: l1), ((bc, neigh_bcs) :: l2).
    rewrite <- !app_assoc. simpl. split; [reflexivity|].
    split; [lia|]. split; [lia|]. intros p i Hp. destruct p as [|p]; simpl in Hp.
    + injection Hp as <-. exists neighs, bc, neigh_bcs. auto.
    + apply H3. assumption.
Qed.

Lemma one_hot_single_row (cell_types : list string) (label : string) (k : nat)
  (row : list Q) :
  rows (one_hot cell_types [label]) !! k = Some row ->
  exists ct, cell_types !! k = Some ct
             /\ (count_true (map (fun x => Qgtb x 0) row)
                 = shape1 (one_hot cell_types [label]) <-> ct = label).
Proof.
  unfold one_hot. simpl. rewrite list_lookup_fmap.
  destruct (cell_types !! k) as [ct|]; [|discriminate]. simpl. intros [= <-].
  exists ct. split; [reflexivity|]. simpl.
  destruct (String.eqb_spec ct label) as [->|Hne]; vm_compute; split; congruence.
Qed.

Lemma one_hot_single_lookup (cell_types : list string) (label : string) (k : nat)
  (ct : string) :
  cell_types !! k = Some ct ->
  exists row, rows (one_hot cell_types [label]) !! k = Some row.
Proof.
  intros H. unfold one_hot. simpl. rewrite list_lookup_fmap, H. simpl. eauto.
Qed.

Lemma count_core_one_label_links (adata : AnnData) (use_label : string)
  (neighbours : list (list nat)) (spot_indices : list nat)
  (neigh_bool : option (list bool)) (label : string)
  (spot_mixtures : bool) (cutoff : Q) (return_edges : bool)
  (cell_types : list string) (r : count_result) :
  spot_mixtures && dict_has (uns adata) (label_keys use_label).2 = false ->
  obs adata !! (label_keys use_label).1 = Some cell_types ->
  count_core adata use_label neighbours (Some spot_indices) neigh_bool
    (Some [label]) spot_mixtures cutoff return_edges = Ok r ->
  exists edges,
    r = (if return_edges then Edges (pair_edges edges) else Count (length edges))
    /\ NoDup edges
    /\ (forall s d, (s, d) ∈ edges -> (d, s) ∈ edges -> s = d)
    /\ (forall s d, (s, d) ∈ edges ->
          labelled_link adata neighbours spot_indices
            (neigh_bool_or_default adata neigh_bool) cell_types label s d)
    /\ (forall s d,
          labelled_link adata neighbours spot_indices
            (neigh_bool_or_default adata neigh_bool) cell_types label s d ->
          (s, d) ∈ edges \/ (d, s) ∈ edges).
Proof.
  intros Hmode Hobs H. unfold count_core in H.
  destruct (label_keys use_label) as [obs_key uns_key]. simpl in Hmode, Hobs.
  destruct (Nat.eqb_spec (length spot_indices) 0) as [Hnil|Hsome].
  { injection H as <-. exists []. destruct spot_indices; [|discriminate].
    split; [now destruct return_edges|]. split; [constructor|].
    split; [intros s d Hin; inversion Hin|].
    split; [intros s d Hin; inversion Hin|].
    intros s d (i & _ & _ & Hi & _). inversion Hi. }
  simpl in H.
  destruct (neighbourhoods (obs_names adata) neighbours spot_indices) as [nb|]
    eqn:Hnb; simpl in H; [|discriminate].
  rewrite Hmode in H. apply dict_get_Ok in Hobs. rewrite Hobs in H. simpl in H.
  set (mask := neigh_bool_or_default adata neigh_bool) in *.
  destruct (get_between_spot_edge_array _ _ _ _ _ _ _) as [edges|] eqn:Hget;
    simpl in H; [|discriminate].
  injection H as <-. exists edges.
  split. { unfold edges_or_count, pair_edges. rewrite length_map. reflexivity. }
  unfold get_between_spot_edge_array in Hget.
  destruct (enumerate_edges _ _ _ _ _ _) as [buf|] eqn:Henum; simpl in Hget;
    [|discriminate].
  pose proof (enumerate_edges_ok _ _ _ _ _ _ _ Henum) as [Hs He].
  rewrite (unique_edges_first_occurrences true buf Hs He) in Hget.
  injection Hget as <-.
  pose proof (enumerate_edges_exact _ _ _ _ _ _ Henum) as Hcands.
  destruct (neighbourhoods_lookup _ _ _ _ Hnb) as (Hl1 & Hl2 & Hlook).
  split; [apply first_occurrences_NoDup|].
  split; [|split].
  - intros s d Hsd Hds.
    apply list_elem_of_lookup in Hsd as [a Ha], Hds as [b Hb].
    assert (Hsame : same_pair true (s, d) (d, s) = true).
    { apply same_pair_spec. right. auto. }
    destruct (Nat.lt_total a b) as [Hlt|[->|Hlt]].
    + rewrite (first_occurrences_distinct _ _ _ _ _ _ Hlt Ha Hb) in Hsame.
      discriminate.
    + rewrite Ha in Hb. now injection Hb.
    + apply same_pair_sym in Hsame.
      rewrite (first_occurrences_distinct _ _ _ _ _ _ Hlt Hb Ha) in Hsame.
      discriminate.
  - intros s d Hin.
    assert (Hc : (s, d) ∈ zip (edge_starts buf) (edge_ends buf)).
    { eapply elem_of_sublist; [exact Hin | apply first_occurrences_sublist]. }
    apply Hcands in Hc
      as (p0 & neigh_bcs & indices & Hp0 & Hbcs & Hidx & p & k & row & Hp & Hk
          & Hmask & Hrow & Hcount).
    simpl in Hbcs, Hp.
    destruct (lookup_lt_is_Some_2 spot_indices p0) as [i Hi]; [lia|].
    destruct (Hlook p0 i Hi) as (neighs & bc & nbcs & Hn & Hbc & Htake & E1 & E2).
    rewrite Hbcs in E2. injection E2 as <- <-.
    rewrite Hidx in E1. injection E1 as ->. simpl in Hk.
    destruct (take_indices_lookup _ _ _ _ _ Htake Hp) as (k' & Hk' & Hd).
    rewrite Hk in Hk'. injection Hk' as <-.
    destruct (one_hot_single_row _ _ _ _ Hrow) as (ct & Hct & Hiff).
    exists i, k, neighs. repeat split; try assumption.
    + eapply list_elem_of_lookup_2; eassumption.
    + eapply list_elem_of_lookup_2; eassumption.
    + rewrite Hct. f_equal. now apply Hiff.
  - intros s d (i & k & neighs & Hi & Hs' & Hn & Hk & Hd & Hmask & Hct).
    apply list_elem_of_lookup in Hi as [p0 Hp0], Hk as [p Hp].
    destruct (Hlook p0 i Hp0) as (neighs' & bc & nbcs & Hn' & Hbc & Htake & E1 & E2).
    rewrite Hn in Hn'. injection Hn' as <-. rewrite Hs' in Hbc. injection Hbc as <-.
    destruct (take_indices_lookup_fwd _ _ _ _ _ Htake Hp) as (d' & Hd' & Hnp).
    rewrite Hd in Hd'. injection Hd' as <-.
    destruct (one_hot_single_lookup _ label _ _ Hct) as [row Hrow].
    destruct (one_hot_single_row _ _ _ _ Hrow) as (ct & Hct' & Hiff).
    rewrite Hct in Hct'. injection Hct' as <-.
    assert (Hc : (s, d) ∈ zip (edge_starts buf) (edge_ends buf)).
    { apply Hcands. exists p0, nbcs, (i, neighs). simpl.
      split; [apply lookup_lt_Some in E2; lia|].
      split; [assumption|]. split; [assumption|].
      exists p, k, row. repeat split; try assumption. now apply Hiff. }
    apply (first_occurrences_represent true) in Hc as (e' & Hin & Hsame).
    apply same_pair_spec in Hsame as [->|[_ ->]]; auto.
Qed.

(** X15. On discrete labels (absolute mode) and a single label, the edges
    [count_core] lists, or counts, are exactly the links from a spot counted
    from to one of its listed neighbours that passes [neigh_bool] and carries
    the label: every listed edge is such a link, every such link is listed in
    one of its two directions, and no edge is listed twice, in either
    direction. *)
Theorem count_core_single_label (adata : AnnData) (use_label : string)
  (neighbours : list (list nat)) (spot_indices : list nat)
  (neigh_bool : option (list bool)) (label : string)
  (spot_mixtures : bool) (cutoff : Q) (return_edges : bool)
  (cell_types : list string) (r : count_result) :
  spot_mixtures && dict_has (uns adata) (label_keys use_label).2 = false ->
  obs adata !! (label_keys use_label).1 = Some cell_types ->
  count_core adata use_label neighbours (Some spot_indices) neigh_bool
    (Some [label]) spot_mixtures cutoff return_edges = Ok r ->
  exists edges,
    r = (if return_edges then Edges (pair_edges edges) else Count (length edges))
    /\ NoDup edges
    /\ (forall s d, (s, d) ∈ edges -> (d, s) ∈ edges -> s = d)
    /\ (forall s d, (s, d) ∈ edges ->
          labelled_link adata neighbours spot_indices
            (neigh_bool_or_default adata neigh_bool) cell_types label s d)
    /\ (forall s d,
          labelled_link adata neighbours spot_indices
            (neigh_bool_or_default adata neigh_bool) cell_types label s d ->
          (s, d) ∈ edges \/ (d, s) ∈ edges).
Proof. apply count_core_one_label_links. Qed.

(** ** The interaction matrix and the interaction edges *)

Lemma for_each_enumerate_preserves {X St : Type} (P : nat -> St -> Prop)
  (xs : list X) (body : nat * X -> St -> result St) (s s' : St) :
  for_each (enumerate xs) body s = Ok s' ->
  P 0 s ->
  (forall k x t t', xs !! k = Some x -> P k t -> body (k, x) t = Ok t' -> P (S k) t') ->
  P (length xs) s'.
Proof.
  unfold enumerate.
  enough (Hgen : forall a s,
             for_each (zip (seq a (length xs)) xs) body s = Ok s' ->
             P a s ->
             (forall k x t t', xs !! k = Some x -> P (a + k) t ->
                body (a + k, x) t = Ok t' -> P (S (a + k)) t') ->
             P (a + length xs) s').
  { intros H H0 Hstep. apply (Hgen 0 s); auto. }
  induction xs as [|x xs IH]; intros a t H Ha Hstep; simpl in H.
  - injection H as <-. now rewrite Nat.add_0_r.
  - destruct (body (a, x) t) as [t1|] eqn:Hbody; simpl in H; [|discriminate].
    simpl. replace (a + S (length xs)) with (S a + length xs) by lia.
    apply (IH (S a) t1); [assumption | |].
    + specialize (Hstep 0 x t t1 eq_refl). rewrite Nat.add_0_r in Hstep. auto.
    + intros k y u u' Hy Hu Hb.
      replace (S a + k) with (a + S k) in * by lia. apply (Hstep (S k) y u u'); auto.
Qed.

Lemma for_each_enumerate_sim {X S1 S2 : Type} (R : nat -> S1 -> S2 -> Prop)
  (xs : list X) (body1 : nat * X -> S1 -> result S1)
  (body2 : nat * X -> S2 -> result S2) (s1 s1' : S1) (s2 : S2) :
  for_each (enumerate xs) body1 s1 = Ok s1' ->
  R 0 s1 s2 ->
  (forall k x t1 t1' t2, xs !! k = Some x -> R k t1 t2 -> body1 (k, x) t1 = Ok t1' ->
     exists t2', body2 (k, x) t2 = Ok t2' /\ R (S k) t1' t2') ->
  exists s2', for_each (enumerate xs) body2 s2 = Ok s2' /\ R (length xs) s1' s2'.
Proof.
  unfold enumerate.
  enough (Hgen : forall a s1 s2,
             for_each (zip (seq a (length xs)) xs) body1 s1 = Ok s1' ->
             R a s1 s2 ->
             (forall k x t1 t1' t2, xs !! k = Some x -> R (a + k) t1 t2 ->
                body1 (a + k, x) t1 = Ok t1' ->
                exists t2', body2 (a + k, x) t2 = Ok t2' /\ R (S (a + k)) t1' t2') ->
             exists s2', for_each (zip (seq a (length xs)) xs) body2 s2 = Ok s2'
                         /\ R (a + length xs) s1' s2').
  { intros H H0 Hstep. apply (Hgen 0 s1 s2); auto. }
  induction xs as [|x xs IH]; intros a t1 t2 H Ha Hstep; simpl in H.
  - injection H as <-. exists t2. rewrite Nat.add_0_r. now split.
  - destruct (body1 (a, x) t1) as [u1|] eqn:Hbody; simpl in H; [|discriminate].
    pose proof (Hstep 0 x t1 u1 t2 eq_refl) as H0. rewrite Nat.add_0_r in H0.
    destruct (H0 Ha Hbody) as (u2 & Hbody2 & Hu).
    destruct (IH (S a) u1 u2 H Hu) as (s2' & Hloop & Hend).
    + intros k y v1 v1' v2 Hy Hv Hb.
      replace (S a + k) with (a + S k) in * by lia.
      apply (Hstep (S k) y v1 v1' v2); auto.
    + exists s2'. simpl. rewrite Hbody2. simpl.
      replace (a + S (length xs)) with (S a + length xs) by lia. now split.
Qed.

Lemma for_each_enumerate_completes {X S1 S2 : Type} (R : nat -> S1 -> S2 -> Prop)
  (xs : list X) (body1 : nat * X -> S1 -> result S1)
  (body2 : nat * X -> S2 -> result S2) (s1 s1' : S1) (s2 : S2) :
  for_each (enumerate xs) body1 s1 = Ok s1' ->
  R 0 s1 s2 ->
  (forall k x t1 t1' t2, xs !! k = Some x -> R k t1 t2 -> body1 (k, x) t1 = Ok t1' ->
     exists t2', body2 (k, x) t2 = Ok t2' /\ R (S k) t1' t2') ->
  exists s2', for_each (enumerate xs) body2 s2 = Ok s2'.
Proof.
  intros H H0 Hstep.
  destruct (for_each_enumerate_sim R xs body1 body2 s1 s1' s2 H H0 Hstep)
    as (s2' & Hs2' & _).
  eauto.
Qed.

Lemma set_cell_square (n i j : nat) (v : Z) (m : ndarray Z) :
  square n m -> square n (set_cell i j v m).
Proof.
  intros (Hrect & H0 & H1). unfold square, set_cell, shape0 in *. simpl.
  rewrite length_alter. repeat split; try assumption.
  apply rectangularb_spec. apply rectangularb_spec in Hrect.
  unfold rectangular in *. simpl. apply Forall_forall. intros row Hrow.
  rewrite Forall_forall in Hrect.
  apply list_elem_of_lookup in Hrow as [p Hp].
  destruct (decide (p = i)) as [->|Hne].
  - rewrite list_lookup_alter_eq in Hp.
    destruct (rows m !! i) as [row0|] eqn:Hrow0; [|discriminate].
    injection Hp as <-. rewrite length_insert. apply Hrect.
    eapply list_elem_of_lookup_2; eauto.
  - rewrite list_lookup_alter_ne in Hp by congruence. apply Hrect.
    eapply list_elem_of_lookup_2; eauto.
Qed.

Lemma cell_set_cell (n i j i' j' : nat) (v : Z) (m : ndarray Z) :
  square n m -> i < n -> j < n ->
  cell i' j' (set_cell i j v m)
  = if decide (i' = i /\ j' = j) then v else cell i' j' m.
Proof.
  intros Hsq Hi Hj. unfold cell, set_cell. simpl.
  destruct (decide (i' = i)) as [->|Hne].
  - rewrite list_lookup_alter_eq.
    destruct (square_cell _ _ _ _ Hsq Hi Hj) as (row & Hrow & _).
    rewrite Hrow. simpl. pose proof (square_row _ _ _ _ Hsq Hrow) as Hlen.
    destruct (decide (j' = j)) as [->|Hnej].
    + rewrite list_lookup_insert_eq by lia.
      destruct (decide (i = i /\ j = j)) as [_|Hn]; [reflexivity | tauto].
    + rewrite list_lookup_insert_ne by congruence.
      destruct (decide (i = i /\ j' = j)) as [[_ ?]|_]; [contradiction | reflexivity].
  - rewrite list_lookup_alter_ne by congruence.
    destruct (decide (i' = i /\ j' = j)) as [[? _]|_]; [contradiction | reflexivity].
Qed.

Lemma transpose_cell (n p q : nat) (m : ndarray Z) :
  square n m -> p < n -> q < n -> cell p q (transpose m) = cell q p m.
Proof.
  intros Hsq Hp Hq. pose proof Hsq as (_ & H0 & H1).
  unfold cell at 1. unfold transpose. simpl.
  rewrite list_lookup_fmap, H1, lookup_seq_lt by lia. simpl.
  rewrite list_lookup_fmap.
  destruct (square_cell _ _ _ _ Hsq Hq Hp) as (row & Hrow & Hcell).
  rewrite Hrow. simpl. now rewrite Hcell.
Qed.

Lemma count_core_factor (adata : AnnData) (use_label : string)
  (neighbours : list (list nat)) (spot_indices : option (list nat))
  (neigh_bool : option (list bool)) (label_set : option (list string))
  (spot_mixtures : bool) (cutoff : Q) (return_edges : bool) :
  count_core adata use_label neighbours spot_indices neigh_bool label_set
    spot_mixtures cutoff return_edges
  = r ← count_core adata use_label neighbours spot_indices neigh_bool label_set
          spot_mixtures cutoff true;
    match r with
    | Edges edges => Ok (if return_edges then Edges edges else Count (length edges))
    | Count c => Ok (Count c)
    end.
Proof.
  unfold count_core. destruct (label_keys use_label) as [obs_key uns_key].
  destruct spot_indices as [spot_indices|]; [|reflexivity].
  destruct (Nat.eqb (length spot_indices) 0); [now destruct return_edges|].
  destruct (label_set_or_default adata obs_key label_set) as [ls|]; [|reflexivity].
  cbn [mbind result_bind].
  destruct (neighbourhoods (obs_names adata) neighbours spot_indices) as [nb|];
    [|reflexivity].
  cbn [mbind result_bind].
  match goal with |- mbind _ ?big = _ => destruct big as [edge_list|] end;
    [|reflexivity].
  cbn [mbind result_bind edges_or_count]. now destruct return_edges.
Qed.

Lemma count_core_lists_edges (adata : AnnData) (use_label : string)
  (neighbours : list (list nat)) (spot_indices : option (list nat))
  (neigh_bool : option (list bool)) (label_set : option (list string))
  (spot_mixtures : bool) (cutoff : Q) (r : count_result) :
  count_core adata use_label neighbours spot_indices neigh_bool label_set
    spot_mixtures cutoff true = Ok r ->
  exists edges, r = Edges edges.
Proof.
  unfold count_core. destruct (label_keys use_label) as [obs_key uns_key].
  destruct spot_indices as [spot_indices|]; [|discriminate].
  destruct (Nat.eqb (length spot_indices) 0); [intros [= <-]; eauto|].
  destruct (label_set_or_default adata obs_key label_set) as [ls|]; [|discriminate].
  cbn [mbind result_bind].
  destruct (neighbourhoods (obs_names adata) neighbours spot_indices) as [nb|];
    [|discriminate].
  cbn [mbind result_bind].
  match goal with |- mbind _ ?big = _ -> _ => destruct big as [edge_list|] end;
    [|discriminate].
  cbn [mbind result_bind edges_or_count]. intros [= <-]. eauto.
Qed.

Lemma count_core_count_edges (adata : AnnData) (use_label : string)
  (neighbours : list (list nat)) (spot_indices : option (list nat))
  (neigh_bool : option (list bool)) (label_set : option (list string))
  (spot_mixtures : bool) (cutoff : Q) (c : nat) :
  count_core adata use_label neighbours spot_indices neigh_bool label_set
    spot_mixtures cutoff false = Ok (Count c) ->
  exists edges,
    count_core adata use_label neighbours spot_indices neigh_bool label_set
      spot_mixtures cutoff true = Ok (Edges edges)
    /\ c = length edges.
Proof.
  intros H. rewrite count_core_factor in H.
  destruct (count_core _ _ _ _ _ _ _ _ true) as [r|] eqn:Hc; simpl in H;
    [|discriminate].
  destruct (count_core_lists_edges _ _ _ _ _ _ _ _ _ Hc) as [edges ->].
  injection H as <-. eauto.
Qed.

Lemma take_snoc_elem {A : Type} (l : list A) (k : nat) (x y : A) :
  l !! k = Some x -> y ∈ take (S k) l <-> y ∈ take k l \/ y = x.
Proof.
  intros H. rewrite (take_S_r _ _ _ H), elem_of_app, list_elem_of_singleton. tauto.
Qed.

Section InteractionFacts.

Variable adata : AnnData.
Variable all_set : list string.
Variable mix_mode : bool.
Variable neighbours : list (list nat).
Variable obs_key : string.
Variables sig_bool gene1_bool gene2_bool : list bool.
Variable spot_mixtures : bool.
Variable tissue_types : option (list string).
Variable cell_type_props : DataFrame Q.
Variable cell_prop_cutoff : Q.
Variable trans_dir : bool.

(** The edges that [count_core] lists from the spots of [cell_A] to
    neighbours of [cell_B]. *)
Let listed (mixtures : bool) (cell_A cell_B : string) : result (list edge) :=
  idx ← source_indices mix_mode tissue_types cell_type_props cell_prop_cutoff
          sig_bool gene1_bool cell_A;
  r ← count_core adata obs_key neighbours (Some idx) (Some gene2_bool)
        (Some [cell_B]) mixtures default_cutoff true;
  match r with
  | Edges edges => Ok edges
  | Count _ => Raise TypeError
  end.

(** The keys under which the edges of [cell_A] and [cell_B] are filed. *)
Let outer_key (cell_A cell_B : string) : string := if trans_dir then cell_A else cell_B.
Let inner_key (cell_A cell_B : string) : string := if trans_dir then cell_B else cell_A.

Lemma keys_determine (A B A' B' : string) :
  outer_key A' B' = outer_key A B /\ inner_key A' B' = inner_key A B
  <-> A' = A /\ B' = B.
Proof. unfold outer_key, inner_key. destruct trans_dir; tauto. Qed.

Lemma count_interactions_cells (m : ndarray Z) :
  count_interactions adata all_set mix_mode neighbours obs_key sig_bool gene1_bool
    gene2_bool tissue_types cell_type_props cell_prop_cutoff trans_dir = Ok m ->
  forall p q P Q, all_set !! p = Some P -> all_set !! q = Some Q ->
    exists edges,
      listed mix_mode (outer_key P Q) (inner_key P Q) = Ok edges
      /\ cell p q m = Z.of_nat (length edges).
Proof.
  unfold count_interactions. intros H.
  destruct (for_each (enumerate all_set) _ _) as [m0|] eqn:Hloop; simpl in H;
    [|discriminate].
  injection H as <-. set (n := length all_set) in *.
  apply (for_each_enumerate_preserves
           (fun k t => square n t
                       /\ forall i j A B, i < k -> all_set !! i = Some A ->
                            all_set !! j = Some B ->
                            exists edges, listed mix_mode A B = Ok edges
                                          /\ cell i j t = Z.of_nat (length edges)))
    in Hloop.
  - destruct Hloop as [Hsq Hcells]. intros p q P Q Hp Hq.
    pose proof (lookup_lt_Some _ _ _ Hp) as Hpn.
    pose proof (lookup_lt_Some _ _ _ Hq) as Hqn. fold n in Hpn, Hqn.
    unfold outer_key, inner_key. destruct trans_dir.
    + apply Hcells; assumption.
    + rewrite (transpose_cell n) by assumption. apply Hcells; assumption.
  - split; [apply zeros_square|]. intros i j A B Hi. lia.
  - intros k A t t' HA [Hsq Hcells] Hbody. cbn beta iota in Hbody.
    destruct (source_indices _ _ _ _ _ _ A) as [idx|] eqn:Hidx; simpl in Hbody;
      [|discriminate].
    pose proof (lookup_lt_Some _ _ _ HA) as Hkn. fold n in Hkn.
    apply (for_each_enumerate_preserves
             (fun j u => square n u
                         /\ (forall j' B, j' < j -> all_set !! j' = Some B ->
                               exists edges, listed mix_mode A B = Ok edges
                                 /\ cell k j' u = Z.of_nat (length edges))
                         /\ forall i' j', i' <> k -> cell i' j' u = cell i' j' t))
      in Hbody.
    + destruct Hbody as (Hsq' & Hrow & Hframe). split; [assumption|].
      intros i j A' B Hi HA' HB. destruct (decide (i = k)) as [->|Hne].
      * rewrite HA in HA'. injection HA' as <-.
        apply Hrow; [|assumption]. apply lookup_lt_Some in HB. exact HB.
      * rewrite Hframe by assumption. apply Hcells; [lia | assumption..].
    + split; [assumption|]. split; [intros j' B Hj'; lia | reflexivity].
    + intros j B u u' HB (Hsq' & Hrow & Hframe) Hstep. cbn beta iota in Hstep.
      destruct (count_core _ _ _ _ _ _ _ _ _) as [[|c]|] eqn:Hcore; simpl in Hstep;
        try discriminate.
      injection Hstep as <-.
      pose proof (lookup_lt_Some _ _ _ HB) as Hjn. fold n in Hjn.
      destruct (count_core_count_edges _ _ _ _ _ _ _ _ _ Hcore) as (edges & He & ->).
      split; [now apply set_cell_square|]. split.
      * intros j' B' Hj' HB'. rewrite (cell_set_cell n) by assumption.
        destruct (decide (k = k /\ j' = j)) as [[_ ->]|Hn].
        -- rewrite HB in HB'. injection HB' as <-. exists edges.
           split; [|reflexivity]. unfold listed. rewrite Hidx. simpl.
           rewrite He. reflexivity.
        -- apply Hrow; [|assumption]. destruct (decide (j' = j)); [tauto | lia].
      * intros i' j' Hi'. rewrite (cell_set_cell n) by assumption.
        destruct (decide (i' = k /\ j' = j)) as [[? _]|_]; [contradiction|].
        now apply Hframe.
Qed.

Lemma file_edges_spec (A B : string) (edges : list edge)
  (d d' : gmap string (gmap string (list edge))) :
  (if trans_dir then
     inner ← dict_get d A;
     Ok (<[A:=<[B:=edges]> inner]> d)
   else
     let d1 := if dict_has d B then d else <[B:=∅]> d in
     inner ← dict_get d1 B;
     Ok (<[B:=<[A:=edges]> inner]> d1)) = Ok d' ->
  (forall P Q,
     edges_under d' P Q
     = if decide (P = outer_key A B /\ Q = inner_key A B) then Some edges
       else edges_under d P Q)
  /\ (forall P, is_Some (d' !! P) <-> is_Some (d !! P) \/ P = outer_key A B).
Proof.
  assert (Hins : forall (X Y : string) (inner : gmap string (list edge))
                   (d0 : gmap string (gmap string (list edge))),
             (forall Q, Q <> Y -> inner !! Q = edges_under d0 X Q) ->
             (forall P Q,
                edges_under (<[X:=<[Y:=edges]> inner]> d0) P Q
                = if decide (P = X /\ Q = Y) then Some edges else edges_under d0 P Q)
             /\ (forall P, is_Some ((<[X:=<[Y:=edges]> inner]> d0) !! P)
                           <-> is_Some (d0 !! P) \/ P = X)).
  { intros X Y inner d0 Hinner. split.
    - intros P Q. unfold edges_under at 1.
      destruct (decide (P = X)) as [->|HP].
      + rewrite lookup_insert_eq. simpl. destruct (decide (Q = Y)) as [->|HQ].
        * rewrite lookup_insert_eq.
          destruct (decide (X = X /\ Y = Y)); [reflexivity | tauto].
        * rewrite lookup_insert_ne by congruence.
          destruct (decide (X = X /\ Q = Y)) as [[_ ?]|_]; [contradiction|].
          now apply Hinner.
      + rewrite lookup_insert_ne by congruence.
        destruct (decide (P = X /\ Q = Y)) as [[? _]|_]; [contradiction|].
        reflexivity.
    - intros P. destruct (decide (P = X)) as [->|HP].
      + rewrite lookup_insert_eq. split; [auto | eauto].
      + rewrite lookup_insert_ne by congruence. tauto. }
  unfold outer_key, inner_key. destruct trans_dir.
  - destruct (dict_get d A) as [inner|] eqn:Hget; simpl; [|discriminate].
    intros [= <-]. apply dict_get_Ok in Hget. apply Hins.
    intros Q _. unfold edges_under. now rewrite Hget.
  - cbn zeta. unfold dict_has. destruct (d !! B) as [inner|] eqn:HB.
    + rewrite bool_decide_true by eauto. unfold dict_get. rewrite HB. simpl.
      intros [= <-]. apply Hins. intros Q _. unfold edges_under. now rewrite HB.
    + rewrite bool_decide_false by (intros [? ?]; discriminate).
      unfold dict_get. rewrite lookup_insert_eq. simpl. intros [= <-].
      destruct (Hins B A ∅ (<[B:=∅]> d)) as [H1 H2].
      { intros Q _. unfold edges_under. rewrite lookup_insert_eq. reflexivity. }
      split.
      * intros P Q. rewrite H1. destruct (decide (P = B /\ Q = A)); [reflexivity|].
        unfold edges_under. destruct (decide (P = B)) as [->|HP].
        -- rewrite lookup_insert_eq, HB. reflexivity.
        -- now rewrite lookup_insert_ne by congruence.
      * intros P. rewrite H2. destruct (decide (P = B)) as [->|HP].
        -- rewrite lookup_insert_eq. split; auto.
        -- rewrite lookup_insert_ne by congruence. tauto.
Qed.

Lemma get_interactions_entries (d : gmap string (gmap string (list edge))) :
  get_interactions adata all_set mix_mode neighbours obs_key sig_bool gene1_bool
    gene2_bool spot_mixtures tissue_types cell_type_props cell_prop_cutoff trans_dir
  = Ok d ->
  (forall A B, A ∈ all_set -> B ∈ all_set ->
     exists edges, listed spot_mixtures A B = Ok edges
                   /\ edges_under d (outer_key A B) (inner_key A B) = Some edges)
  /\ (forall P Q edges, edges_under d P Q = Some edges ->
        exists A B, A ∈ all_set /\ B ∈ all_set
                    /\ P = outer_key A B /\ Q = inner_key A B
                    /\ listed spot_mixtures A B = Ok edges)
  /\ (forall P, is_Some (d !! P) -> P ∈ all_set).
Proof.
  unfold get_interactions. intros H.
  set (sound := fun t : gmap string (gmap string (list edge)) =>
         (forall P Q edges, edges_under t P Q = Some edges ->
            exists A B, A ∈ all_set /\ B ∈ all_set
                        /\ P = outer_key A B /\ Q = inner_key A B
                        /\ listed spot_mixtures A B = Ok edges)
         /\ (forall P, is_Some (t !! P) -> P ∈ all_set)).
  apply (for_each_enumerate_preserves
           (fun k t =>
              (forall A B, A ∈ take k all_set -> B ∈ all_set ->
                 exists edges, listed spot_mixtures A B = Ok edges
                   /\ edges_under t (outer_key A B) (inner_key A B) = Some edges)
              /\ sound t)) in H.
  - destruct H as (Hall & Hsound & Hkeys). rewrite firstn_all in Hall. auto.
  - split; [intros A B HA; inversion HA|]. split.
    + intros P Q edges HPQ. unfold edges_under in HPQ.
      rewrite lookup_empty in HPQ. discriminate.
    + intros P [x HP]. rewrite lookup_empty in HP. discriminate.
  - intros k A t t' HA (Hdone & Hsound & Hkeys) Hbody. cbn beta iota in Hbody.
    destruct (source_indices _ _ _ _ _ _ A) as [idx|] eqn:Hidx; simpl in Hbody;
      [|discriminate].
    assert (HAin : A ∈ all_set) by (eapply list_elem_of_lookup_2; eauto).
    set (t0 := if trans_dir then <[A:=∅]> t else t) in *.
    apply (for_each_enumerate_preserves
             (fun j u =>
                (forall B, B ∈ take j all_set ->
                   exists edges, listed spot_mixtures A B = Ok edges
                     /\ edges_under u (outer_key A B) (inner_key A B) = Some edges)
                /\ (forall A' B', A' <> A ->
                      edges_under u (outer_key A' B') (inner_key A' B')
                      = edges_under t (outer_key A' B') (inner_key A' B'))
                /\ sound u)) in Hbody.
    + destruct Hbody as (Hrow & Hframe & Hsound'). rewrite firstn_all in Hrow.
      split; [|assumption]. intros A' B HA' HB.
      destruct (decide (A' = A)) as [->|Hne]; [now apply Hrow|].
      rewrite Hframe by assumption. apply Hdone; [|assumption].
      apply (take_snoc_elem _ _ _ A' HA) in HA' as [?|?]; [assumption|contradiction].
    + split; [intros B HB; inversion HB|]. unfold t0, outer_key, inner_key.
      destruct trans_dir eqn:Htd.
      * split; [|split].
        -- intros A' B' Hne. unfold edges_under.
           now rewrite lookup_insert_ne by congruence.
        -- intros P Q edges HPQ. apply Hsound. unfold edges_under in *.
           destruct (decide (P = A)) as [->|HP].
           ++ rewrite lookup_insert_eq in HPQ. simpl in HPQ.
              rewrite lookup_empty in HPQ. discriminate.
           ++ now rewrite lookup_insert_ne in HPQ by congruence.
        -- intros P HP. destruct (decide (P = A)) as [->|HPne]; [assumption|].
           rewrite lookup_insert_ne in HP by congruence. auto.
      * split; [reflexivity|]. split; assumption.
    + intros j B u u' HB (Hrow & Hframe & Hsound' & Hkeys') Hstep.
      cbn beta iota in Hstep.
      destruct (count_core _ _ _ _ _ _ _ _ _) as [[edges|]|] eqn:Hcore; simpl in Hstep;
        try discriminate.
      assert (HBin : B ∈ all_set) by (eapply list_elem_of_lookup_2; eauto).
      assert (Hlisted : listed spot_mixtures A B = Ok edges).
      { unfold listed. rewrite Hidx. simpl. rewrite Hcore. reflexivity. }
      apply file_edges_spec in Hstep as [Hlook Hk].
      split; [|split; [|split]].
      * intros B' HB'. rewrite Hlook.
        destruct (decide (outer_key A B' = outer_key A B
                          /\ inner_key A B' = inner_key A B)) as [Heq|Hn].
        -- apply (proj1 (keys_determine A B A B')) in Heq as [_ ->]. eauto.
        -- apply Hrow. apply (take_snoc_elem _ _ _ B' HB) in HB' as [?| ->];
             [assumption|]. exfalso. apply Hn. auto.
      * intros A' B' Hne. rewrite Hlook.
        destruct (decide (outer_key A' B' = outer_key A B
                          /\ inner_key A' B' = inner_key A B)) as [Heq|Hn].
        -- apply (proj1 (keys_determine A B A' B')) in Heq as [? _]. contradiction.
        -- now apply Hframe.
      * intros P Q edges' HPQ. rewrite Hlook in HPQ.
        destruct (decide (P = outer_key A B /\ Q = inner_key A B)) as [[-> ->]|Hn].
        -- injection HPQ as <-. exists A, B. auto.
        -- now apply Hsound'.
      * intros P HP. apply Hk in HP as [HP| ->]; [now apply Hkeys'|].
        unfold outer_key. now destruct trans_dir.
Qed.

Lemma get_interactions_completes (m : ndarray Z) :
  count_interactions adata all_set mix_mode neighbours obs_key sig_bool gene1_bool
    gene2_bool tissue_types cell_type_props cell_prop_cutoff trans_dir = Ok m ->
  exists d,
    get_interactions adata all_set mix_mode neighbours obs_key sig_bool gene1_bool
      gene2_bool mix_mode tissue_types cell_type_props cell_prop_cutoff trans_dir
    = Ok d.
Proof.
  unfold count_interactions, get_interactions. intros H.
  destruct (for_each (enumerate all_set) _ _) as [m0|] eqn:Hloop; simpl in H;
    [|discriminate].
  clear H.
  apply (for_each_enumerate_completes (fun _ _ _ => True) _ _ _ _ _ ∅ Hloop I).
  intros k A t1 t1' t2 HA _ Hbody. cbn beta iota in Hbody |- *.
  destruct (source_indices _ _ _ _ _ _ A) as [idx|]; simpl in Hbody |- *;
    [|discriminate].
  enough (Hin : forall start : gmap string (gmap string (list edge)),
            (trans_dir = true -> is_Some (start !! A)) ->
            exists t2',
              for_each (enumerate all_set)
                (fun '(j, cell_B)
                     (interaction_edges : gmap string (gmap string (list edge))) =>
                   edges_list ←
                     count_core adata obs_key neighbours (Some idx)
                       (Some gene2_bool) (Some [cell_B]) mix_mode default_cutoff true;
                   match edges_list with
                   | Edges edges_list =>
                       if trans_dir then
                         inner ← dict_get interaction_edges A;
                         Ok (<[A:=<[cell_B:=edges_list]> inner]> interaction_edges)
                       else
                         let interaction_edges :=
                           if dict_has interaction_edges cell_B then interaction_edges
                           else <[cell_B:=∅]> interaction_edges in
                         inner ← dict_get interaction_edges cell_B;
                         Ok (<[cell_B:=<[A:=edges_list]> inner]> interaction_edges)
                   | Count _ => Raise TypeError
                   end)
                start = Ok t2').
  { destruct (Hin (if trans_dir then <[A:=∅]> t2 else t2)) as [t2' Ht2'].
    - intros ->. rewrite lookup_insert_eq. eauto.
    - exists t2'. split; [exact Ht2' | exact I]. }
  intros start Hstart.
  apply (for_each_enumerate_completes
           (fun _ (_ : ndarray Z) (u : gmap string (gmap string (list edge))) =>
              trans_dir = true -> is_Some (u !! A))
           _ _ _ _ _ start Hbody Hstart).
  intros j B u1 u1' u2 HB Hu Hstep. cbn beta iota in Hstep |- *.
  destruct (count_core _ _ _ _ _ _ _ _ false) as [[|c]|] eqn:Hcore; simpl in Hstep;
    try discriminate.
  destruct (count_core_count_edges _ _ _ _ _ _ _ _ _ Hcore) as (edges & He & _).
  rewrite He. simpl.
  destruct (if trans_dir then _ else _) as [u2'|] eqn:Hfile.
  - exists u2'. split; [reflexivity|]. intros Htd.
    apply file_edges_spec in Hfile as [_ Hk]. apply Hk. left. auto.
  - exfalso. destruct trans_dir.
    + destruct (Hu eq_refl) as [inner Hinner]. unfold dict_get in Hfile.
      rewrite Hinner in Hfile. discriminate.
    + cbn zeta in Hfile. unfold dict_has, dict_get in Hfile.
      destruct (u2 !! B) as [inner|] eqn:HuB.
      * rewrite bool_decide_true in Hfile by eauto. rewrite HuB in Hfile. discriminate.
      * rewrite bool_decide_false in Hfile by (intros [? ?]; discriminate).
        rewrite lookup_insert_eq in Hfile. discriminate.
Qed.

End InteractionFacts.

(** X16. Whenever [count_interactions] completes, [get_interactions] on the
    same arguments, with [spot_mixtures] set to [mix_mode], completes too; the
    outer keys of its dict of edges are the labels of [all_set], and the cell
    of the matrix in the row of label [P] and the column of label [Q] is the
    number of edges listed under [P] and then [Q], for either value of
    [trans_dir]. *)
Theorem interaction_counts_match_edges (adata : AnnData) (all_set : list string)
  (mix_mode : bool) (neighbours : list (list nat)) (obs_key : string)
  (sig_bool gene1_bool gene2_bool : list bool)
  (tissue_types : option (list string)) (cell_type_props : DataFrame Q)
  (cell_prop_cutoff : Q) (trans_dir : bool) (m : ndarray Z) :
  count_interactions adata all_set mix_mode neighbours obs_key sig_bool gene1_bool
    gene2_bool tissue_types cell_type_props cell_prop_cutoff trans_dir = Ok m ->
  exists d,
    get_interactions adata all_set mix_mode neighbours obs_key sig_bool gene1_bool
      gene2_bool mix_mode tissue_types cell_type_props cell_prop_cutoff trans_dir
    = Ok d
    /\ (forall P, is_Some (d !! P) <-> P ∈ all_set)
    /\ forall p q P Q, all_set !! p = Some P -> all_set !! q = Some Q ->
         exists edges,
           edges_under d P Q = Some edges
           /\ cell p q m = Z.of_nat (length edges).
Proof.
  intros Hm.
  destruct (get_interactions_completes _ _ _ _ _ _ _ _ _ _ _ _ _ Hm) as [d Hd].
  exists d. split; [exact Hd|].
  pose proof (count_interactions_cells _ _ _ _ _ _ _ _ _ _ _ _ _ Hm) as Hcells.
  destruct (get_interactions_entries _ _ _ _ _ _ _ _ _ _ _ _ _ _ Hd)
    as (Hall & _ & Hkeys).
  cbv zeta in Hcells, Hall. split.
  - intros P. split; [apply Hkeys|]. intros HP.
    destruct (Hall P P HP HP) as (edges & _ & He). unfold edges_under in He.
    destruct trans_dir; destruct (d !! P); eauto; discriminate.
  - intros p q P Q Hp Hq.
    destruct (Hcells p q P Q Hp Hq) as (edges & Hl & Hc).
    assert (HP : P ∈ all_set) by (eapply list_elem_of_lookup_2; eauto).
    assert (HQ : Q ∈ all_set) by (eapply list_elem_of_lookup_2; eauto).
    exists edges. split; [|assumption].
    destruct trans_dir.
    + destruct (Hall P Q HP HQ) as (edges' & Hl' & He).
      rewrite Hl in Hl'. now injection Hl' as <-.
    + destruct (Hall Q P HQ HP) as (edges' & Hl' & He).
      rewrite Hl in Hl'. now injection Hl' as <-.
Qed.

Lemma source_indices_discrete (tissue_types : list string)
  (cell_type_props : DataFrame Q) (cell_prop_cutoff : Q)
  (sig_bool gene1_bool : list bool) (cell_A : string) (idx : list nat) :
  length tissue_types = length gene1_bool ->
  length gene1_bool = length sig_bool ->
  source_indices false (Some tissue_types) cell_type_props cell_prop_cutoff
    sig_bool gene1_bool cell_A = Ok idx ->
  forall i, i ∈ idx <->
            tissue_types !! i = Some cell_A /\ gene1_bool !! i = Some true
            /\ sig_bool !! i = Some true.
Proof.
  intros H1 H2. unfold source_indices, source_mask, logical_and. simpl.
  rewrite length_map, H1, Nat.eqb_refl. simpl.
  rewrite length_zip_with, length_map, H1, Nat.min_id, H2, Nat.eqb_refl.
  intros [= <-] i. rewrite np_where_elem, !lookup_zip_with, list_lookup_fmap.
  destruct (tissue_types !! i) as [t|]; simpl.
  - destruct (gene1_bool !! i) as [g|]; simpl.
    + destruct (sig_bool !! i) as [s|]; simpl.
      * destruct (String.eqb_spec t cell_A) as [->|Hne], g, s; simpl;
          split; try tauto; try (intros [= ?]; discriminate);
          try (intros (? & ? & ?); congruence); intros ([= ?] & _); contradiction.
      * split; [discriminate | intros (_ & _ & ?); discriminate].
    + split; [discriminate | intros (_ & ? & _); discriminate].
  - split; [discriminate | intros (? & _); discriminate].
Qed.

(** X17. On discrete labels, with the three masks as long as the label
    array, the edges [get_interactions] files for the cell types [A] (sending)
    and [B] (receiving) are exactly the links from a spot of type [A] that is
    significant and expresses the first gene to one of its listed neighbours
    of type [B] that expresses the second gene: every filed edge is such a
    link, every such link is filed in one of its two directions, and none is
    filed twice. With [trans_dir] the edges are under [A] and then [B],
    without it under [B] and then [A]. *)
Theorem interaction_edges_link_cell_types (adata : AnnData) (all_set : list string)
  (neighbours : list (list nat)) (obs_key : string)
  (sig_bool gene1_bool gene2_bool : list bool) (spot_mixtures : bool)
  (tissue_types : list string) (cell_type_props : DataFrame Q)
  (cell_prop_cutoff : Q) (trans_dir : bool) (cell_types : list string)
  (d : gmap string (gmap string (list edge))) (P Q : string)
  (edges_list : list edge) :
  spot_mixtures && dict_has (uns adata) (label_keys obs_key).2 = false ->
  obs adata !! (label_keys obs_key).1 = Some cell_types ->
  length tissue_types = length gene1_bool ->
  length gene1_bool = length sig_bool ->
  get_interactions adata all_set false neighbours obs_key sig_bool gene1_bool
    gene2_bool spot_mixtures (Some tissue_types) cell_type_props cell_prop_cutoff
    trans_dir = Ok d ->
  edges_under d P Q = Some edges_list ->
  let A := if trans_dir then P else Q in
  let B := if trans_dir then Q else P in
  let link := fun s t : barcode =>
    exists (i k : nat) (neighs : list nat),
      tissue_types !! i = Some A /\ gene1_bool !! i = Some true
      /\ sig_bool !! i = Some true /\ obs_names adata !! i = Some s
      /\ neighbours !! i = Some neighs /\ k ∈ neighs
      /\ obs_names adata !! k = Some t /\ gene2_bool !! k = Some true
      /\ cell_types !! k = Some B in
  A ∈ all_set /\ B ∈ all_set
  /\ exists edges,
       edges_list = pair_edges edges
       /\ NoDup edges
       /\ (forall s t, (s, t) ∈ edges -> (t, s) ∈ edges -> s = t)
       /\ (forall s t, (s, t) ∈ edges -> link s t)
       /\ (forall s t, link s t -> (s, t) ∈ edges \/ (t, s) ∈ edges).
Proof.
  intros Hmode Hobs H1 H2 Hd HPQ A B link.
  destruct (get_interactions_entries _ _ _ _ _ _ _ _ _ _ _ _ _ _ Hd)
    as (_ & Hsound & _).
  cbv zeta in Hsound.
  destruct (Hsound P Q edges_list HPQ) as (A' & B' & HA & HB & HP & HQ & Hl).
  assert (HAB : A' = A /\ B' = B).
  { unfold A, B. subst P Q. now destruct trans_dir. }
  destruct HAB as [-> ->]. split; [assumption|]. split; [assumption|].
  destruct (source_indices _ _ _ _ _ _ A) as [idx|] eqn:Hidx; simpl in Hl;
    [|discriminate].
  destruct (count_core _ _ _ _ _ _ _ _ _) as [[edges0|]|] eqn:Hcore; simpl in Hl;
    try discriminate.
  injection Hl as ->.
  pose proof (source_indices_discrete _ _ _ _ _ _ _ H1 H2 Hidx) as Hsrc.
  destruct (count_core_one_label_links _ _ _ _ _ _ _ _ _ _ _ Hmode Hobs Hcore)
    as (edges & He & Hnd & Hanti & Hsoundl & Hcomplete).
  injection He as ->. exists edges. simpl in Hsoundl, Hcomplete.
  repeat match goal with |- _ /\ _ => split end; try assumption; try reflexivity.
  - intros s t Hin.
    destruct (Hsoundl s t Hin) as (i & k & neighs & Hi & Hs & Hn & Hk & Ht & Hg & Hc).
    apply Hsrc in Hi as (Htt & Hg1 & Hsig). exists i, k, neighs. auto 10.
  - intros s t (i & k & neighs & Htt & Hg1 & Hsig & Hs & Hn & Hk & Ht & Hg & Hc).
    apply Hcomplete. exists i, k, neighs.
    repeat split; try assumption. apply Hsrc. auto.
Qed.

(** * Examples of the further properties *)

Lemma returned_edges_link_listed_neighbours_witness :
  get_between_spot_edge_array bcs_ab indices_ab [true; true; true] false (Some props_abc) 0 true
  = Ok [("a", "b"); ("a", "c"); ("b", "c")]
  /\ forall e, e ∈ [("a", "b"); ("a", "c"); ("b", "c")] ->
       links_neighbour bcs_ab indices_ab [true; true; true] e.
Proof.
  assert (H : get_between_spot_edge_array bcs_ab indices_ab [true; true; true]
                false (Some props_abc) 0 true
              = Ok [("a", "b"); ("a", "c"); ("b", "c")]) by (vm_compute; reflexivity).
  split; [exact H|].
  exact (proj1 (returned_edges_link_listed_neighbours bcs_ab indices_ab
                  [true; true; true] false (Some props_abc) 0 true
                  [("a", "b"); ("a", "c"); ("b", "c")] H)).
Defined.

Lemma directed_then_undirected_witness :
  get_between_spot_edge_array bcs_ab indices_ab [true; true; true] false (Some props_abc) 0 false
  = Ok [("a", "b"); ("a", "c"); ("b", "a"); ("b", "c")]
  /\ get_between_spot_edge_array bcs_ab indices_ab [true; true; true] false (Some props_abc) 0
       true
     = Ok [("a", "b"); ("a", "c"); ("b", "c")]
  /\ unique_edges true
       (buffer_of_edges [("a", "b"); ("a", "c"); ("b", "a"); ("b", "c")])
     = Ok [("a", "b"); ("a", "c"); ("b", "c")].
Proof.
  assert (Hd : get_between_spot_edge_array bcs_ab indices_ab [true; true; true]
                 false (Some props_abc) 0 false
               = Ok [("a", "b"); ("a", "c"); ("b", "a"); ("b", "c")])
    by (vm_compute; reflexivity).
  assert (Hu : get_between_spot_edge_array bcs_ab indices_ab [true; true; true]
                 false (Some props_abc) 0 true
               = Ok [("a", "b"); ("a", "c"); ("b", "c")])
    by (vm_compute; reflexivity).
  split; [exact Hd|]. split; [exact Hu|].
  exact (proj1 (directed_then_undirected bcs_ab indices_ab [true; true; true]
                  false (Some props_abc) 0 [("a", "b"); ("a", "c"); ("b", "a"); ("b", "c")]
                  [("a", "b"); ("a", "c"); ("b", "c")] Hd Hu)).
Defined.

Lemma count_core_discrete_two_labels_witness :
  label_set_or_default adata_types "cell_type" None = Ok ["T1"; "T2"]
  /\ count_core adata_types "cell_type" neighbours_abc (Some [0; 1]) None None
       false (2 # 10) false = Ok (Count 0)
  /\ Count 0 = (if false then Edges [] else Count 0).
Proof.
  assert (Hls : label_set_or_default adata_types "cell_type" None = Ok ["T1"; "T2"])
    by (vm_compute; reflexivity).
  assert (Hc : count_core adata_types "cell_type" neighbours_abc (Some [0; 1]) None
                 None false (2 # 10) false = Ok (Count 0))
    by (vm_compute; reflexivity).
  split; [exact Hls|]. split; [exact Hc|].
  refine (count_core_discrete_two_labels adata_types "cell_type" neighbours_abc
            [0; 1] None None false (2 # 10) false ["T1"; "T2"] "T1" "T2" (Count 0)
            _ Hls _ _ _ Hc).
  - reflexivity.
  - left.
  - right. left.
  - discriminate.
Defined.

Lemma count_stores_bounded_counts_witness :
  count adata_pair_deconv (Some "deconv") "cci_het" true None
  = Ok (set_obsm adata_pair_deconv "cci_het" (ObsmVector [2; 2]%Z),
        [count_message "cci_het"])
  /\ uns (set_obsm adata_pair_deconv "cci_het" (ObsmVector [2; 2]%Z))
     = uns adata_pair_deconv.
Proof.
  assert (H : count adata_pair_deconv (Some "deconv") "cci_het" true None
              = Ok (set_obsm adata_pair_deconv "cci_het" (ObsmVector [2; 2]%Z),
                    [count_message "cci_het"])) by (vm_compute; reflexivity).
  split; [exact H|].
  pose proof (count_stores_bounded_counts _ _ _ _ _ _ _ H) as K.
  cbv zeta in K. exact (proj1 (proj2 K)).
Defined.

Lemma count_needs_spatial_metadata_witness :
  uns adata_mix !! "spatial" = None
  /\ count adata_mix (Some "deconv") "cci_het" true (Some 0%Q)
     = Raise (KeyError "spatial").
Proof.
  assert (H : uns adata_mix !! "spatial" = None) by (vm_compute; reflexivity).
  split; [exact H|].
  exact (proj1 (count_needs_spatial_metadata adata_mix (Some "deconv") "cci_het"
                  true (Some 0%Q)) H).
Defined.

Lemma count_grows_with_distance_witness :
  (Qabs (1 # 2) <= Qabs 1)%Q
  /\ count_neighbours adata_pair_deconv [(0, 0); (0, 1)]%Q (1 # 2) "s0" = Ok ["s0"]
  /\ count_neighbours adata_pair_deconv [(0, 0); (0, 1)]%Q 1 "s0" = Ok ["s0"; "s1"]
  /\ (1 <= 2)%Z.
Proof.
  assert (Hd : (Qabs (1 # 2) <= Qabs 1)%Q) by (apply Qle_bool_iff; vm_compute; reflexivity).
  assert (H1 : count_neighbours adata_pair_deconv [(0, 0); (0, 1)]%Q (1 # 2) "s0"
               = Ok ["s0"]) by (vm_compute; reflexivity).
  assert (H2 : count_neighbours adata_pair_deconv [(0, 0); (0, 1)]%Q 1 "s0"
               = Ok ["s0"; "s1"]) by (vm_compute; reflexivity).
  split; [exact Hd|]. split; [exact H1|]. split; [exact H2|].
  refine (proj2 (count_grows_with_distance adata_pair_deconv [(0, 0); (0, 1)]%Q
                   (1 # 2) 1 "s0" ["s0"] ["s0"; "s1"]
                   (mk_DataFrame ["s0"; "s1"] ["T"; "U"]
                      [[5 # 10; 1 # 10]; [1 # 10; 5 # 10]]%Q)
                   1 2 Hd H1 H2 _ _)).
  - vm_compute. reflexivity.
  - vm_compute. reflexivity.
Defined.

Lemma create_grids_neighbour_lists_witness :
  create_grids adata_pair 2 2 1
  = Ok [[2; 1; 3]; [0; 2; 3]; [0; 1; 3]; [0; 2; 1]]%Z
  /\ length [[2; 1; 3]; [0; 2; 3]; [0; 1; 3]; [0; 2; 1]]%Z = Z.to_nat (2 * 2).
Proof.
  assert (H : create_grids adata_pair 2 2 1
              = Ok [[2; 1; 3]; [0; 2; 3]; [0; 1; 3]; [0; 2; 1]]%Z)
    by (vm_compute; reflexivity).
  split; [exact H|].
  exact (proj1 (create_grids_neighbour_lists adata_pair 2 2 1 _ H)).
Defined.

Lemma filter_lrs_keeps_names_with_columns_witness :
  filter_lrs scores_at_threshold ["A_B"; "C_D"] 2
  = Ok (mk_ndarray 1 [[1]; [1]; [1]]%Q, ["C_D"])
  /\ length ["A_B"; "C_D"] = shape1 scores_at_threshold.
Proof.
  assert (H : filter_lrs scores_at_threshold ["A_B"; "C_D"] 2
              = Ok (mk_ndarray 1 [[1]; [1]; [1]]%Q, ["C_D"]))
    by (vm_compute; reflexivity).
  split; [exact H|].
  exact (proj1 (filter_lrs_keeps_names_with_columns _ _ _ _ _ H)).
Defined.

Lemma run_cci_guard_witness :
  uns adata_pair !! "lr_summary" = None
  /\ run_cci nat counting_data_stub matrix_stub pvals_stub adata_pair "cell_type"
       false 3 true (2 # 10) (5 # 100) 100 false 0 = Raise no_lr_results.
Proof.
  assert (H : uns adata_pair !! "lr_summary" = None) by (vm_compute; reflexivity).
  split; [exact H|].
  exact (proj1 (run_cci_guard nat counting_data_stub matrix_stub pvals_stub
                  adata_pair "cell_type" false 3 true (2 # 10) (5 # 100) 100 false 0)
           H).
Defined.

Lemma run_cci_needs_well_formed_pairs_witness :
  run_cci nat counting_data_stub matrix_stub pvals_stub adata_cci "cell_type"
    false 3 true (2 # 10) (5 # 100) 100 false 0 = Ok (adata_cci_after, 2, [])
  /\ exists tissue_types lr_summary,
       obs adata_cci !! "cell_type" = Some tissue_types
       /\ uns adata_cci !! "lr_summary" = Some (UnsCounts lr_summary).
Proof.
  assert (H : run_cci nat counting_data_stub matrix_stub pvals_stub adata_cci
                "cell_type" false 3 true (2 # 10) (5 # 100) 100 false 0
              = Ok (adata_cci_after, 2, [])) by (vm_compute; reflexivity).
  split; [exact H|].
  destruct (run_cci_needs_well_formed_pairs _ _ _ _ _ _ _ _ _ _ _ _ _ _ _ _ _ H)
    as (tissue_types & lr_summary & Hobs & Hsum & _).
  exists tissue_types, lr_summary. split; [exact Hobs | exact Hsum].
Defined.

Lemma run_cci_writes_five_entries_witness :
  run_cci nat counting_data_stub matrix_stub pvals_stub adata_cci "cell_type"
    false 3 true (2 # 10) (5 # 100) 100 false 0 = Ok (adata_cci_after, 2, [])
  /\ obsm adata_cci_after = obsm adata_cci.
Proof.
  assert (H : run_cci nat counting_data_stub matrix_stub pvals_stub adata_cci
                "cell_type" false 3 true (2 # 10) (5 # 100) 100 false 0
              = Ok (adata_cci_after, 2, [])) by (vm_compute; reflexivity).
  split; [exact H|].
  destruct (run_cci_writes_five_entries _ _ _ _ _ _ _ _ _ _ _ _ _ _ _ _ _ H)
    as (_ & _ & _ & _ & _ & Hobsm & _).
  exact Hobsm.
Defined.

Lemma run_cci_per_pair_dicts_witness :
  run_cci nat counting_data_stub matrix_stub pvals_stub adata_cci "cell_type"
    false 3 true (2 # 10) (5 # 100) 100 false 0 = Ok (adata_cci_after, 2, [])
  /\ exists pvals,
       uns adata_cci_after !! "per_lr_cci_pvals_cell_type" = Some (UnsFrameDict pvals).
Proof.
  assert (H : run_cci nat counting_data_stub matrix_stub pvals_stub adata_cci
                "cell_type" false 3 true (2 # 10) (5 # 100) 100 false 0
              = Ok (adata_cci_after, 2, [])) by (vm_compute; reflexivity).
  split; [exact H|].
  destruct (run_cci_per_pair_dicts _ _ _ _ _ _ _ _ _ _ _ _ _ _ _ _ _ H)
    as (tissue_types & lr_summary & sig & pvals & raw & _ & _ & _ & Hp & _).
  exists pvals. exact Hp.
Defined.

Lemma load_lrs_each_pair_once_witness :
  load_lrs "/pkg" read_csv_stub NoNames = Ok ["L1_R1"; "L2_R2"]
  /\ NoDup ["L1_R1"; "L2_R2"].
Proof.
  assert (H : load_lrs "/pkg" read_csv_stub NoNames = Ok ["L1_R1"; "L2_R2"])
    by (vm_compute; reflexivity).
  split; [exact H|].
  exact (proj1 (load_lrs_each_pair_once "/pkg" read_csv_stub NoNames _ H)).
Defined.

Lemma pair_name_read_back_witness :
  (contains_char "_" "HLA_A" = true \/ contains_char "_" "B2M" = true)
  /\ lr_matrices nat matrix_stub pvals_stub adata_cci no_props "lr_scores"
       (mk_ndarray 0 []) [] [] [] (2 # 10) 100 (lr_name "HLA_A" "B2M") 0
     = Raise ValueError.
Proof.
  assert (H : contains_char "_" "HLA_A" = true \/ contains_char "_" "B2M" = true)
    by (left; vm_compute; reflexivity).
  split; [exact H|].
  exact (proj2 (pair_name_read_back nat matrix_stub pvals_stub adata_cci no_props
                  "lr_scores" (mk_ndarray 0 []) [] [] [] (2 # 10) 100 0
                  "HLA_A" "B2M") H).
Defined.

Lemma count_core_single_label_witness :
  count_core adata_types "cell_type" neighbours_abc (Some [0]) (Some all_spots)
    (Some ["T2"]) false (2 # 10) true
  = Ok (Edges [PairEdge "a" "b"; PairEdge "a" "c"])
  /\ exists edges,
       Edges [PairEdge "a" "b"; PairEdge "a" "c"] = Edges (pair_edges edges)
       /\ NoDup edges.
Proof.
  assert (H : count_core adata_types "cell_type" neighbours_abc (Some [0])
                (Some all_spots) (Some ["T2"]) false (2 # 10) true
              = Ok (Edges [PairEdge "a" "b"; PairEdge "a" "c"]))
    by (vm_compute; reflexivity).
  split; [exact H|].
  destruct (count_core_single_label adata_types "cell_type" neighbours_abc [0]
              (Some all_spots) "T2" false (2 # 10) true ["T1"; "T2"; "T2"]
              (Edges [PairEdge "a" "b"; PairEdge "a" "c"]))
    as (edges & He & Hnd & _).
  - reflexivity.
  - vm_compute. reflexivity.
  - exact H.
  - exists edges. split; [exact He | exact Hnd].
Defined.

Lemma interaction_counts_match_edges_witness :
  count_interactions adata_types ["T1"; "T2"] false neighbours_abc "cell_type"
    all_spots all_spots all_spots (Some ["T1"; "T2"; "T2"]) no_props 0 true
  = Ok counts_types
  /\ exists d,
       get_interactions adata_types ["T1"; "T2"] false neighbours_abc "cell_type"
         all_spots all_spots all_spots false (Some ["T1"; "T2"; "T2"]) no_props 0
         true = Ok d
       /\ forall P, is_Some (d !! P) <-> P ∈ ["T1"; "T2"].
Proof.
  assert (H : count_interactions adata_types ["T1"; "T2"] false neighbours_abc
                "cell_type" all_spots all_spots all_spots
                (Some ["T1"; "T2"; "T2"]) no_props 0 true = Ok counts_types)
    by (vm_compute; reflexivity).
  split; [exact H|].
  destruct (interaction_counts_match_edges _ _ _ _ _ _ _ _ _ _ _ _ _ H)
    as (d & Hd & Hkeys & _).
  exists d. split; [exact Hd | exact Hkeys].
Defined.

Lemma interaction_edges_link_cell_types_witness :
  get_interactions adata_types ["T1"; "T2"] false neighbours_abc "cell_type"
    all_spots all_spots all_spots false (Some ["T1"; "T2"; "T2"]) no_props 0 true
  = Ok edges_types
  /\ edges_under edges_types "T1" "T2" = Some [PairEdge "a" "b"; PairEdge "a" "c"]
  /\ "T1" ∈ ["T1"; "T2"].
Proof.
  assert (Hd : get_interactions adata_types ["T1"; "T2"] false neighbours_abc
                 "cell_type" all_spots all_spots all_spots false
                 (Some ["T1"; "T2"; "T2"]) no_props 0 true = Ok edges_types)
    by (vm_compute; reflexivity).
  assert (He : edges_under edges_types "T1" "T2"
               = Some [PairEdge "a" "b"; PairEdge "a" "c"])
    by (vm_compute; reflexivity).
  split; [exact Hd|]. split; [exact He|].
  pose proof (interaction_edges_link_cell_types adata_types ["T1"; "T2"]
                neighbours_abc "cell_type" all_spots all_spots all_spots false
                ["T1"; "T2"; "T2"] no_props 0 true ["T1"; "T2"; "T2"] edges_types
                "T1" "T2" [PairEdge "a" "b"; PairEdge "a" "c"]) as K.
  cbv zeta in K. refine (proj1 (K _ _ _ _ Hd He)).
  - reflexivity.
  - vm_compute. reflexivity.
  - reflexivity.
  - reflexivity.
Defined.
